(** * Cryptics web and mobile clients: subscription manager and auth session

    A shallow embedding of the client-side logic of the Cryptics dashboard:

    - [apps/web/app/hooks/useVisibleSummaries.ts] (module [AppHooks]) and its
      older copy [apps/web/hooks/useVisibleSummaries.ts] (module [LegacyHooks]);
    - [packages/api/src/axios.ts] (module [Axios]);
    - [apps/web/app/providers/AuthProvider.tsx] (module [AuthProvider]);
    - [apps/mobile/src/api/mobileApi.ts] and
      [apps/mobile/src/context/AuthContext.tsx] (module [MobileAuth]).

    The code is single-threaded JavaScript.  Every [async] function is cut at
    its [await]s: the synchronous stretch before an [await] is one function of
    the state, the continuation after it another, and the event loop is a list
    of events applied in order.  [Date.now()] readings are arguments. *)

From Stdlib Require Import ZArith List String Ascii Bool Lia.
From stdpp Require Import base strings list gmap pretty sorting.
Import ListNotations.
Open Scope string_scope.
Open Scope Z_scope.

Set Warnings "-register-all".

(** ** JavaScript values *)

Module JS.

(** The values that [JSON.parse] produces, plus [undefined].  Numbers are
    restricted to integers: none of the modelled code does arithmetic on a
    fractional value.  An object is its list of own properties in insertion
    order, without duplicate keys. *)
Inductive value : Type :=
| VUndef
| VNull
| VBool (b : bool)
| VNum (n : Z)
| VStr (s : string)
| VArr (l : list value)
| VObj (fields : list (string * value)).

(** [if (v)], [!v], [v && ...], [v || ...]. *)
Definition truthy (v : value) : bool :=
  match v with
  | VUndef | VNull => false
  | VBool b => b
  | VNum n => negb (n =? 0)
  | VStr s => negb (String.eqb s "")
  | VArr _ | VObj _ => true
  end.

Fixpoint obj_lookup (k : string) (fields : list (string * value)) : option value :=
  match fields with
  | [] => None
  | (k', v) :: rest => if String.eqb k k' then Some v else obj_lookup k rest
  end.

(** [o[k] = v] on a plain object: an existing key keeps its position. *)
Fixpoint obj_set (k : string) (v : value) (fields : list (string * value))
  : list (string * value) :=
  match fields with
  | [] => [(k, v)]
  | (k', v') :: rest =>
      if String.eqb k k' then (k, v) :: rest else (k', v') :: obj_set k v rest
  end.

(** [v.k] for a property name [k] that is neither an index nor [length]
    (the code reads [type], [data], [symbol], [summaries], [exp],
    [access_token] and [user]).  [None] is the [TypeError] of reading a
    property of [null] or [undefined]. *)
Definition get_prop (v : value) (k : string) : option value :=
  match v with
  | VUndef | VNull => None
  | VObj fields => Some (default VUndef (obj_lookup k fields))
  | _ => Some VUndef
  end.

(** [String(v)], the coercion of template literals and of
    [localStorage.setItem]. *)
Fixpoint js_String (v : value) : string :=
  match v with
  | VUndef => "undefined"
  | VNull => "null"
  | VBool true => "true"
  | VBool false => "false"
  | VNum n => pretty n
  | VStr s => s
  | VArr l =>
      String.concat ","
        (List.map (fun x => match x with
                            | VUndef | VNull => ""
                            | _ => js_String x
                            end) l)
  | VObj _ => "[object Object]"
  end.

Fixpoint chars_of (s : string) : list string :=
  match s with
  | EmptyString => []
  | String c rest => String c EmptyString :: chars_of rest
  end.

Fixpoint index_from {A : Type} (i : nat) (l : list A) : list (string * A) :=
  match l with
  | [] => []
  | x :: rest => (pretty i, x) :: index_from (S i) rest
  end.

(** The own enumerable properties that [{...v}] copies.  (JavaScript lists
    index-like keys first; the merged objects below are only read by key.) *)
Definition own_props (v : value) : list (string * value) :=
  match v with
  | VObj fields => fields
  | VArr l => index_from 0%nat l
  | VStr s => index_from 0%nat (List.map VStr (chars_of s))
  | _ => []
  end.

(** [{...a, ...b}] *)
Definition spread2 (a b : value) : list (string * value) :=
  fold_left (fun o kv => obj_set (fst kv) (snd kv) o) (own_props b)
    (fold_left (fun o kv => obj_set (fst kv) (snd kv) o) (own_props a) []).

Definition isArray (v : value) : option (list value) :=
  match v with VArr l => Some l | _ => None end.

(** [v === "s"] *)
Definition is_str (v : value) (s : string) : bool :=
  match v with VStr s' => String.eqb s' s | _ => false end.

(** ASCII [toUpperCase]; ticker symbols are ASCII. *)
Definition upper_ascii (c : ascii) : ascii :=
  let n := nat_of_ascii c in
  if ((97 <=? n)%nat && (n <=? 122)%nat)%bool then ascii_of_nat (n - 32) else c.

Fixpoint toUpperCase (s : string) : string :=
  match s with
  | EmptyString => EmptyString
  | String c rest => String (upper_ascii c) (toUpperCase rest)
  end.

(** *** [Map] keyed by JavaScript values *)

(** SameValueZero on values as [JSON.parse] delivers them: primitives by
    value, objects and arrays by reference, and every parsed object is a fresh
    reference, so it equals no key already in a map. *)
Definition key_eqb (a b : value) : bool :=
  match a, b with
  | VUndef, VUndef | VNull, VNull => true
  | VBool x, VBool y => Bool.eqb x y
  | VNum x, VNum y => x =? y
  | VStr x, VStr y => String.eqb x y
  | _, _ => false
  end.

Definition Map (V : Type) : Type := list (value * V).

Fixpoint Map_get {V : Type} (k : value) (m : Map V) : option V :=
  match m with
  | [] => None
  | (k', v) :: rest => if key_eqb k k' then Some v else Map_get k rest
  end.

Fixpoint Map_set {V : Type} (k : value) (v : V) (m : Map V) : Map V :=
  match m with
  | [] => [(k, v)]
  | (k', v') :: rest =>
      if key_eqb k k' then (k', v) :: rest else (k', v') :: Map_set k v rest
  end.

(** *** [Set<string>]: insertion-ordered, no duplicates *)

Definition Set_has (x : string) (s : list string) : bool :=
  existsb (String.eqb x) s.

Definition Set_add (x : string) (s : list string) : list string :=
  if Set_has x s then s else s ++ [x].

Definition Set_delete (x : string) (s : list string) : list string :=
  List.filter (fun y => negb (String.eqb x y)) s.

(** [Array.from(new Set(l))] *)
Definition Set_of_list (l : list string) : list string :=
  fold_left (fun s x => Set_add x s) l [].

End JS.

(** ** The subscription manager, [apps/web/app/hooks/useVisibleSummaries.ts] *)

Module Ws.

(** [WebSocket.readyState]; the browser owns it, the hook only reads it. *)
Inductive ReadyState : Type := CONNECTING | OPEN | CLOSING | CLOSED.

(** What the hook does to the outside world, oldest first. *)
Inductive Effect : Type :=
| WsNew (id : nat) (url : string)
| WsClose (id : nat)
| WsSendReplace (id : nat) (symbols : list string)
| WsOnOpenReplace (id : nat) (symbols : list string)
| SetTimeout (id : nat) (delay : Z)
| ClearTimeout (id : nat)
| Fetch (url : string).

(** The result of [await fetch(...)] followed by [await res.json()]. *)
Inductive FetchResult : Type :=
| NetworkError
| Http (ok : bool) (body : option JS.value).

Fixpoint insert_sorted (x : string) (l : list string) : list string :=
  match l with
  | [] => [x]
  | y :: rest => if String.leb x y then x :: l else y :: insert_sorted x rest
  end.

(** [Array.prototype.sort()] on strings: code-unit order. *)
Definition sort (l : list string) : list string :=
  fold_right insert_sorted [] l.

(** [s.replace(/\/$/, "")] *)
Fixpoint strip_trailing_slash (s : string) : string :=
  match s with
  | EmptyString => EmptyString
  | String c EmptyString => if Ascii.eqb c "/" then EmptyString else s
  | String c rest => String c (strip_trailing_slash rest)
  end.

(** [s.replace(/^http/, "ws")] *)
Definition http_to_ws (s : string) : string :=
  match s with
  | String "h" (String "t" (String "t" (String "p" rest))) => "ws" ++ rest
  | _ => s
  end.

Definition join (l : list string) : string := String.concat "," l.

(** The order [sort] sorts by. *)
Definition str_le (a b : string) : Prop := String.leb a b = true.

End Ws.

Module AppHooks.
Import JS Ws.

(** The refs and state of one [useVisibleSummaries] instance.  DOM nodes and
    sockets are numbered; [effects] is the log of what was done to them. *)
Record Hook : Type := mkHook {
  nodeToSymbol : list (nat * string);
  visibleSet : list string;
  extraSymbolsRef : list string;
  wsRef : option nat;
  next_ws : nat;
  lastSentSymbols : option (list string);
  latest : Map value;
  lastSnapshotFetch : gmap string Z;
  pendingVisibleChange : option nat;
  next_timer : nat;
  tick : nat;
  effects : list Effect
}.

Definition set_nodeToSymbol (x : list (nat * string)) (h : Hook) : Hook :=
  mkHook x (visibleSet h) (extraSymbolsRef h) (wsRef h) (next_ws h)
    (lastSentSymbols h) (latest h) (lastSnapshotFetch h)
    (pendingVisibleChange h) (next_timer h) (tick h) (effects h).

Definition set_visibleSet (x : list string) (h : Hook) : Hook :=
  mkHook (nodeToSymbol h) x (extraSymbolsRef h) (wsRef h) (next_ws h)
    (lastSentSymbols h) (latest h) (lastSnapshotFetch h)
    (pendingVisibleChange h) (next_timer h) (tick h) (effects h).

Definition set_extraSymbolsRef (x : list string) (h : Hook) : Hook :=
  mkHook (nodeToSymbol h) (visibleSet h) x (wsRef h) (next_ws h)
    (lastSentSymbols h) (latest h) (lastSnapshotFetch h)
    (pendingVisibleChange h) (next_timer h) (tick h) (effects h).

Definition set_wsRef (x : option nat) (h : Hook) : Hook :=
  mkHook (nodeToSymbol h) (visibleSet h) (extraSymbolsRef h) x (next_ws h)
    (lastSentSymbols h) (latest h) (lastSnapshotFetch h)
    (pendingVisibleChange h) (next_timer h) (tick h) (effects h).

Definition set_next_ws (x : nat) (h : Hook) : Hook :=
  mkHook (nodeToSymbol h) (visibleSet h) (extraSymbolsRef h) (wsRef h) x
    (lastSentSymbols h) (latest h) (lastSnapshotFetch h)
    (pendingVisibleChange h) (next_timer h) (tick h) (effects h).

Definition set_lastSentSymbols (x : option (list string)) (h : Hook) : Hook :=
  mkHook (nodeToSymbol h) (visibleSet h) (extraSymbolsRef h) (wsRef h) (next_ws h)
    x (latest h) (lastSnapshotFetch h)
    (pendingVisibleChange h) (next_timer h) (tick h) (effects h).

Definition set_latest (x : Map value) (h : Hook) : Hook :=
  mkHook (nodeToSymbol h) (visibleSet h) (extraSymbolsRef h) (wsRef h) (next_ws h)
    (lastSentSymbols h) x (lastSnapshotFetch h)
    (pendingVisibleChange h) (next_timer h) (tick h) (effects h).

Definition set_lastSnapshotFetch (x : gmap string Z) (h : Hook) : Hook :=
  mkHook (nodeToSymbol h) (visibleSet h) (extraSymbolsRef h) (wsRef h) (next_ws h)
    (lastSentSymbols h) (latest h) x
    (pendingVisibleChange h) (next_timer h) (tick h) (effects h).

Definition set_pendingVisibleChange (x : option nat) (h : Hook) : Hook :=
  mkHook (nodeToSymbol h) (visibleSet h) (extraSymbolsRef h) (wsRef h) (next_ws h)
    (lastSentSymbols h) (latest h) (lastSnapshotFetch h)
    x (next_timer h) (tick h) (effects h).

Definition set_next_timer (x : nat) (h : Hook) : Hook :=
  mkHook (nodeToSymbol h) (visibleSet h) (extraSymbolsRef h) (wsRef h) (next_ws h)
    (lastSentSymbols h) (latest h) (lastSnapshotFetch h)
    (pendingVisibleChange h) x (tick h) (effects h).

Definition set_tick (x : nat) (h : Hook) : Hook :=
  mkHook (nodeToSymbol h) (visibleSet h) (extraSymbolsRef h) (wsRef h) (next_ws h)
    (lastSentSymbols h) (latest h) (lastSnapshotFetch h)
    (pendingVisibleChange h) (next_timer h) x (effects h).

Definition emit (e : Effect) (h : Hook) : Hook :=
  mkHook (nodeToSymbol h) (visibleSet h) (extraSymbolsRef h) (wsRef h) (next_ws h)
    (lastSentSymbols h) (latest h) (lastSnapshotFetch h)
    (pendingVisibleChange h) (next_timer h) (tick h) (effects h ++ [e]).

(** The state right after the hook is mounted. *)
Definition mount : Hook :=
  mkHook [] [] [] None 0%nat None [] ∅ None 1%nat 0%nat [].

(** *** Incoming frames: [ws.onmessage] *)

(** The body executed for one entry [d]: [latest.get(d.symbol) || {}], the
    spread, [latest.set(merged.symbol, merged)].  [None] is the [TypeError] of
    [d.symbol] on [null], raised before the map is touched. *)
Definition merge_entry (d : value) (m : Map value) : option (Map value) :=
  match get_prop d "symbol" with
  | None => None
  | Some sym =>
      let existing :=
        match Map_get sym m with
        | Some e => if truthy e then e else VObj []
        | None => VObj []
        end in
      let merged := spread2 existing d in
      Some (Map_set (default VUndef (obj_lookup "symbol" merged)) (VObj merged) m)
  end.

(** [for (const d of msg.data) {...}]: an exception leaves the loop, the
    entries merged before it stay. *)
Fixpoint merge_batch (ds : list value) (m : Map value) : Map value :=
  match ds with
  | [] => m
  | d :: rest =>
      match merge_entry d m with
      | Some m' => merge_batch rest m'
      | None => m
      end
  end.

(** The handler on the result of [JSON.parse(ev.data)]; [None] is a
    [SyntaxError].  Everything runs inside [try { ... } catch (e) {}]. *)
Definition onmessage_parsed (parsed : option value) (m : Map value) : Map value :=
  match parsed with
  | None => m
  | Some msg =>
      match get_prop msg "type", get_prop msg "data" with
      | Some ty, Some data =>
          if (is_str ty "summary" && truthy data)%bool then
            default m (merge_entry data m)
          else if is_str ty "batch" then
            match isArray data with
            | Some ds => merge_batch ds m
            | None => m
            end
          else m
      | _, _ => m
      end
  end.

(** [getLatest] *)
Definition getLatest (symbol : string) (h : Hook) : option value :=
  Map_get (VStr symbol) (latest h).

(** What [{...v}] takes from [v] under the name [symbol]: the last own
    property of that name. *)
Definition own_symbol (v : value) : option value :=
  obj_lookup "symbol" (rev (own_props v)).

(** The entries the handler passes to the merge: the data of a summary
    message, the elements of a batch message, none for any other frame. *)
Definition frame_entries (parsed : option value) : list value :=
  match parsed with
  | None => []
  | Some msg =>
      match get_prop msg "type", get_prop msg "data" with
      | Some ty, Some data =>
          if (is_str ty "summary" && truthy data)%bool then [data]
          else if is_str ty "batch" then default [] (isArray data)
          else []
      | _, _ => []
      end
  end.

(** Every cache entry sits under the key that its own [symbol] evaluates
    to, which is how [latest.set(merged.symbol, merged)] files it. *)
Definition keyed (m : Map value) : Prop :=
  forall k v, In (k, v) m -> default VUndef (own_symbol v) = k.

Section Env.

(** [opts.batchMs ?? 200], [process.env.NEXT_PUBLIC_API_URL], and the two
    library functions the hook calls. *)
Variable batchMs : Z.
Variable NEXT_PUBLIC_API_URL : option string.
Variable encodeURIComponent : string -> string.
Variable JSON_parse : string -> option value.

Definition onmessage (ev_data : string) (h : Hook) : Hook :=
  set_latest (onmessage_parsed (JSON_parse ev_data) (latest h)) h.

(** [process.env.NEXT_PUBLIC_API_URL || "http://localhost:8000"] *)
Definition api_base : string :=
  match NEXT_PUBLIC_API_URL with
  | Some u => if String.eqb u "" then "http://localhost:8000" else u
  | None => "http://localhost:8000"
  end.

(** *** Reconciliation: [connectWS] *)

Definition ws_url (all : list string) : string :=
  http_to_ws (strip_trailing_slash api_base)
  ++ "/market/ws/summaries?symbols=" ++ encodeURIComponent (join all).

(** [symbols.map(s => s.toUpperCase()).filter(Boolean)] followed by [sort()] *)
Definition normalize (symbols : list string) : list string :=
  sort (List.filter (fun s => negb (String.eqb s ""))
          (List.map toUpperCase symbols)).

(** [lastSentSymbols.current && normalized.length === ... && normalized.every(...)] *)
Definition sameAsLast (normalized : list string) (h : Hook) : bool :=
  match lastSentSymbols h with
  | None => false
  | Some l => bool_decide (normalized = l)
  end.

Definition open_socket (all : list string) (h : Hook) : Hook :=
  let id := next_ws h in
  set_wsRef (Some id) (set_next_ws (S id) (emit (WsNew id (ws_url all)) h)).

(** [connectWS(symbols)]; [ready] is [wsRef.current.readyState] as read during
    the call (ignored when [wsRef.current] is [null]).  [send] on an OPEN
    socket does not throw, so the recovery branch of the inner [catch] is not
    reached. *)
Definition connectWS (symbols : list string) (ready : ReadyState) (h : Hook) : Hook :=
  let extras := extraSymbolsRef h in
  let all := Set_of_list (symbols ++ extras) in
  match all with
  | [] =>
      match wsRef h with
      | Some id => set_wsRef None (emit (WsClose id) h)
      | None => h
      end
  | _ :: _ =>
      let normalized := normalize symbols in
      match wsRef h with
      | Some id =>
          match ready with
          | OPEN =>
              if sameAsLast normalized h then h
              else set_lastSentSymbols (Some normalized)
                     (emit (WsSendReplace id symbols) h)
          | CONNECTING => emit (WsOnOpenReplace id symbols) h
          | CLOSING | CLOSED =>
              open_socket all
                (set_lastSentSymbols None (set_wsRef None (emit (WsClose id) h)))
          end
      | None => open_socket all h
      end
  end.

(** [ws.onclose]: arm the reconnect timer ([jitter] is
    [Math.random() * 500]) and forget what was sent. *)
Definition onclose (jitter : Z) (h : Hook) : Hook :=
  let id := next_timer h in
  set_lastSentSymbols None
    (set_next_timer (S id) (emit (SetTimeout id (1000 + jitter)) h)).

(** The reconnect timer's callback. *)
Definition reconnect (ready : ReadyState) (h : Hook) : Hook :=
  match visibleSet h with
  | [] => h
  | s => connectWS s ready h
  end.

(** *** Debounce: [scheduleVisibleUpdate] and its timer *)

Definition scheduleVisibleUpdate (h : Hook) : Hook :=
  let h1 :=
    match pendingVisibleChange h with
    | Some t => emit (ClearTimeout t) h
    | None => h
    end in
  let id := next_timer h1 in
  set_pendingVisibleChange (Some id)
    (set_next_timer (S id) (emit (SetTimeout id batchMs) h1)).

(** The debounce timer's callback. *)
Definition visibleUpdate (ready : ReadyState) (h : Hook) : Hook :=
  connectWS (visibleSet h) ready h.

(** *** [addExtraSymbol], [removeExtraSymbol] *)

Definition addExtraSymbol (symbol : string) (h : Hook) : Hook :=
  if String.eqb symbol "" then h
  else scheduleVisibleUpdate
         (set_extraSymbolsRef (Set_add (toUpperCase symbol) (extraSymbolsRef h)) h).

Definition removeExtraSymbol (symbol : string) (h : Hook) : Hook :=
  if String.eqb symbol "" then h
  else scheduleVisibleUpdate
         (set_extraSymbolsRef (Set_delete (toUpperCase symbol) (extraSymbolsRef h)) h).

(** *** Visibility: [observe], the intersection callback, [unobserve] *)

Fixpoint node_get (n : nat) (m : list (nat * string)) : option string :=
  match m with
  | [] => None
  | (n', s) :: rest => if Nat.eqb n n' then Some s else node_get n rest
  end.

Fixpoint node_set (n : nat) (s : string) (m : list (nat * string))
  : list (nat * string) :=
  match m with
  | [] => [(n, s)]
  | (n', s') :: rest =>
      if Nat.eqb n n' then (n', s) :: rest else (n', s') :: node_set n s rest
  end.

Definition node_delete (n : nat) (m : list (nat * string)) : list (nat * string) :=
  List.filter (fun p => negb (Nat.eqb n (fst p))) m.

(** [observe(node, symbol)]; [None] is a [null] node. *)
Definition observe (node : option nat) (symbol : string) (h : Hook) : Hook :=
  match node with
  | Some n => set_nodeToSymbol (node_set n symbol (nodeToSymbol h)) h
  | None => h
  end.

(** One entry of the [IntersectionObserver] callback: target node and
    [isIntersecting]. *)
Definition intersect_entry (e : nat * bool) (h : Hook) : Hook :=
  match node_get (fst e) (nodeToSymbol h) with
  | None => h
  | Some s =>
      if String.eqb s "" then h
      else if snd e then set_visibleSet (Set_add s (visibleSet h)) h
      else set_visibleSet (Set_delete s (visibleSet h)) h
  end.

Definition onIntersect (entries : list (nat * bool)) (h : Hook) : Hook :=
  scheduleVisibleUpdate (fold_left (fun h e => intersect_entry e h) entries h).

(** [unobserve(node)]: [visibleSet.delete(undefined)] for an unknown node
    deletes nothing. *)
Definition unobserve (node : option nat) (h : Hook) : Hook :=
  match node with
  | None => h
  | Some n =>
      let s := node_get n (nodeToSymbol h) in
      let h1 := set_nodeToSymbol (node_delete n (nodeToSymbol h)) h in
      let h2 :=
        match s with
        | Some sym => set_visibleSet (Set_delete sym (visibleSet h1)) h1
        | None => h1
        end in
      scheduleVisibleUpdate h2
  end.

(** The flush interval's callback. *)
Definition flush (h : Hook) : Hook :=
  match latest h with
  | [] => h
  | _ :: _ => set_tick (S (tick h)) h
  end.

(** *** REST fallback: [fetchSnapshot] *)

(** [opts]; [force] is the truthiness of [opts?.force]. *)
Record SnapshotOpts : Type := mkOpts {
  force : bool;
  cooldownMs : option Z;
  klineInterval : option string;
  klineLimit : option Z
}.

Definition opt_force (opts : option SnapshotOpts) : bool :=
  match opts with Some o => force o | None => false end.

(** [opts?.cooldownMs ?? 5000] *)
Definition opt_cooldown (opts : option SnapshotOpts) : Z :=
  default 5000 (opts ≫= cooldownMs).

(** [lastSnapshotFetch.current.get(s.toUpperCase()) || 0] *)
Definition last_fetch (s : string) (h : Hook) : Z :=
  default 0 (lastSnapshotFetch h !! toUpperCase s).

(** The symbols that pass the cooldown test, in request order. *)
Definition toFetch (symbols : list string) (opts : option SnapshotOpts)
    (now : Z) (h : Hook) : list string :=
  List.filter
    (fun s => (opt_force opts || (now - last_fetch s h >? opt_cooldown opts))%bool)
    (Set_of_list (symbols ++ extraSymbolsRef h)).

Definition snapshot_url (fetched : list string) (opts : option SnapshotOpts)
    (h : Hook) : string :=
  let includeKlines :=
    (negb (Nat.eqb (length (extraSymbolsRef h)) 0) || opt_force opts)%bool in
  let interval := default "1m" (opts ≫= klineInterval) in
  let limit := default 48 (opts ≫= klineLimit) in
  strip_trailing_slash api_base ++ "/market/summaries?"
  ++ "symbols=" ++ encodeURIComponent (join fetched)
  ++ (if includeKlines
      then "&include_klines=true&kline_interval=" ++ encodeURIComponent interval
           ++ "&kline_limit=" ++ encodeURIComponent (pretty limit)
      else "").

(** [fetchSnapshot] up to its [await fetch(...)]: the URL requested, or
    [None] when the call returns without a request.  [symbols = None] is a
    missing argument. *)
Definition fetchSnapshot_request (symbols : option (list string))
    (opts : option SnapshotOpts) (now : Z) (h : Hook) : option string :=
  match symbols with
  | None | Some [] => None
  | Some syms =>
      match toFetch syms opts now h with
      | [] => None
      | l => Some (snapshot_url l opts h)
      end
  end.

Definition fetchSnapshot_begin (symbols : option (list string))
    (opts : option SnapshotOpts) (now : Z) (h : Hook) : Hook :=
  match fetchSnapshot_request symbols opts now h with
  | Some url => emit (Fetch url) h
  | None => h
  end.

(** The loop over [json.summaries]; [false] when an entry raised.  One clock
    reading serves the whole loop. *)
Fixpoint store_summaries (l : list value) (now : Z) (h : Hook) : Hook * bool :=
  match l with
  | [] => (h, true)
  | s :: rest =>
      match get_prop s "symbol" with
      | None => (h, false)
      | Some sym =>
          let h1 := set_latest (Map_set sym s (latest h)) h in
          match sym with
          | VStr name =>
              store_summaries rest now
                (set_lastSnapshotFetch
                   (<[toUpperCase name := now]> (lastSnapshotFetch h1)) h1)
          | _ => (h1, false)
          end
      end
  end.

(** [fetchSnapshot] after the response arrived, at clock reading [now]. *)
Definition fetchSnapshot_end (r : FetchResult) (now : Z) (h : Hook) : Hook :=
  match r with
  | Http true (Some json) =>
      match get_prop json "summaries" with
      | Some (VArr l) =>
          let (h1, completed) := store_summaries l now h in
          if completed then set_tick (S (tick h1)) h1 else h1
      | _ => h
      end
  | _ => h
  end.

End Env.

End AppHooks.

(** ** The older copy, [apps/web/hooks/useVisibleSummaries.ts] *)

Module LegacyHooks.
Import JS Ws.

(** The same refs as [AppHooks.Hook]; this copy has no [lastSentSymbols] and
    no [lastSnapshotFetch], those fields stay as they are. *)
Definition Hook : Type := AppHooks.Hook.

(** [latest.current.set(d.symbol, d)] *)
Definition store_entry (d : value) (m : Map value) : option (Map value) :=
  match get_prop d "symbol" with
  | None => None
  | Some sym => Some (Map_set sym d m)
  end.

Fixpoint store_batch (ds : list value) (m : Map value) : Map value :=
  match ds with
  | [] => m
  | d :: rest =>
      match store_entry d m with
      | Some m' => store_batch rest m'
      | None => m
      end
  end.

Definition onmessage_parsed (parsed : option value) (m : Map value) : Map value :=
  match parsed with
  | None => m
  | Some msg =>
      match get_prop msg "type", get_prop msg "data" with
      | Some ty, Some data =>
          if (is_str ty "summary" && truthy data)%bool then
            default m (store_entry data m)
          else if is_str ty "batch" then
            match isArray data with
            | Some ds => store_batch ds m
            | None => m
            end
          else m
      | _, _ => m
      end
  end.

Definition getLatest (symbol : string) (h : Hook) : option value :=
  Map_get (VStr symbol) (AppHooks.latest h).

Section Env.

Variable NEXT_PUBLIC_API_URL : option string.
Variable encodeURIComponent : string -> string.

(** [connectWS(symbols)]: always drops the current socket first. *)
Definition connectWS (symbols : list string) (h : Hook) : Hook :=
  let h1 :=
    match AppHooks.wsRef h with
    | Some id => AppHooks.set_wsRef None (AppHooks.emit (WsClose id) h)
    | None => h
    end in
  match Set_of_list (symbols ++ AppHooks.extraSymbolsRef h1) with
  | [] => h1
  | all =>
      AppHooks.open_socket NEXT_PUBLIC_API_URL encodeURIComponent all h1
  end.

(** [fetchSnapshot(symbols)] up to its [await]: no cooldown, no extras. *)
Definition fetchSnapshot_request (symbols : option (list string)) : option string :=
  match symbols with
  | None | Some [] => None
  | Some syms =>
      Some (strip_trailing_slash (AppHooks.api_base NEXT_PUBLIC_API_URL)
            ++ "/market/summaries?symbols=" ++ encodeURIComponent (join syms))
  end.

End Env.

End LegacyHooks.

(** ** The web auth session: [packages/api/src/axios.ts] and
    [apps/web/app/providers/AuthProvider.tsx] *)

Module Browser.
Import JS.

(** The three [localStorage] keys the refresh logic shares.  [cryptics_auth]
    holds the value that [JSON.parse] returns for the stored text: the code
    only ever stores [JSON.stringify] of an object under that key.  Storage
    calls themselves do not throw.  (The [auth_api_debug_events] key of the
    development helpers is read by nothing else and is left out.) *)
Record LocalStorage : Type := mkLS {
  refresh_in_progress : option string;
  cryptics_auth : option value;
  access_token : option string
}.

(** An axios request config: [_retry] is [undefined] (here [false]) until the
    response interceptor marks it. *)
Record Config : Type := mkConfig {
  url : string;
  _retry : bool;
  headers : list (string * string)
}.

(** The [error] an axios response rejects with: [error.config] and
    [error.response.status], either of which can be missing. *)
Record AxiosError : Type := mkError {
  config : option Config;
  status : option Z
}.

Inductive Broadcast : Type :=
| BcTokens (tokens : value)
| BcLogout.

Inductive Reason : Type := OriginalError | CaughtError.

(** What the tab does to the outside world, oldest first. *)
Inductive Effect : Type :=
| PostRefresh
| ApiRequest (c : Config)
| Reject (c : option Config) (why : Reason)
| Post (m : Broadcast)
| Navigate (href : string)
| PostLogout
| GetUserMe.

(** One call of [doRefresh()]: where it is suspended, or how it settled. *)
Inductive Task : Type :=
| Polling (start : Z)
| Fetching
| Fulfilled (res : value)
| Failed.

(** Module state of [axios.ts], React state of [AuthProvider], the storage
    they share, the [doRefresh] promises created so far (a promise is its
    index in [tasks]) and the handlers suspended at [await refreshPromise]. *)
Record Tab : Type := mkTab {
  isRefreshing : bool;
  refreshPromise : option nat;
  tasks : list Task;
  waiting : list (nat * Config);
  ls : LocalStorage;
  authData : option value;
  timer : option Z;
  out : list Effect
}.

Definition set_isRefreshing (x : bool) (t : Tab) : Tab :=
  mkTab x (refreshPromise t) (tasks t) (waiting t) (ls t) (authData t) (timer t) (out t).

Definition set_refreshPromise (x : option nat) (t : Tab) : Tab :=
  mkTab (isRefreshing t) x (tasks t) (waiting t) (ls t) (authData t) (timer t) (out t).

Definition set_tasks (x : list Task) (t : Tab) : Tab :=
  mkTab (isRefreshing t) (refreshPromise t) x (waiting t) (ls t) (authData t) (timer t) (out t).

Definition set_waiting (x : list (nat * Config)) (t : Tab) : Tab :=
  mkTab (isRefreshing t) (refreshPromise t) (tasks t) x (ls t) (authData t) (timer t) (out t).

Definition set_ls (x : LocalStorage) (t : Tab) : Tab :=
  mkTab (isRefreshing t) (refreshPromise t) (tasks t) (waiting t) x (authData t) (timer t) (out t).

Definition set_authData (x : option value) (t : Tab) : Tab :=
  mkTab (isRefreshing t) (refreshPromise t) (tasks t) (waiting t) (ls t) x (timer t) (out t).

Definition set_timer (x : option Z) (t : Tab) : Tab :=
  mkTab (isRefreshing t) (refreshPromise t) (tasks t) (waiting t) (ls t) (authData t) x (out t).

Definition emit (e : Effect) (t : Tab) : Tab :=
  mkTab (isRefreshing t) (refreshPromise t) (tasks t) (waiting t) (ls t)
    (authData t) (timer t) (out t ++ [e]).

Definition set_flag (x : option string) (s : LocalStorage) : LocalStorage :=
  mkLS x (cryptics_auth s) (access_token s).

Definition set_cryptics_auth (x : option value) (s : LocalStorage) : LocalStorage :=
  mkLS (refresh_in_progress s) x (access_token s).

Definition set_access_token (x : option string) (s : LocalStorage) : LocalStorage :=
  mkLS (refresh_in_progress s) (cryptics_auth s) x.

(** A freshly loaded page: module state of [axios.ts] at its initial values,
    whatever [localStorage] holds. *)
Definition fresh (s : LocalStorage) : Tab :=
  mkTab false None [] [] s None None [].

(** [JSON.parse(JSON.stringify(v))]: properties holding [undefined] are
    dropped, [undefined] array slots become [null]. *)
Fixpoint json_clean (v : value) : value :=
  match v with
  | VArr l =>
      VArr (List.map (fun x => match x with
                               | VUndef => VNull
                               | _ => json_clean x
                               end) l)
  | VObj fields =>
      VObj ((fix go (l : list (string * value)) : list (string * value) :=
               match l with
               | [] => []
               | (k, VUndef) :: rest => go rest
               | (k, x) :: rest => (k, json_clean x) :: go rest
               end) fields)
  | _ => v
  end.

(** [{ ...(headers || {}), [k]: v }] *)
Fixpoint hdr_set (k v : string) (h : list (string * string)) : list (string * string) :=
  match h with
  | [] => [(k, v)]
  | (k', v') :: rest =>
      if String.eqb k k' then (k, v) :: rest else (k', v') :: hdr_set k v rest
  end.

Fixpoint hdr_get (k : string) (h : list (string * string)) : option string :=
  match h with
  | [] => None
  | (k', v) :: rest => if String.eqb k k' then Some v else hdr_get k rest
  end.

Definition mark_retry (c : Config) : Config :=
  mkConfig (url c) true (headers c).

Definition with_header (k v : string) (c : Config) : Config :=
  mkConfig (url c) (_retry c) (hdr_set k v (headers c)).

(** Number of [POST /auth/refresh] calls issued so far. *)
Definition posts (t : Tab) : nat :=
  length (List.filter (fun e => match e with PostRefresh => true | _ => false end) (out t)).

(** [window.setTimeout(f, d)] takes its delay as a signed 32-bit integer:
    [d] is reduced modulo 2^32 into the range from -2^31 up to 2^31 - 1, and
    a negative result counts as 0.  [setTimeout_delay d] is the delay after
    which the timer fires. *)
Definition ToInt32 (d : Z) : Z :=
  let w := d mod 4294967296 in
  if w <? 2147483648 then w else w - 4294967296.

Definition setTimeout_delay (d : Z) : Z := Z.max 0 (ToInt32 d).

End Browser.

Module Axios.
Import JS Browser.

Section Env.

(** Whether [window.BroadcastChannel] exists.  The code runs in a browser:
    [typeof window !== "undefined"] holds throughout. *)
Variable hasBroadcastChannel : bool.

(** [api.interceptors.request.use]: attach the stored access token. *)
Definition request_interceptor (c : Config) (s : LocalStorage) : Config :=
  match access_token s with
  | Some tok =>
      if String.eqb tok "" then c
      else with_header "Authorization" ("Bearer " ++ tok) c
  | None => c
  end.

(** [api(original)]: the log keeps the config as the handler passed it;
    [request_interceptor] then runs on it before it is sent. *)
Definition api (c : Config) (t : Tab) : Tab :=
  emit (ApiRequest c) t.

Definition broadcast (m : Broadcast) (t : Tab) : Tab :=
  if hasBroadcastChannel then emit (Post m) t else t.

(** The handler's [catch (e)] block: clear storage, broadcast logout, go to
    the login page, reject. *)
Definition resume_fail (original : Config) (t : Tab) : Tab :=
  let t1 := set_ls (set_access_token None (set_cryptics_auth None (ls t))) t in
  emit (Reject (Some original) CaughtError)
    (emit (Navigate "/login") (broadcast BcLogout t1)).

(** The inner [try] that persists the tokens; any exception in it is
    swallowed before storage is written. *)
Definition persist (res : value) (t : Tab) : Tab :=
  let user :=
    match cryptics_auth (ls t) with
    | Some parsed => get_prop parsed "user"
    | None => Some VNull
    end in
  match user, get_prop res "access_token" with
  | Some u, Some tok =>
      let newAuth := VObj [("access_token", tok); ("user", u)] in
      broadcast (BcTokens newAuth)
        (set_ls (set_access_token (Some (js_String tok))
                   (set_cryptics_auth (Some (json_clean newAuth)) (ls t))) t)
  | _, _ => t
  end.

(** The handler after [await refreshPromise] delivered [res]. *)
Definition resume_ok (res : value) (original : Config) (t : Tab) : Tab :=
  let t1 := persist res (set_refreshPromise None (set_isRefreshing false t)) in
  match get_prop res "access_token" with
  | None => resume_fail original t1
  | Some tok =>
      api (with_header "Authorization" ("Bearer " ++ js_String tok) original) t1
  end.

Definition resume (outcome : Task) (original : Config) (t : Tab) : Tab :=
  match outcome with
  | Fulfilled res => resume_ok res original t
  | Failed => resume_fail original t
  | Polling _ | Fetching => t
  end.

(** Promise [p] settles: every handler awaiting it continues, in the order
    in which they started to wait. *)
Definition settle (p : nat) (outcome : Task) (t : Tab) : Tab :=
  let t1 := set_tasks (<[p := outcome]> (tasks t)) t in
  let woken := List.filter (fun w => Nat.eqb (fst w) p) (waiting t1) in
  let rest := List.filter (fun w => negb (Nat.eqb (fst w) p)) (waiting t1) in
  fold_left (fun t w => resume outcome (snd w) t) woken (set_waiting rest t1).

(** [doRefresh()] up to its first [await]: the flag is set and the wait loop
    is entered (the flag reads ['1'] and no time has passed). *)
Definition doRefresh (now : Z) (t : Tab) : nat * Tab :=
  (length (tasks t),
   set_tasks (tasks t ++ [Polling now])
     (set_ls (set_flag (Some "1") (ls t)) t)).

(** [!localStorage.getItem('refresh_in_progress')] *)
Definition flag_clear (s : LocalStorage) : bool :=
  match refresh_in_progress s with
  | None => true
  | Some f => String.eqb f ""
  end.

(** The access token [doRefresh] takes over from storage once the flag was
    cleared by somebody else. *)
Definition reusable (s : LocalStorage) : option value :=
  if flag_clear s then
    match cryptics_auth s with
    | Some parsed =>
        match get_prop parsed "access_token" with
        | Some tok => if (truthy parsed && truthy tok)%bool then Some tok else None
        | None => None
        end
    | None => None
    end
  else None.

(** [doRefresh] when one 100 ms sleep of its wait loop ends at clock reading
    [now]: keep waiting, take the stored token, or send the request. *)
Definition wake (p : nat) (now : Z) (t : Tab) : Tab :=
  match tasks t !! p with
  | Some (Polling start) =>
      if (bool_decide (refresh_in_progress (ls t) = Some "1")
          && (now - start <? 5000))%bool
      then t
      else
        match reusable (ls t) with
        | Some tok =>
            settle p (Fulfilled (VObj [("access_token", tok)]))
              (set_ls (set_flag None (ls t)) t)
        | None => emit PostRefresh (set_tasks (<[p := Fetching]> (tasks t)) t)
        end
  | _ => t
  end.

(** [doRefresh] when its [fetch] settles.  A network error rejects before
    any of the [removeItem] calls. *)
Definition response (p : nat) (r : Ws.FetchResult) (t : Tab) : Tab :=
  match tasks t !! p with
  | Some Fetching =>
      match r with
      | Ws.NetworkError => settle p Failed t
      | Ws.Http true (Some json) =>
          settle p (Fulfilled json) (set_ls (set_flag None (ls t)) t)
      | Ws.Http _ _ => settle p Failed (set_ls (set_flag None (ls t)) t)
      end
  | _ => t
  end.

(** [await refreshPromise] *)
Definition await (original : Config) (t : Tab) : Tab :=
  match refreshPromise t with
  | None => resume_ok VNull original t
  | Some p =>
      match tasks t !! p with
      | Some (Fulfilled res) => resume_ok res original t
      | Some Failed => resume_fail original t
      | _ => set_waiting (waiting t ++ [(p, original)]) t
      end
  end.

(** [api.interceptors.response.use]'s error handler, up to its [await]. *)
Definition on_error (e : AxiosError) (now : Z) (t : Tab) : Tab :=
  match config e with
  | None => emit (Reject None OriginalError) t
  | Some original =>
      if _retry original then emit (Reject (Some original) OriginalError) t
      else if bool_decide (status e = Some 401) then
        let t1 :=
          if isRefreshing t then t
          else
            let (p, t') := doRefresh now (set_isRefreshing true t) in
            set_refreshPromise (Some p) t' in
        await (mark_retry original) t1
      else emit (Reject (Some original) OriginalError) t
  end.

End Env.

End Axios.

Module AuthProvider.
Import JS Browser.

(** [token.split('.')] *)
Fixpoint split_dot (acc s : string) : list string :=
  match s with
  | EmptyString => [acc]
  | String c rest =>
      if Ascii.eqb c "." then acc :: split_dot "" rest
      else split_dot (acc ++ String c EmptyString) rest
  end.

(** [.replace(/-/g, '+').replace(/_/g, '/')] *)
Fixpoint b64url_to_b64 (s : string) : string :=
  match s with
  | EmptyString => EmptyString
  | String c rest =>
      String (if Ascii.eqb c "-" then "+"%char
              else if Ascii.eqb c "_" then "/"%char else c)
        (b64url_to_b64 rest)
  end.

Section Env.

Variable hasBroadcastChannel : bool.

(** [JSON.parse(atob(s))]; [None] when either throws. *)
Variable atob_parse : string -> option value.

(** [Number(s)] for a string; [None] is [NaN]. *)
Variable str_to_num : string -> option Z.

(** The numeric coercion of [payload.exp * 1000]; [None] is [NaN]. *)
Definition ToNumber (v : value) : option Z :=
  match v with
  | VUndef => None
  | VNull => Some 0
  | VBool b => Some (if b then 1 else 0)
  | VNum n => Some n
  | VStr s => str_to_num s
  | VArr _ => str_to_num (js_String v)
  | VObj _ => None
  end.

(** [getExpiryFromToken(token)], in milliseconds.  [None] stands for both
    [null] and [NaN]: the callers only test the result for truthiness.  A
    truthy token that is not a string has no [split]; the [TypeError] is
    caught. *)
Definition getExpiryFromToken (token : value) : option Z :=
  if negb (truthy token) then None
  else
    match token with
    | VStr s =>
        match split_dot "" s with
        | _ :: part :: _ =>
            match atob_parse (b64url_to_b64 part) with
            | Some payload =>
                match get_prop payload "exp" with
                | Some exp =>
                    if (truthy payload && truthy exp)%bool
                    then option_map (fun n => n * 1000) (ToNumber exp)
                    else None
                | None => None
                end
            | None => None
            end
        | _ => None
        end
    | _ => None
    end.

(** [authData?.access_token || localStorage.getItem('access_token') || undefined] *)
Definition current_access (t : Tab) : value :=
  let from_state :=
    match authData t with
    | Some a => default VUndef (get_prop a "access_token")
    | None => VUndef
    end in
  if truthy from_state then from_state
  else
    match access_token (ls t) with
    | Some s => if String.eqb s "" then VUndef else VStr s
    | None => VUndef
    end.

(** The delay [scheduleNext] passes to [window.setTimeout]. *)
Definition next_delay (expMs : option Z) (now : Z) : Z :=
  match expMs with
  | Some e =>
      if e =? 0 then 10 * 60 * 1000
      else
        let refreshAt := Z.max 0 (e - now - 25 * 1000) in
        if refreshAt <=? 0 then 50 else refreshAt
  | None => 10 * 60 * 1000
  end.

(** [scheduleNext()]: drop the armed timer, arm the next one. *)
Definition scheduleNext (now : Z) (t : Tab) : Tab :=
  set_timer (Some (next_delay (getExpiryFromToken (current_access t)) now)) t.

(** The body of the second [useEffect]: when [BroadcastChannel] exists the
    effect subscribes to it and returns its cleanup there; otherwise, once
    [initialized], it starts the refresh schedule.  The cleanup of the
    previous run has cleared the old timer. *)
Definition refreshEffect (initialized : bool) (now : Z) (t : Tab) : Tab :=
  let t0 := set_timer None t in
  if hasBroadcastChannel then t0
  else if negb initialized then t0
  else scheduleNext now t0.

(** [setAuthData(data)] *)
Definition setAuthData (tok user : value) (t : Tab) : Tab :=
  let stored := VObj [("access_token", tok);
                      ("user", if truthy user then user else VNull)] in
  set_authData (Some (VObj [("access_token", tok); ("user", user)]))
    (set_ls (set_access_token (Some (js_String tok))
               (set_cryptics_auth (Some (json_clean stored)) (ls t))) t).

Definition broadcast (m : Broadcast) (t : Tab) : Tab :=
  if hasBroadcastChannel then emit (Post m) t else t.

(** [logout()] up to [await apiLogout()], and after it. *)
Definition logout_begin (t : Tab) : Tab := emit PostLogout t.

Definition logout_end (t : Tab) : Tab :=
  emit (Navigate "/login")
    (set_authData None
       (broadcast BcLogout
          (set_ls (set_access_token None (set_cryptics_auth None (ls t))) t))).

(** The stretch shared by the mount-time refresh and
    [doRefreshAndReschedule]: raise the flag, send [POST /auth/refresh].
    Neither reads the flag or [isRefreshing] first. *)
Definition provider_post (t : Tab) : Tab :=
  emit PostRefresh (set_ls (set_flag (Some "1") (ls t)) t).

(** [doRefreshAndReschedule] after its [fetch] settled, up to the next
    [await] ([api.get("/user/me")], or [apiLogout()] inside [logout()]). *)
Definition doRefreshAndReschedule_response (r : Ws.FetchResult) (t : Tab) : Tab :=
  match r with
  | Ws.Http true (Some res) =>
      let t1 := set_ls (set_flag None (ls t)) t in
      match get_prop res "access_token" with
      | Some tok =>
          emit GetUserMe
            (set_ls (set_access_token (Some (js_String tok)) (ls t1)) t1)
      | None => logout_begin t1
      end
  | _ => logout_begin t
  end.

(** The first [useEffect] up to its first [await], at clock reading [now].
    [None]: [parsed.access_token] raised on a stored [null]. *)
Definition mount_effect (now : Z) (t : Tab) : option Tab :=
  match cryptics_auth (ls t) with
  | None => Some t
  | Some parsed =>
      match get_prop parsed "access_token" with
      | None => None
      | Some tok =>
          let t1 :=
            set_ls (set_access_token (Some (js_String tok)) (ls t))
              (set_authData (Some (VObj [("access_token", tok); ("user", VNull)])) t) in
          match getExpiryFromToken tok with
          | Some e =>
              if ((e =? 0) || (e - now <? 30 * 1000))%bool
              then Some (provider_post t1)
              else Some (emit GetUserMe t1)
          | None => Some (provider_post t1)
          end
      end
  end.

(** The [BroadcastChannel] listener. *)
Definition bc_onmessage (m : Broadcast) (t : Tab) : Tab :=
  match m with
  | BcTokens tokens =>
      match get_prop tokens "access_token" with
      | Some tok =>
          set_authData (Some tokens)
            (set_ls (set_access_token (Some (js_String tok))
                       (set_cryptics_auth (Some (json_clean tokens)) (ls t))) t)
      | None => set_ls (set_cryptics_auth (Some (json_clean tokens)) (ls t)) t
      end
  | BcLogout =>
      emit (Navigate "/login")
        (set_authData None
           (set_ls (set_access_token None (set_cryptics_auth None (ls t))) t))
  end.

End Env.

End AuthProvider.

(** ** The mobile auth session: [apps/mobile/src/api/mobileApi.ts] and
    [apps/mobile/src/context/AuthContext.tsx] *)

Module MobileAuth.
Import JS.

(** What [mobileApi.refresh()] throws: the [Error] of a missing refresh
    token, whatever [postJSON] threw (a network error, or the status and body
    of an answer that is not ok), or the [TypeError] of reading a property of
    an empty answer. *)
Inductive Thrown : Type :=
| NoRefreshToken
| PostFailed (msg : string)
| TypeError.

(** React state and refs of the provider, and the two keys [mobileApi] keeps
    in the platform store, [auth_access_token] and [auth_refresh_token]
    ([None] is an absent key).  The store is taken to perform each call:
    [storageSet], [storageGet] and [storageDelete] swallow every error, so
    none of them throws.  [lastRefreshError] holds the error whose text
    [setLastRefreshError] stores. *)
Record Session : Type := mkSession {
  user : option value;
  refreshTimer : bool;
  consecutiveFailures : nat;
  stored_access : option string;
  stored_refresh : option string;
  lastRefreshAt : option string;
  lastRefreshError : option Thrown
}.

Definition set_tokens (a r : option string) (s : Session) : Session :=
  mkSession (user s) (refreshTimer s) (consecutiveFailures s) a r
    (lastRefreshAt s) (lastRefreshError s).

(** [clearTokens()]: two [storageDelete] calls. *)
Definition clearTokens (s : Session) : Session := set_tokens None None s.

(** [saveTokens(tokens)]: each token is stored when it is truthy.  The store
    keeps strings, which is what the tokens are declared to be. *)
Definition saveTokens (accessToken refreshToken : value) (s : Session) : Session :=
  set_tokens
    (if truthy accessToken then Some (js_String accessToken) else stored_access s)
    (if truthy refreshToken then Some (js_String refreshToken) else stored_refresh s)
    s.

(** The truthiness of a stored token: [null] and the empty string are
    falsy. *)
Definition has_token (t : option string) : bool :=
  match t with
  | Some x => negb (x =? "")%string
  | None => false
  end.

(** How [postJSON] ended: it threw, or it returned the parsed body
    ([VUndef] for an empty or unparseable one). *)
Inductive PostOutcome : Type :=
| PostThrows (msg : string)
| PostJson (json : value).

(** [refresh()]: the session after the call and what it threw, if it did.
    [reply] is the outcome of the [POST /auth/refresh_mobile], which is sent
    only when a refresh token is stored. *)
Definition refresh (reply : PostOutcome) (s : Session) : Session * option Thrown :=
  if has_token (stored_refresh s)
  then match reply with
       | PostThrows msg => (s, Some (PostFailed msg))
       | PostJson json =>
           match get_prop json "access_token", get_prop json "accessToken",
                 get_prop json "refresh_token" with
           | Some a, Some a', Some r =>
               (saveTokens (if truthy a then a else a') r s, None)
           | _, _, _ => (s, Some TypeError)
           end
       end
  else (s, Some NoRefreshToken).

(** What [fetch] gave: a rejection, or a response with its status and the
    result of [res.json()] ([None] when that rejects). *)
Inductive Response : Type :=
| FetchThrows
| Res (status : Z) (json : option value).

Definition ok (status : Z) : bool := (200 <=? status) && (status <=? 299).

(** [fetchWithAuth(input)]: the session after the call and the response it
    returned, [None] when it threw.  [first] answers the request, [inner] is
    the reply to the refresh made after a 401 and [second] answers the
    retry. *)
Definition fetchWithAuth (first : Response) (inner : PostOutcome)
    (second : Response) (s : Session) : Session * option Response :=
  match first with
  | FetchThrows => (s, None)
  | Res status _ =>
      if status =? 401
      then match refresh inner s with
           | (s1, Some _) => (clearTokens s1, None)
           | (s1, None) =>
               match second with
               | FetchThrows => (s1, None)
               | Res _ _ => (s1, Some second)
               end
           end
      else (s, Some first)
  end.

(** [setUser(u)]; a [null] body gives the signed-out user. *)
Definition setUser (u : option value) (s : Session) : Session :=
  mkSession
    (match u with Some VNull => None | _ => u end)
    (refreshTimer s) (consecutiveFailures s) (stored_access s)
    (stored_refresh s) (lastRefreshAt s) (lastRefreshError s).

Definition stopAutoRefresh (s : Session) : Session :=
  mkSession (user s) false 0%nat (stored_access s) (stored_refresh s)
    (lastRefreshAt s) (lastRefreshError s).

(** [startAutoRefresh()]: the timer is armed when [hasRefreshToken()] finds
    a refresh token. *)
Definition startAutoRefresh (s : Session) : Session :=
  let s1 := stopAutoRefresh s in
  if has_token (stored_refresh s1)
  then mkSession (user s1) true (consecutiveFailures s1) (stored_access s1)
         (stored_refresh s1) (lastRefreshAt s1) (lastRefreshError s1)
  else s1.

(** [refreshUser()]: the profile request through [fetchWithAuth]; never
    throws. *)
Definition refreshUser (first : Response) (inner : PostOutcome)
    (second : Response) (s : Session) : Session :=
  match fetchWithAuth first inner second s with
  | (s1, Some (Res status (Some json))) =>
      if ok status then setUser (Some json) s1 else setUser None s1
  | (s1, _) => setUser None s1
  end.

(** What one run of the interval callback meets: the reply to its refresh,
    the answer to the profile request, the reply to the refresh
    [fetchWithAuth] makes after a 401, the answer to the retried profile
    request, and [new Date().toISOString()]. *)
Record TickIn : Type := mkTickIn {
  reply : PostOutcome;
  profile : Response;
  inner : PostOutcome;
  retry : Response;
  stamp : string
}.

(** One run of the interval callback, taken as a whole. *)
Definition tick (x : TickIn) (s : Session) : Session :=
  match refresh (reply x) s with
  | (s1, None) =>
      let s2 := refreshUser (profile x) (inner x) (retry x) s1 in
      mkSession (user s2) (refreshTimer s2) 0%nat (stored_access s2)
        (stored_refresh s2) (Some (stamp x)) None
  | (s1, Some e) =>
      let n := S (consecutiveFailures s1) in
      let s2 := mkSession (user s1) (refreshTimer s1) n (stored_access s1)
                  (stored_refresh s1) (lastRefreshAt s1) (Some e) in
      if (3 <=? n)%nat
      then stopAutoRefresh (setUser None (clearTokens s2))
      else s2
  end.

(** [logout()] of the provider: [mobileApi.logout()] posts and clears the
    tokens, and the [finally] block signs out, clears again and stops the
    timer. *)
Definition logout (s : Session) : Session :=
  stopAutoRefresh (clearTokens (setUser None (clearTokens s))).

(** A run of ticks while the timer is armed, each one finished before the
    next: a tick that finds the timer stopped does not happen. *)
Fixpoint ticks (l : list TickIn) (s : Session) : Session :=
  match l with
  | [] => s
  | x :: rest => if refreshTimer s then ticks rest (tick x s) else s
  end.

(** A reply that makes [refresh()] throw whatever is stored. *)
Definition reply_fails (r : PostOutcome) : Prop :=
  match r with
  | PostThrows _ => True
  | PostJson json => get_prop json "access_token" = None
  end.

(** A tick whose refresh call throws whatever the session. *)
Definition failed (x : TickIn) : Prop := reply_fails (reply x).

(** A tick whose refresh call throws in session [s]: no refresh token is
    stored, or the reply makes the call throw. *)
Definition fails_in (s : Session) (x : TickIn) : Prop :=
  snd (refresh (reply x) s) <> None.

(** A session signed in with both tokens stored and the timer armed, and
    the inputs of three kinds of tick. *)
Definition signed_in_session : Session :=
  mkSession (Some (VObj [("id", VNum 7)])) true 0%nat (Some "a1") (Some "r1")
    None None.

Definition rotated_reply : PostOutcome :=
  PostJson (VObj [("access_token", VStr "a2"); ("refresh_token", VStr "r2")]).

Definition timeout_tick : TickIn :=
  mkTickIn (PostThrows "timeout") FetchThrows (PostThrows "timeout") FetchThrows "".

Definition good_tick : TickIn :=
  mkTickIn rotated_reply (Res 200 (Some (VObj [("id", VNum 7)])))
    (PostThrows "unused") FetchThrows "2026-01-01T00:00:00.000Z".

Definition rejected_profile_tick : TickIn :=
  mkTickIn rotated_reply (Res 401 None) (PostThrows "revoked") FetchThrows
    "2026-01-01T00:00:00.000Z".

End MobileAuth.

(** ** The tab's event loop *)

Module EventLoop.
Import JS Browser.

(** What can happen next in a tab: a request fails and reaches the response
    interceptor; a sleep of [doRefresh]'s wait loop ends; the [fetch] of a
    [doRefresh] settles; [AuthProvider] sends a refresh of its own. *)
Inductive Event : Type :=
| ResponseError (e : AxiosError) (now : Z)
| Wake (p : nat) (now : Z)
| RefreshResponse (p : nat) (r : Ws.FetchResult)
| ProviderPost.

Definition step (hasBroadcastChannel : bool) (t : Tab) (ev : Event) : Tab :=
  match ev with
  | ResponseError e now => Axios.on_error hasBroadcastChannel e now t
  | Wake p now => Axios.wake hasBroadcastChannel p now t
  | RefreshResponse p r => Axios.response hasBroadcastChannel p r t
  | ProviderPost => AuthProvider.provider_post t
  end.

Definition run (hasBroadcastChannel : bool) (evs : list Event) (t : Tab) : Tab :=
  fold_left (step hasBroadcastChannel) evs t.

(** Whether the promise in [refreshPromise] is still unsettled. *)
Definition refresh_pending (t : Tab) : bool :=
  match refreshPromise t with
  | Some p =>
      match tasks t !! p with
      | Some (Polling _) | Some Fetching => true
      | _ => false
      end
  | None => false
  end.

(** The events of [doRefresh] itself. *)
Definition internal (ev : Event) : bool :=
  match ev with
  | Wake _ _ | RefreshResponse _ _ => true
  | ResponseError _ _ | ProviderPost => false
  end.

(** A 401 on a request that has not been retried. *)
Definition unauthorized (c : Config) : AxiosError :=
  mkError (Some c) (Some 401).


(** The requests whose handler rejected. *)
Definition rejected (t : Tab) : list string :=
  omap (fun e => match e with
                 | Reject (Some c) _ => Some (url c)
                 | _ => None
                 end) (out t).

(** The configs handed to [api(...)] so far. *)
Definition requests (t : Tab) : list Config :=
  omap (fun e => match e with ApiRequest c => Some c | _ => None end) (out t).

(** The requests retried so far, with the [Authorization] header the
    handler gave each. *)
Definition retried (t : Tab) : list (string * option string) :=
  List.map (fun c => (url c, hdr_get "Authorization" (headers c))) (requests t).

Definition is_broadcast (e : Effect) : bool :=
  match e with Post _ => true | _ => false end.

(** The tab while the first [doRefresh] of a fresh page is unsettled: the
    handlers of the requests [cs] wait for promise 0, which is in state [st];
    the request has gone out once [st] is [Fetching]. *)
Definition pending (s : LocalStorage) (st : Task) (cs : list Config) : Tab :=
  mkTab true (Some 0%nat) [st] (List.map (pair 0%nat) cs)
    (set_flag (Some "1") s) None None
    (match st with Fetching => [PostRefresh] | _ => [] end).

Definition unsettled (st : Task) : Prop :=
  match st with Polling _ | Fetching => True | _ => False end.

(** The tab once the request of that [doRefresh] was answered by [r]. *)
Definition finished (hasBroadcastChannel : bool) (s : LocalStorage)
    (cs : list Config) (r : Ws.FetchResult) : Tab :=
  Axios.response hasBroadcastChannel 0%nat r (pending s Fetching cs).

(** [k] sleeps of 100 ms each, starting at clock reading [start]. *)
Definition polls (p : nat) (start : Z) (k : nat) : list Event :=
  List.map (fun i => Wake p (start + 100 * Z.of_nat i)) (seq 1 k).

End EventLoop.

(** ** Concrete environments used in the examples *)

Module Sample.
Import JS.

(** [encodeURIComponent] on strings of unreserved characters, which it
    leaves as they are. *)
Definition encode_unreserved (s : string) : string := s.

(** A [JSON.parse] that knows three frames. *)
Definition parse (s : string) : option value :=
  if String.eqb s "null" then Some VNull
  else if String.eqb s "42" then Some (VNum 42)
  else if String.eqb s "[]" then Some (VArr [])
  else None.

(** A payload decoder that knows one token body: [exp] is 1 700 000 000 s. *)
Definition atob_parse (s : string) : option value :=
  if String.eqb s "payload+1" then Some (VObj [("exp", VNum 1700000000)])
  else if String.eqb s "noexp" then Some (VObj [("sub", VStr "u1")])
  else None.

Definition str_to_num (s : string) : option Z := None.

(** Parsed frames and summaries. *)
Definition btc_full : value :=
  VObj [("symbol", VStr "BTCUSDT"); ("last_price", VNum 100); ("volume", VNum 5)].

Definition btc_price : value :=
  VObj [("symbol", VStr "BTCUSDT"); ("last_price", VNum 101)].

Definition summary_frame (d : value) : option value :=
  Some (VObj [("type", VStr "summary"); ("data", d)]).

Definition batch_frame (ds : list value) : option value :=
  Some (VObj [("type", VStr "batch"); ("data", VArr ds)]).

(** A [JSON.parse] for a frame whose text parses to [frame]. *)
Definition parse_to (frame : option value) (text : string) : option value := frame.

(** A 200 response of [GET /market/summaries] listing the given entries. *)
Definition summaries_response (entries : list value) : Ws.FetchResult :=
  Ws.Http true (Some (VObj [("summaries", VArr entries)])).

(** One card showing BTCUSDT became visible, the debounce timer fired and
    opened socket 0, a later reconciliation on the OPEN socket sent the
    visible list. *)
Definition subscribed : AppHooks.Hook :=
  AppHooks.visibleUpdate None encode_unreserved Ws.OPEN
    (AppHooks.visibleUpdate None encode_unreserved Ws.CLOSED
       (AppHooks.onIntersect 200 [(1%nat, true)]
          (AppHooks.observe (Some 1%nat) "BTCUSDT" AppHooks.mount))).

(** ... then a detail panel pinned ETHUSDT. *)
Definition pinned : AppHooks.Hook :=
  AppHooks.addExtraSymbol 200 "ETHUSDT" subscribed.

(** ... then a second card, SOLUSDT, scrolled into view. *)
Definition scrolled : AppHooks.Hook :=
  AppHooks.onIntersect 200 [(2%nat, true)]
    (AppHooks.observe (Some 2%nat) "SOLUSDT" pinned).

(** Storage of a signed-in tab, two API requests, and a refresh response. *)
Definition signed_in : Browser.LocalStorage :=
  Browser.mkLS None
    (Some (VObj [("access_token", VStr "old"); ("user", VObj [("id", VNum 7)])]))
    (Some "old").

(** Storage whose session entry is the text [null]: reading [.user] of what
    it parses to throws. *)
Definition unreadable_session : Browser.LocalStorage :=
  Browser.mkLS None (Some VNull) (Some "old").

Definition get_summaries : Browser.Config :=
  Browser.mkConfig "/market/summaries" false [("Authorization", "Bearer old")].

Definition get_watchlist : Browser.Config :=
  Browser.mkConfig "/watchlist" false [("Authorization", "Bearer old")].

Definition rotated : Ws.FetchResult :=
  Ws.Http true (Some (VObj [("access_token", VStr "new")])).

(** A clock reading, in milliseconds since the epoch. *)
Definition T0 : Z := 1700000000000.

End Sample.

(** * Properties *)

Module HookProps.
Import JS Ws.
Import Sample(btc_full, btc_price, summary_frame, batch_frame, summaries_response).

(** C3, on [apps/web/hooks/useVisibleSummaries.ts]: after the summary
    [{symbol:"BTCUSDT", last_price:100, volume:5}] and then
    [{symbol:"BTCUSDT", last_price:101}], this copy of the handler holds
    [{symbol:"BTCUSDT", last_price:101}] for BTCUSDT: the update replaced the
    entry and [volume] is gone.  The same holds for the two updates sent as
    one-element batches. *)
Theorem legacy_onmessage_replaces :
  Map_get (VStr "BTCUSDT")
    (LegacyHooks.onmessage_parsed (summary_frame btc_price)
       (LegacyHooks.onmessage_parsed (summary_frame btc_full) []))
  = Some btc_price
  /\ Map_get (VStr "BTCUSDT")
       (LegacyHooks.onmessage_parsed (batch_frame [btc_price])
          (LegacyHooks.onmessage_parsed (batch_frame [btc_full]) []))
     = Some btc_price
  /\ get_prop btc_price "volume" = Some VUndef.
Proof. repeat split; reflexivity. Qed.

(** A frame that [JSON.parse] rejects, or that fails both tests of the
    handler, leaves the hook as it was. *)
Lemma onmessage_unrecognised
    (JSON_parse : string -> option value) (ev_data : string) (h : AppHooks.Hook) :
  (JSON_parse ev_data = None
   \/ exists msg, JSON_parse ev_data = Some msg
        /\ ~ (get_prop msg "type" = Some (VStr "summary")
              /\ exists d, get_prop msg "data" = Some d /\ truthy d = true)
        /\ ~ (get_prop msg "type" = Some (VStr "batch")
              /\ exists ds, get_prop msg "data" = Some (VArr ds))) ->
  AppHooks.onmessage JSON_parse ev_data h = h
  /\ AppHooks.latest (AppHooks.onmessage JSON_parse ev_data h) = AppHooks.latest h.
Proof.
  intros Hbad.
  assert (Hm : AppHooks.onmessage_parsed (JSON_parse ev_data) (AppHooks.latest h)
               = AppHooks.latest h).
  { destruct Hbad as [-> | (msg & -> & Hs & Hb)]; [reflexivity |].
    unfold AppHooks.onmessage_parsed.
    destruct (get_prop msg "type") as [ty |] eqn:Hty; [| reflexivity].
    destruct (get_prop msg "data") as [data |] eqn:Hdata; [| reflexivity].
    destruct (is_str ty "summary") eqn:Hsum.
    - destruct ty; simpl in Hsum; try discriminate.
      apply String.eqb_eq in Hsum; subst s.
      destruct (truthy data) eqn:Htr.
      + exfalso. apply Hs. split; [reflexivity | eauto].
      + reflexivity.
    - simpl. destruct (is_str ty "batch") eqn:Hbat; [| reflexivity].
      destruct ty; simpl in Hbat; try discriminate.
      apply String.eqb_eq in Hbat; subst s.
      destruct data; simpl; try reflexivity.
      exfalso. apply Hb. split; [reflexivity | eauto]. }
  unfold AppHooks.onmessage. rewrite Hm. destruct h; split; reflexivity.
Qed.

(** *** Sets and symbols *)

Lemma Set_has_In (x : string) (l : list string) :
  Set_has x l = true <-> In x l.
Proof.
  unfold Set_has. rewrite existsb_exists. split.
  - intros (y & Hy & He). apply String.eqb_eq in He. now subst.
  - intros Hx. exists x. split; [assumption | apply String.eqb_refl].
Qed.

Lemma Set_delete_absent (x : string) (l : list string) :
  Set_has x l = false -> Set_delete x l = l.
Proof.
  unfold Set_has, Set_delete. induction l as [| y l IH]; simpl; [reflexivity |].
  intros H. apply orb_false_iff in H as [Hxy Hl].
  rewrite Hxy. simpl. now rewrite IH.
Qed.

Lemma Set_delete_add (x : string) (l : list string) :
  Set_has x l = false -> Set_delete x (Set_add x l) = l.
Proof.
  intros H. unfold Set_add. rewrite H. unfold Set_delete.
  rewrite List.filter_app. fold (Set_delete x l).
  rewrite (Set_delete_absent x l H). simpl.
  rewrite String.eqb_refl. simpl. apply app_nil_r.
Qed.

Lemma Set_add_In (x y : string) (l : list string) :
  In y (Set_add x l) <-> y = x \/ In y l.
Proof.
  unfold Set_add. destruct (Set_has x l) eqn:H.
  - apply Set_has_In in H. split; [tauto | intros [-> | ?]; assumption].
  - rewrite in_app_iff. simpl. split; intros; intuition congruence.
Qed.

Lemma Set_fold_In (y : string) (l acc : list string) :
  In y (fold_left (fun s x => Set_add x s) l acc) <-> In y acc \/ In y l.
Proof.
  revert acc. induction l as [| x l IH]; intros acc; simpl; [tauto |].
  rewrite IH, Set_add_In. split; intros; intuition congruence.
Qed.

Lemma Set_of_list_In (y : string) (l : list string) :
  In y (Set_of_list l) <-> In y l.
Proof. unfold Set_of_list. rewrite Set_fold_In. simpl. tauto. Qed.

Lemma toUpperCase_empty (s : string) : toUpperCase s = "" <-> s = "".
Proof. destruct s; simpl; split; intros H; congruence. Qed.

Lemma scheduleVisibleUpdate_extras (batchMs : Z) (h : AppHooks.Hook) :
  AppHooks.extraSymbolsRef (AppHooks.scheduleVisibleUpdate batchMs h)
  = AppHooks.extraSymbolsRef h.
Proof.
  unfold AppHooks.scheduleVisibleUpdate.
  destruct (AppHooks.pendingVisibleChange h); reflexivity.
Qed.

(** C10: [addExtraSymbol] appends the upper-cased symbol to ExtraSymbols;
    when [s] and [t] have the same upper-case form and that form is not yet
    in ExtraSymbols, [addExtraSymbol(s)] followed by [removeExtraSymbol(t)]
    leaves ExtraSymbols as it was; on the empty string both return without
    touching anything. *)
Theorem extra_symbol_add_remove (batchMs : Z) (s t : string) (h : AppHooks.Hook) :
  toUpperCase s = toUpperCase t ->
  Set_has (toUpperCase s) (AppHooks.extraSymbolsRef h) = false ->
  AppHooks.extraSymbolsRef
    (AppHooks.removeExtraSymbol batchMs t (AppHooks.addExtraSymbol batchMs s h))
  = AppHooks.extraSymbolsRef h
  /\ (s <> "" ->
      AppHooks.extraSymbolsRef (AppHooks.addExtraSymbol batchMs s h)
      = (AppHooks.extraSymbolsRef h ++ [toUpperCase s])%list)
  /\ AppHooks.addExtraSymbol batchMs "" h = h
  /\ AppHooks.removeExtraSymbol batchMs "" h = h.
Proof.
  intros Hst Hfresh. split; [| split; [| split; reflexivity]].
  - unfold AppHooks.addExtraSymbol, AppHooks.removeExtraSymbol.
    destruct (String.eqb s "") eqn:Hs.
    + apply String.eqb_eq in Hs. subst s. simpl in Hst.
      symmetry in Hst. apply (proj1 (toUpperCase_empty t)) in Hst.
      subst t. reflexivity.
    + destruct (String.eqb t "") eqn:Ht.
      * apply String.eqb_eq in Ht. subst t. simpl in Hst.
        apply (proj1 (toUpperCase_empty s)) in Hst. subst s. discriminate Hs.
      * rewrite !scheduleVisibleUpdate_extras. simpl.
        rewrite <- Hst. now apply Set_delete_add.
  - intros Hne. unfold AppHooks.addExtraSymbol.
    apply String.eqb_neq in Hne. rewrite Hne.
    rewrite scheduleVisibleUpdate_extras. simpl.
    unfold Set_add. now rewrite Hfresh.
Qed.

Lemma extra_symbol_add_remove_witness :
  AppHooks.extraSymbolsRef
    (AppHooks.removeExtraSymbol 200 "ETHUSDT"
       (AppHooks.addExtraSymbol 200 "ethUsdt"
          (AppHooks.set_extraSymbolsRef ["BTCUSDT"] AppHooks.mount)))
  = ["BTCUSDT"].
Proof.
  apply (extra_symbol_add_remove 200 "ethUsdt" "ETHUSDT"
           (AppHooks.set_extraSymbolsRef ["BTCUSDT"] AppHooks.mount));
    reflexivity.
Defined.

(** *** The snapshot fallback *)

Lemma toFetch_force (syms : list string)
    (o : AppHooks.SnapshotOpts) (now : Z) (h : AppHooks.Hook) :
  AppHooks.force o = true ->
  AppHooks.toFetch syms (Some o) now h
  = Set_of_list (syms ++ AppHooks.extraSymbolsRef h).
Proof.
  intros Hf. unfold AppHooks.toFetch. simpl. rewrite Hf. simpl.
  induction (Set_of_list (syms ++ AppHooks.extraSymbolsRef h)) as [| x l IH];
    simpl; [reflexivity | now rewrite IH].
Qed.

(** C9: called with a missing or empty [symbols] array, [fetchSnapshot]
    issues no request and returns the state unchanged, whatever ExtraSymbols
    holds; called with at least one symbol and [force], it requests the
    de-duplicated list of the passed symbols followed by the extras, so every
    pinned extra symbol is part of the request. *)
Theorem fetchSnapshot_empty_symbols (api : option string) (enc : string -> string)
    (symbols : option (list string)) (opts : option AppHooks.SnapshotOpts)
    (now : Z) (h : AppHooks.Hook) :
  (symbols = None \/ symbols = Some []) ->
  AppHooks.fetchSnapshot_request api enc symbols opts now h = None
  /\ AppHooks.fetchSnapshot_begin api enc symbols opts now h = h
  /\ forall (s e : string) (syms : list string) (o : AppHooks.SnapshotOpts),
       AppHooks.force o = true ->
       In e (AppHooks.extraSymbolsRef h) ->
       AppHooks.fetchSnapshot_request api enc (Some (s :: syms)) (Some o) now h
       = Some (AppHooks.snapshot_url api enc
                 (Set_of_list ((s :: syms) ++ AppHooks.extraSymbolsRef h)) (Some o) h)
       /\ In e (Set_of_list ((s :: syms) ++ AppHooks.extraSymbolsRef h)).
Proof.
  intros Hsym.
  assert (Hreq : AppHooks.fetchSnapshot_request api enc symbols opts now h = None)
    by (destruct Hsym as [-> | ->]; reflexivity).
  split; [exact Hreq |]. split.
  - unfold AppHooks.fetchSnapshot_begin. now rewrite Hreq.
  - intros s e syms o Hf He.
    assert (Hin : In e (Set_of_list ((s :: syms) ++ AppHooks.extraSymbolsRef h)))
      by (apply Set_of_list_In, in_app_iff; now right).
    split; [| exact Hin].
    unfold AppHooks.fetchSnapshot_request.
    rewrite (toFetch_force (s :: syms) o now h Hf).
    destruct (Set_of_list ((s :: syms) ++ AppHooks.extraSymbolsRef h)) eqn:E;
      [destruct Hin | reflexivity].
Qed.

Lemma fetchSnapshot_empty_symbols_witness :
  AppHooks.fetchSnapshot_begin None Sample.encode_unreserved (Some []) None
    1700000000000 (AppHooks.set_extraSymbolsRef ["ETHUSDT"] AppHooks.mount)
  = AppHooks.set_extraSymbolsRef ["ETHUSDT"] AppHooks.mount.
Proof.
  apply (fetchSnapshot_empty_symbols None Sample.encode_unreserved (Some []) None
           1700000000000 (AppHooks.set_extraSymbolsRef ["ETHUSDT"] AppHooks.mount)).
  right. reflexivity.
Defined.

Lemma store_summaries_spec (l : list value) (now : Z) (h : AppHooks.Hook) :
  Forall (fun e => exists name, get_prop e "symbol" = Some (VStr name)) l ->
  exists h',
    AppHooks.store_summaries l now h = (h', true)
    /\ AppHooks.extraSymbolsRef h' = AppHooks.extraSymbolsRef h
    /\ AppHooks.effects h' = AppHooks.effects h
    /\ (forall k, AppHooks.lastSnapshotFetch h !! k = Some now ->
                  AppHooks.lastSnapshotFetch h' !! k = Some now)
    /\ (forall e name, In e l -> get_prop e "symbol" = Some (VStr name) ->
                       AppHooks.lastSnapshotFetch h' !! toUpperCase name = Some now).
Proof.
  intros Hl. revert h. induction Hl as [| e l (name & He) Hl IH]; intros h.
  - exists h. simpl. repeat split; auto. intros e name [].
  - simpl. rewrite He.
    set (h1 := AppHooks.set_lastSnapshotFetch _ _).
    destruct (IH h1) as (h' & Hrun & Hex & Hef & Hkeep & Hnew).
    exists h'. split; [exact Hrun |]. split; [now rewrite Hex |].
    split; [now rewrite Hef |]. split.
    + intros k Hk. apply Hkeep. subst h1. simpl.
      destruct (decide (toUpperCase name = k)) as [-> | Hne].
      * apply lookup_insert_eq.
      * rewrite lookup_insert_ne by exact Hne. exact Hk.
    + intros e' name' [<- | Hin] He'.
      * rewrite He in He'. injection He' as <-.
        apply Hkeep. subst h1. simpl. apply lookup_insert_eq.
      * now apply (Hnew e' name').
Qed.

(** C5, the claim as stated fails: two calls of [fetchSnapshot(["BTCUSDT"])]
    one millisecond apart, the second made while the first request is still
    unanswered, send two requests for BTCUSDT. *)
Lemma fetchSnapshot_twice_in_flight :
  AppHooks.effects
    (AppHooks.fetchSnapshot_begin None Sample.encode_unreserved
       (Some ["BTCUSDT"]) None (Sample.T0 + 1)
       (AppHooks.fetchSnapshot_begin None Sample.encode_unreserved
          (Some ["BTCUSDT"]) None Sample.T0 AppHooks.mount))
  = [Fetch "http://localhost:8000/market/summaries?symbols=BTCUSDT";
     Fetch "http://localhost:8000/market/summaries?symbols=BTCUSDT"].
Proof. vm_compute. reflexivity. Qed.

(** [fetchSnapshot] up to its request writes one line in the effect log, or
    none. *)
Lemma fetchSnapshot_begin_effects (api : option string) (enc : string -> string)
    (s : string) (opts : option AppHooks.SnapshotOpts) (now : Z) (h : AppHooks.Hook) :
  AppHooks.effects (AppHooks.fetchSnapshot_begin api enc (Some [s]) opts now h)
  = match AppHooks.toFetch [s] opts now h with
    | [] => AppHooks.effects h
    | l => (AppHooks.effects h ++ [Fetch (AppHooks.snapshot_url api enc l opts h)])%list
    end.
Proof.
  unfold AppHooks.fetchSnapshot_begin, AppHooks.fetchSnapshot_request.
  destruct (AppHooks.toFetch [s] opts now h); reflexivity.
Qed.

(** C5, amended: let a first [fetchSnapshot([s])] outside the cooldown of [s]
    send its request, and let a 200 response whose entries all carry a string
    symbol, one of them [s] up to case, be stored at time [t1].  The first
    call requested [s], and storing the response sends nothing.  A later call
    without [force] at a time [now] with [now - t1 <= cooldown] (5000 ms
    unless [cooldownMs] is given) requests neither [s] nor any spelling of
    it: what it requests, if anything, are pinned extras whose own cooldown
    has run out, and with no pinned extras it sends nothing, so exactly one
    request went out.  A call with [force] at that same time sends a request
    that lists [s]. *)
Theorem fetchSnapshot_cooldown (api : option string) (enc : string -> string)
    (s : string) (entries : list value) (e : value) (name : string)
    (opts : option AppHooks.SnapshotOpts) (t0 t1 now : Z) (h : AppHooks.Hook) :
  AppHooks.opt_force opts = false ->
  t0 - AppHooks.last_fetch s h > AppHooks.opt_cooldown opts ->
  Forall (fun e => exists name, get_prop e "symbol" = Some (VStr name)) entries ->
  In e entries ->
  get_prop e "symbol" = Some (VStr name) ->
  toUpperCase name = toUpperCase s ->
  now - t1 <= AppHooks.opt_cooldown opts ->
  let l0 := AppHooks.toFetch [s] opts t0 h in
  let h0 := AppHooks.fetchSnapshot_begin api enc (Some [s]) opts t0 h in
  let h1 := AppHooks.fetchSnapshot_end (Sample.summaries_response entries) t1 h0 in
  let l := AppHooks.toFetch [s] opts now h1 in
  (In s l0
   /\ AppHooks.effects h0
      = (AppHooks.effects h ++ [Fetch (AppHooks.snapshot_url api enc l0 opts h)])%list)
  /\ AppHooks.effects h1 = AppHooks.effects h0
  /\ (forall x, toUpperCase x = toUpperCase s -> ~ In x l)
  /\ (forall x, In x l ->
        In x (AppHooks.extraSymbolsRef h)
        /\ now - AppHooks.last_fetch x h1 > AppHooks.opt_cooldown opts)
  /\ AppHooks.effects (AppHooks.fetchSnapshot_begin api enc (Some [s]) opts now h1)
     = match l with
       | [] => AppHooks.effects h1
       | _ => (AppHooks.effects h1
               ++ [Fetch (AppHooks.snapshot_url api enc l opts h1)])%list
       end
  /\ (AppHooks.extraSymbolsRef h = [] ->
      AppHooks.effects (AppHooks.fetchSnapshot_begin api enc (Some [s]) opts now h1)
      = (AppHooks.effects h ++ [Fetch (AppHooks.snapshot_url api enc [s] opts h)])%list)
  /\ forall o, AppHooks.force o = true ->
       let lf := Set_of_list ([s] ++ AppHooks.extraSymbolsRef h) in
       In s lf
       /\ AppHooks.effects
            (AppHooks.fetchSnapshot_begin api enc (Some [s]) (Some o) now h1)
          = (AppHooks.effects h1
             ++ [Fetch (AppHooks.snapshot_url api enc lf (Some o) h1)])%list.
Proof.
  intros Hforce Hfirst Hok Hin He Hname Hnow l0 h0 h1 l.
  (* the first call sends its request *)
  assert (Hs0 : In s l0).
  { subst l0. unfold AppHooks.toFetch. apply filter_In. split.
    - apply Set_of_list_In. now left.
    - rewrite Hforce. simpl. apply Z.gtb_lt. lia. }
  assert (Hef0 : AppHooks.effects h0
                 = (AppHooks.effects h
                    ++ [Fetch (AppHooks.snapshot_url api enc l0 opts h)])%list).
  { subst h0. rewrite fetchSnapshot_begin_effects. fold l0.
    destruct l0; [destruct Hs0 | reflexivity]. }
  assert (Hex0 : AppHooks.extraSymbolsRef h0 = AppHooks.extraSymbolsRef h).
  { subst h0. unfold AppHooks.fetchSnapshot_begin.
    destruct (AppHooks.fetchSnapshot_request api enc (Some [s]) opts t0 h);
      reflexivity. }
  (* the response is stored *)
  destruct (store_summaries_spec entries t1 h0 Hok)
    as (h' & Hrun & Hex' & Hef' & _ & Hnew).
  assert (Hh1 : h1 = AppHooks.set_tick (S (AppHooks.tick h')) h').
  { subst h1. unfold AppHooks.fetchSnapshot_end, Sample.summaries_response.
    simpl. now rewrite Hrun. }
  assert (Hex1 : AppHooks.extraSymbolsRef h1 = AppHooks.extraSymbolsRef h)
    by (rewrite Hh1; simpl; now rewrite Hex', Hex0).
  assert (Hef1 : AppHooks.effects h1 = AppHooks.effects h0)
    by (rewrite Hh1; simpl; exact Hef').
  assert (Hlast : forall x, toUpperCase x = toUpperCase s ->
                            AppHooks.last_fetch x h1 = t1).
  { intros x Hx. unfold AppHooks.last_fetch. rewrite Hh1. simpl.
    rewrite Hx, <- Hname, (Hnew e name Hin He). reflexivity. }
  assert (Hl : forall x, In x l ->
             In x ([s] ++ AppHooks.extraSymbolsRef h)
             /\ now - AppHooks.last_fetch x h1 > AppHooks.opt_cooldown opts).
  { intros x Hx. subst l. unfold AppHooks.toFetch in Hx.
    apply filter_In in Hx. destruct Hx as [Hx Hc].
    apply (proj1 (Set_of_list_In _ _)) in Hx. rewrite Hex1 in Hx.
    split; [exact Hx |].
    rewrite Hforce in Hc. simpl in Hc. apply Z.gtb_lt in Hc. lia. }
  assert (Hnot : forall x, toUpperCase x = toUpperCase s -> ~ In x l).
  { intros x Hx Hxl. destruct (Hl x Hxl) as [_ Hc].
    rewrite (Hlast x Hx) in Hc. lia. }
  split; [split; [exact Hs0 | exact Hef0] |].
  split; [exact Hef1 |]. split; [exact Hnot |]. split.
  { intros x Hx. destruct (Hl x Hx) as [Hxin Hc]. split; [| exact Hc].
    destruct Hxin as [<- | Hxin]; [| exact Hxin].
    exfalso. now apply (Hnot s). }
  split.
  { rewrite fetchSnapshot_begin_effects. fold l. destruct l; reflexivity. }
  split.
  { intros Hex. rewrite fetchSnapshot_begin_effects. fold l.
    assert (Hl0 : l0 = [s]).
    { subst l0. unfold AppHooks.toFetch. rewrite Hex, Hforce. simpl.
      destruct (Z.gtb_spec (t0 - AppHooks.last_fetch s h) (AppHooks.opt_cooldown opts));
        [reflexivity | lia]. }
    destruct l as [| x l'] eqn:El.
    - rewrite Hef1, Hef0, Hl0. reflexivity.
    - exfalso. destruct (Hl x) as [Hxin _]; [now left |].
      rewrite Hex in Hxin. destruct Hxin as [<- | []].
      apply (Hnot s eq_refl). now left. }
  intros o Ho lf.
  assert (Hlf : In s lf) by (apply Set_of_list_In; now left).
  split; [exact Hlf |].
  unfold AppHooks.fetchSnapshot_begin, AppHooks.fetchSnapshot_request.
  rewrite (toFetch_force [s] o now h1 Ho), Hex1. fold lf.
  destruct lf; [destruct Hlf | reflexivity].
Qed.

Lemma fetchSnapshot_cooldown_witness :
  let h := AppHooks.set_extraSymbolsRef ["ETHUSDT"] AppHooks.mount in
  let h1 := AppHooks.fetchSnapshot_end
              (Sample.summaries_response [Sample.btc_full]) (Sample.T0 + 50)
              (AppHooks.fetchSnapshot_begin None Sample.encode_unreserved
                 (Some ["BTCUSDT"]) None Sample.T0 h) in
  ~ In "BTCUSDT" (AppHooks.toFetch ["BTCUSDT"] None (Sample.T0 + 5050) h1)
  /\ AppHooks.effects
       (AppHooks.fetchSnapshot_begin None Sample.encode_unreserved
          (Some ["BTCUSDT"]) None (Sample.T0 + 5050)
          (AppHooks.fetchSnapshot_end
             (Sample.summaries_response [Sample.btc_full]) (Sample.T0 + 50)
             (AppHooks.fetchSnapshot_begin None Sample.encode_unreserved
                (Some ["BTCUSDT"]) None Sample.T0 AppHooks.mount)))
     = [Fetch "http://localhost:8000/market/summaries?symbols=BTCUSDT"].
Proof.
  intros h h1. split.
  - destruct (fetchSnapshot_cooldown None Sample.encode_unreserved "BTCUSDT"
                [Sample.btc_full] Sample.btc_full "BTCUSDT" None
                Sample.T0 (Sample.T0 + 50) (Sample.T0 + 5050) h)
      as (_ & _ & Hnot & _).
    + reflexivity.
    + vm_compute. reflexivity.
    + repeat constructor. exists "BTCUSDT". reflexivity.
    + left. reflexivity.
    + reflexivity.
    + reflexivity.
    + vm_compute. discriminate.
    + apply (Hnot "BTCUSDT"). reflexivity.
  - destruct (fetchSnapshot_cooldown None Sample.encode_unreserved "BTCUSDT"
                [Sample.btc_full] Sample.btc_full "BTCUSDT" None
                Sample.T0 (Sample.T0 + 50) (Sample.T0 + 5050) AppHooks.mount)
      as (_ & _ & _ & _ & _ & Hone & _).
    + reflexivity.
    + vm_compute. reflexivity.
    + repeat constructor. exists "BTCUSDT". reflexivity.
    + left. reflexivity.
    + reflexivity.
    + reflexivity.
    + vm_compute. discriminate.
    + apply Hone. reflexivity.
Defined.

(** *** Reconciliation on an OPEN socket *)

(** C4, evaluated: with socket 0 OPEN, BTCUSDT visible and last sent, and
    ETHUSDT pinned afterwards, the target set is BTCUSDT and ETHUSDT, yet the
    reconciliation sends nothing and changes nothing; when SOLUSDT then
    becomes visible, the replace message carries BTCUSDT and SOLUSDT only.
    The pinned symbol never reaches the server over the open socket. *)
Theorem connectWS_open_ignores_extras :
  AppHooks.wsRef Sample.pinned = Some 0%nat
  /\ AppHooks.visibleSet Sample.pinned = ["BTCUSDT"]
  /\ AppHooks.extraSymbolsRef Sample.pinned = ["ETHUSDT"]
  /\ AppHooks.lastSentSymbols Sample.pinned = Some ["BTCUSDT"]
  /\ AppHooks.visibleUpdate None Sample.encode_unreserved OPEN Sample.pinned
     = Sample.pinned
  /\ AppHooks.effects
       (AppHooks.visibleUpdate None Sample.encode_unreserved OPEN Sample.scrolled)
     = (AppHooks.effects Sample.scrolled
        ++ [WsSendReplace 0 ["BTCUSDT"; "SOLUSDT"]])%list.
Proof. repeat split; vm_compute; reflexivity. Qed.

End HookProps.

Module MobileProps.
Import JS MobileAuth.

(** *** One call of [refresh], [fetchWithAuth], [refreshUser] *)

Lemma refresh_throws (r : PostOutcome) (s : Session) (e : Thrown) :
  snd (refresh r s) = Some e -> refresh r s = (s, Some e).
Proof.
  unfold refresh. destruct (has_token (stored_refresh s)); [| simpl; congruence].
  destruct r as [msg | json]; [simpl; congruence |].
  destruct (get_prop json "access_token"), (get_prop json "accessToken"),
    (get_prop json "refresh_token"); simpl; congruence.
Qed.

Lemma reply_fails_refresh (r : PostOutcome) (s : Session) :
  reply_fails r -> exists e, refresh r s = (s, Some e).
Proof.
  unfold refresh. intros H. destruct (has_token (stored_refresh s)); [| eauto].
  destruct r as [msg | json]; simpl in H; [eauto |]. rewrite H. eauto.
Qed.

Lemma refresh_rest (r : PostOutcome) (s : Session) :
  user (fst (refresh r s)) = user s
  /\ refreshTimer (fst (refresh r s)) = refreshTimer s
  /\ consecutiveFailures (fst (refresh r s)) = consecutiveFailures s.
Proof.
  unfold refresh. destruct (has_token (stored_refresh s)); [| now repeat split].
  destruct r as [msg | json]; [now repeat split |].
  destruct (get_prop json "access_token"), (get_prop json "accessToken"),
    (get_prop json "refresh_token"); now repeat split.
Qed.

(** [refresh] reads nothing but the store. *)
Lemma refresh_store (r : PostOutcome) (s s' : Session) :
  stored_access s = stored_access s' ->
  stored_refresh s = stored_refresh s' ->
  snd (refresh r s) = snd (refresh r s')
  /\ stored_access (fst (refresh r s)) = stored_access (fst (refresh r s'))
  /\ stored_refresh (fst (refresh r s)) = stored_refresh (fst (refresh r s')).
Proof.
  intros Ha Hr. unfold refresh. rewrite Hr.
  destruct (has_token (stored_refresh s')); [| now repeat split].
  destruct r as [msg | json]; [now repeat split |].
  destruct (get_prop json "access_token"), (get_prop json "accessToken"),
    (get_prop json "refresh_token"); try now repeat split.
  unfold saveTokens. simpl. rewrite Ha, Hr. now repeat split.
Qed.

Lemma fetchWithAuth_rest (first : Response) (i : PostOutcome) (second : Response)
    (s : Session) :
  refreshTimer (fst (fetchWithAuth first i second s)) = refreshTimer s.
Proof.
  unfold fetchWithAuth. destruct first as [| st j]; [reflexivity |].
  destruct (st =? 401); [| reflexivity].
  pose proof (refresh_rest i s) as (_ & Ht & _).
  destruct (refresh i s) as [s1 [e |]]; simpl in *; [exact Ht |].
  destruct second; exact Ht.
Qed.

Lemma refreshUser_rest (first : Response) (i : PostOutcome) (second : Response)
    (s : Session) :
  refreshTimer (refreshUser first i second s) = refreshTimer s.
Proof.
  unfold refreshUser. pose proof (fetchWithAuth_rest first i second s) as Ht.
  destruct (fetchWithAuth first i second s) as [s1 [[| st [json |]] |]];
    simpl in *; try exact Ht.
  destruct (ok st); exact Ht.
Qed.

(** A profile request that is answered, but not with 401, is neither retried
    nor followed by a refresh. *)
Lemma fetchWithAuth_plain (st : Z) (j : option value) (i : PostOutcome)
    (second : Response) (s : Session) :
  st <> 401 ->
  fetchWithAuth (Res st j) i second s = (s, Some (Res st j)).
Proof.
  intros H. unfold fetchWithAuth. destruct (Z.eqb_spec st 401); [contradiction |].
  reflexivity.
Qed.

(** After a 401, a refresh that fails clears both tokens. *)
Lemma fetchWithAuth_clears (j : option value) (i : PostOutcome)
    (second : Response) (s : Session) :
  snd (refresh i s) <> None ->
  fetchWithAuth (Res 401 j) i second s = (clearTokens s, None).
Proof.
  intros H. unfold fetchWithAuth. simpl.
  destruct (snd (refresh i s)) as [e |] eqn:He; [| contradiction].
  rewrite (refresh_throws _ _ _ He). reflexivity.
Qed.

(** *** One tick *)

Lemma tick_throws (x : TickIn) (s : Session) (e : Thrown) :
  snd (refresh (reply x) s) = Some e ->
  tick x s
  = let s2 := mkSession (user s) (refreshTimer s) (S (consecutiveFailures s))
                (stored_access s) (stored_refresh s) (lastRefreshAt s) (Some e) in
    if (3 <=? S (consecutiveFailures s))%nat
    then stopAutoRefresh (setUser None (clearTokens s2))
    else s2.
Proof. intros H. unfold tick. rewrite (refresh_throws _ _ _ H). reflexivity. Qed.

Lemma tick_returns (x : TickIn) (s : Session) :
  snd (refresh (reply x) s) = None ->
  tick x s
  = let s2 := refreshUser (profile x) (inner x) (retry x) (fst (refresh (reply x) s)) in
    mkSession (user s2) (refreshTimer s2) 0%nat (stored_access s2)
      (stored_refresh s2) (Some (stamp x)) None.
Proof.
  intros H. unfold tick. destruct (refresh (reply x) s) as [s1 [e |]];
    simpl in H; [discriminate | reflexivity].
Qed.

Lemma failed_fails_in (s : Session) (x : TickIn) : failed x -> fails_in s x.
Proof.
  intros Hx. destruct (reply_fails_refresh (reply x) s Hx) as (e & He).
  unfold fails_in. rewrite He. discriminate.
Qed.

(** Failed ticks below the budget touch nothing but the counter and the
    error, so a tick that fails in the first session fails in each. *)
Lemma ticks_fail_in (l : list TickIn) (s0 s : Session) :
  stored_access s = stored_access s0 ->
  stored_refresh s = stored_refresh s0 ->
  refreshTimer s = true ->
  Forall (fails_in s0) l ->
  (consecutiveFailures s + length l < 3)%nat ->
  user (ticks l s) = user s
  /\ stored_access (ticks l s) = stored_access s
  /\ stored_refresh (ticks l s) = stored_refresh s
  /\ refreshTimer (ticks l s) = true
  /\ consecutiveFailures (ticks l s) = (consecutiveFailures s + length l)%nat.
Proof.
  intros Ha Hr Ht Hl. revert s Ha Hr Ht.
  induction Hl as [| x l Hx Hl IH]; intros s Ha Hr Ht Hlt; simpl in *.
  - repeat split; auto.
  - rewrite Ht.
    destruct (refresh_store (reply x) s s0 Ha Hr) as (Hsnd & _).
    unfold fails_in in Hx. rewrite <- Hsnd in Hx.
    destruct (snd (refresh (reply x) s)) as [e |] eqn:He; [| contradiction].
    rewrite (tick_throws x s e He). cbv zeta.
    destruct (Nat.leb_spec 3 (S (consecutiveFailures s))); [lia |].
    set (s1 := mkSession _ _ _ _ _ _ _).
    destruct (IH s1) as (Hu & Ha1 & Hr1 & Htm & Hc).
    + exact Ha.
    + exact Hr.
    + exact Ht.
    + subst s1. simpl. lia.
    + rewrite Hu, Ha1, Hr1, Htm, Hc. subst s1. simpl. repeat split; auto; lia.
Qed.

Lemma ticks_failures (l : list TickIn) (s : Session) :
  refreshTimer s = true ->
  Forall failed l ->
  (consecutiveFailures s + length l < 3)%nat ->
  user (ticks l s) = user s
  /\ stored_access (ticks l s) = stored_access s
  /\ stored_refresh (ticks l s) = stored_refresh s
  /\ refreshTimer (ticks l s) = true
  /\ consecutiveFailures (ticks l s) = (consecutiveFailures s + length l)%nat.
Proof.
  intros Ht Hl. apply (ticks_fail_in l s s eq_refl eq_refl Ht).
  apply (Forall_impl _ _ _ Hl). intros x. apply failed_fails_in.
Qed.

Lemma ticks_app_failures (l l' : list TickIn) (s : Session) :
  Forall failed l ->
  refreshTimer s = true ->
  (consecutiveFailures s + length l < 3)%nat ->
  ticks (l ++ l') s = ticks l' (ticks l s).
Proof.
  intros Hl. revert s. induction Hl as [| x l Hx Hl IH]; intros s Ht Hlt.
  - reflexivity.
  - cbn [ticks app]. rewrite Ht.
    destruct (reply_fails_refresh (reply x) s Hx) as (e & He).
    rewrite (tick_throws x s e) by (rewrite He; reflexivity).
    cbv zeta. simpl in Hlt.
    destruct (Nat.leb_spec 3 (S (consecutiveFailures s))); [lia |].
    apply IH; [exact Ht | simpl; lia].
Qed.

(** C8, the claim as stated fails: from a signed-in session with no failure counted, one
    tick whose refresh call returns, whose profile request is answered 401
    and in which the refresh made by [fetchWithAuth] fails clears both tokens
    and sets the user to null, while the counter is 0 and the timer still
    runs. *)
Lemma tick_success_signs_out :
  let s' := tick rejected_profile_tick signed_in_session in
  user signed_in_session <> None
  /\ consecutiveFailures signed_in_session = 0%nat
  /\ user s' = None
  /\ stored_access s' = None
  /\ stored_refresh s' = None
  /\ consecutiveFailures s' = 0%nat
  /\ refreshTimer s' = true.
Proof. vm_compute. repeat split. discriminate. Qed.

(** C8: a tick whose [mobileApi.refresh()] call throws adds one to the
    consecutive-failure counter and a tick whose call returns sets it to
    zero.  A tick whose call throws leaves the user, the stored tokens and
    the timer as they were unless it brings the counter to 3, and then it
    clears both tokens, sets the user to null and stops the timer (which also
    resets the counter); so after fewer than 3 consecutive failed ticks the
    user is still signed in, and no other tick stops the timer.  A tick whose call returns can still sign the
    user out, with the counter at 0 and the timer running: the profile
    request that follows sets the user to null when it is rejected by the
    network or answered with a status other than 401 that is not ok, and
    when it is answered 401 and the refresh made by [fetchWithAuth] fails,
    in which case both tokens are cleared as well. *)
Theorem auto_refresh_failure_budget (s : Session) (l : list TickIn) :
  refreshTimer s = true ->
  consecutiveFailures s = 0%nat ->
  Forall (fails_in s) l ->
  (length l < 3)%nat ->
  (user (ticks l s) = user s
   /\ stored_access (ticks l s) = stored_access s
   /\ stored_refresh (ticks l s) = stored_refresh s
   /\ refreshTimer (ticks l s) = true
   /\ consecutiveFailures (ticks l s) = length l)
  /\ (forall x s0,
        snd (refresh (reply x) s0) = None ->
        consecutiveFailures (tick x s0) = 0%nat
        /\ refreshTimer (tick x s0) = refreshTimer s0)
  /\ (forall x s0,
        snd (refresh (reply x) s0) <> None ->
        (S (consecutiveFailures s0) < 3)%nat ->
        consecutiveFailures (tick x s0) = S (consecutiveFailures s0)
        /\ user (tick x s0) = user s0
        /\ stored_access (tick x s0) = stored_access s0
        /\ stored_refresh (tick x s0) = stored_refresh s0
        /\ refreshTimer (tick x s0) = refreshTimer s0)
  /\ (forall x s0,
        snd (refresh (reply x) s0) <> None ->
        (3 <= S (consecutiveFailures s0))%nat ->
        user (tick x s0) = None
        /\ stored_access (tick x s0) = None
        /\ stored_refresh (tick x s0) = None
        /\ refreshTimer (tick x s0) = false
        /\ consecutiveFailures (tick x s0) = 0%nat)
  /\ (forall x,
        fails_in s x -> length l = 2%nat ->
        user (tick x (ticks l s)) = None
        /\ stored_access (tick x (ticks l s)) = None
        /\ stored_refresh (tick x (ticks l s)) = None
        /\ refreshTimer (tick x (ticks l s)) = false)
  /\ (forall x s0,
        refreshTimer (tick x s0) <> refreshTimer s0 ->
        snd (refresh (reply x) s0) <> None
        /\ (3 <= S (consecutiveFailures s0))%nat)
  /\ (forall x s0,
        snd (refresh (reply x) s0) = None ->
        let s1 := fst (refresh (reply x) s0) in
        (profile x = FetchThrows
         \/ (exists st j, profile x = Res st j /\ st <> 401 /\ ok st = false) ->
         user (tick x s0) = None
         /\ stored_access (tick x s0) = stored_access s1
         /\ stored_refresh (tick x s0) = stored_refresh s1)
        /\ (forall j,
              profile x = Res 401 j -> snd (refresh (inner x) s1) <> None ->
              user (tick x s0) = None
              /\ stored_access (tick x s0) = None
              /\ stored_refresh (tick x s0) = None)).
Proof.
  intros Ht Hc Hl Hlen.
  destruct (ticks_fail_in l s s eq_refl eq_refl Ht Hl)
    as (Hu & Ha & Hr & Htm & Hn); [lia |].
  rewrite Hc in Hn. simpl in Hn.
  assert (Hthird : forall x s0,
             snd (refresh (reply x) s0) <> None ->
             (3 <= S (consecutiveFailures s0))%nat ->
             user (tick x s0) = None
             /\ stored_access (tick x s0) = None
             /\ stored_refresh (tick x s0) = None
             /\ refreshTimer (tick x s0) = false
             /\ consecutiveFailures (tick x s0) = 0%nat).
  { intros x s0 Hf H3.
    destruct (snd (refresh (reply x) s0)) as [e |] eqn:He; [| contradiction].
    rewrite (tick_throws x s0 e He). cbv zeta.
    destruct (Nat.leb_spec 3 (S (consecutiveFailures s0))); [| lia].
    repeat split. }
  split; [now repeat split |]. split.
  { intros x s0 Hs. rewrite (tick_returns x s0 Hs). cbv zeta. simpl.
    split; [reflexivity |]. rewrite refreshUser_rest.
    apply (refresh_rest (reply x) s0). }
  split.
  { intros x s0 Hf Hlt.
    destruct (snd (refresh (reply x) s0)) as [e |] eqn:He; [| contradiction].
    rewrite (tick_throws x s0 e He). cbv zeta.
    destruct (Nat.leb_spec 3 (S (consecutiveFailures s0))); [lia |].
    repeat split. }
  split; [exact Hthird |]. split.
  { intros x Hx H2.
    destruct (refresh_store (reply x) (ticks l s) s Ha Hr) as (Hsnd & _).
    destruct (Hthird x (ticks l s)) as (H1 & H3 & H4 & H5 & _).
    - rewrite Hsnd. exact Hx.
    - rewrite Hn, H2. lia.
    - repeat split; assumption. }
  split.
  { intros x s0 Hne.
    destruct (snd (refresh (reply x) s0)) as [e |] eqn:He.
    - split; [discriminate |].
      rewrite (tick_throws x s0 e He) in Hne. cbv zeta in Hne.
      destruct (Nat.leb_spec 3 (S (consecutiveFailures s0))); [assumption |].
      exfalso. now apply Hne.
    - exfalso. apply Hne. rewrite (tick_returns x s0 He). cbv zeta. simpl.
      rewrite refreshUser_rest. apply (refresh_rest (reply x) s0). }
  intros x s0 Hs s1. rewrite (tick_returns x s0 Hs). cbv zeta. fold s1. split.
  - intros [Hp | (st & j & Hp & H401 & Hok)]; rewrite Hp; unfold refreshUser.
    + simpl. repeat split.
    + rewrite fetchWithAuth_plain by exact H401. rewrite Hok.
      destruct j; repeat split.
  - intros j Hp Hi. rewrite Hp. unfold refreshUser.
    rewrite fetchWithAuth_clears by exact Hi. repeat split.
Qed.

Lemma auto_refresh_failure_budget_witness :
  let l := [timeout_tick; timeout_tick] in
  user (ticks l signed_in_session) = Some (VObj [("id", VNum 7)])
  /\ stored_refresh (ticks l signed_in_session) = Some "r1"
  /\ refreshTimer (tick timeout_tick (ticks l signed_in_session)) = false.
Proof.
  intros l.
  destruct (auto_refresh_failure_budget signed_in_session l)
    as ((Hu & _ & Hr & _) & _ & _ & _ & H3 & _).
  - reflexivity.
  - reflexivity.
  - repeat constructor; discriminate.
  - simpl. lia.
  - destruct (H3 timeout_tick) as (_ & _ & _ & Ht).
    + discriminate.
    + reflexivity.
    + split; [exact Hu | split; [exact Hr | exact Ht]].
Defined.

End MobileProps.

Module AuthProps.
Import JS Browser EventLoop.

(** *** Effects of one handler *)

Lemma hdr_get_set (k v : string) (h : list (string * string)) :
  hdr_get k (hdr_set k v h) = Some v.
Proof.
  induction h as [| [k' v'] h IH]; simpl.
  - now rewrite String.eqb_refl.
  - destruct (String.eqb k k') eqn:E; simpl; rewrite ?String.eqb_refl, ?E; auto.
Qed.

Lemma broadcast_out (b : bool) (m : Broadcast) (t : Tab) :
  exists pre, out (Axios.broadcast b m t) = (out t ++ pre)%list
              /\ forallb is_broadcast pre = true.
Proof.
  unfold Axios.broadcast. destruct b.
  - exists [Post m]. split; reflexivity.
  - exists []. split; [now rewrite app_nil_r | reflexivity].
Qed.

Lemma persist_out (b : bool) (res : value) (t : Tab) :
  exists pre, out (Axios.persist b res t) = (out t ++ pre)%list
              /\ forallb is_broadcast pre = true.
Proof.
  unfold Axios.persist.
  destruct (match cryptics_auth (ls t) with
            | Some parsed => get_prop parsed "user"
            | None => Some VNull
            end) as [u |];
    [destruct (get_prop res "access_token") as [tok |] |].
  - match goal with
    | |- context [Axios.broadcast b ?m ?t'] =>
        destruct (broadcast_out b m t') as (pre & H & Ha)
    end.
    exists pre. split; [exact H | exact Ha].
  - exists []. split; [now rewrite app_nil_r | reflexivity].
  - exists []. split; [now rewrite app_nil_r | reflexivity].
Qed.

Lemma resume_fail_out (b : bool) (c : Config) (t : Tab) :
  exists pre, out (Axios.resume_fail b c t)
              = (out t ++ pre ++ [Navigate "/login"; Reject (Some c) CaughtError])%list
              /\ forallb is_broadcast pre = true.
Proof.
  unfold Axios.resume_fail.
  set (t1 := set_ls _ t).
  destruct (broadcast_out b BcLogout t1) as (pre & Hpre & Hall).
  exists pre. split; [| exact Hall]. simpl. rewrite Hpre. subst t1. simpl.
  now rewrite <- !app_assoc.
Qed.

Lemma resume_ok_out (b : bool) (res tok : value) (c : Config) (t : Tab) :
  get_prop res "access_token" = Some tok ->
  exists pre, out (Axios.resume_ok b res c t)
              = (out t ++ pre
                 ++ [ApiRequest (with_header "Authorization"
                                   ("Bearer " ++ js_String tok) c)])%list
              /\ forallb is_broadcast pre = true.
Proof.
  intros Htok. unfold Axios.resume_ok. rewrite Htok.
  set (t0 := set_refreshPromise None (set_isRefreshing false t)).
  destruct (persist_out b res t0) as (pre & Hpre & Hall).
  exists pre. split; [| exact Hall].
  unfold Axios.api. simpl. rewrite Hpre. subst t0. simpl.
  now rewrite <- app_assoc.
Qed.

Lemma resume_ok_null_out (b : bool) (res : value) (c : Config) (t : Tab) :
  get_prop res "access_token" = None ->
  exists pre, out (Axios.resume_ok b res c t)
              = (out t ++ pre ++ [Navigate "/login"; Reject (Some c) CaughtError])%list
              /\ forallb is_broadcast pre = true.
Proof.
  intros Htok. unfold Axios.resume_ok. rewrite Htok.
  set (t0 := set_refreshPromise None (set_isRefreshing false t)).
  assert (Hp : Axios.persist b res t0 = t0).
  { unfold Axios.persist. rewrite Htok.
    destruct (match cryptics_auth (ls t0) with
              | Some parsed => get_prop parsed "user"
              | None => Some VNull
              end); reflexivity. }
  rewrite Hp. destruct (resume_fail_out b c t0) as (pre & Hpre & Hall).
  exists pre. split; [exact Hpre | exact Hall].
Qed.

Lemma resume_tasks (b : bool) (o : Task) (c : Config) (t : Tab) :
  tasks (Axios.resume b o c t) = tasks t.
Proof.
  destruct o; simpl; try reflexivity.
  - unfold Axios.resume_ok, Axios.persist, Axios.resume_fail, Axios.api,
      Axios.broadcast.
    destruct (get_prop res "access_token");
      destruct (match cryptics_auth (ls (set_refreshPromise None (set_isRefreshing false t))) with
                | Some parsed => get_prop parsed "user"
                | None => Some VNull
                end); destruct b; reflexivity.
  - unfold Axios.resume_fail, Axios.broadcast. destruct b; reflexivity.
Qed.

(** *** Reading the effect log *)

Lemma omap_broadcast {A : Type} (f : Effect -> option A) (pre : list Effect) :
  (forall m, f (Post m) = None) ->
  forallb is_broadcast pre = true -> omap f pre = [].
Proof.
  intros Hf. induction pre as [| e pre IH]; simpl; [reflexivity |].
  intros H. apply andb_true_iff in H as [He Hp].
  destruct e; try discriminate He. rewrite Hf. now apply IH.
Qed.

Lemma posts_app (t : Tab) (l : list Effect) (n : nat) :
  posts t = n ->
  forall t', out t' = (out t ++ l)%list ->
  List.filter (fun e => match e with PostRefresh => true | _ => false end) l = [] ->
  posts t' = n.
Proof.
  intros Hn t' Hout Hl. unfold posts in *.
  now rewrite Hout, List.filter_app, Hl, app_nil_r.
Qed.

Lemma filter_broadcast_posts (pre tl : list Effect) :
  forallb is_broadcast pre = true ->
  List.filter (fun e => match e with PostRefresh => true | _ => false end) tl = [] ->
  List.filter (fun e => match e with PostRefresh => true | _ => false end)
    (pre ++ tl) = [].
Proof.
  intros Hp Htl. rewrite List.filter_app, Htl, app_nil_r.
  induction pre as [| e pre IH]; simpl in *; [reflexivity |].
  apply andb_true_iff in Hp as [He Hp]. destruct e; try discriminate He.
  now apply IH.
Qed.

(** All handlers waiting for a refresh that delivered a readable token go
    on to retry, in order, with that token. *)
Lemma fold_resume_ok (b : bool) (res tok : value) (cs : list Config) (t : Tab) :
  get_prop res "access_token" = Some tok ->
  let t' := fold_left (fun t w => Axios.resume b (Fulfilled res) (snd w) t)
              (List.map (pair 0%nat) cs) t in
  requests t'
  = (requests t
     ++ List.map (with_header "Authorization" ("Bearer " ++ js_String tok)) cs)%list
  /\ rejected t' = rejected t
  /\ posts t' = posts t
  /\ tasks t' = tasks t.
Proof.
  intros Htok. revert t.
  induction cs as [| c cs IH]; intros t; cbn [List.map fold_left snd].
  - now rewrite app_nil_r.
  - change (Axios.resume b (Fulfilled res) c t) with (Axios.resume_ok b res c t).
    destruct (IH (Axios.resume_ok b res c t)) as (Hq & Hj & Hp & Ht).
    destruct (resume_ok_out b res tok c t Htok) as (pre & Hout & Hpre).
    rewrite Hq, Hj, Hp, Ht. clear Hq Hj Hp Ht IH.
    repeat split.
    + unfold requests. rewrite Hout, !omap_app.
      rewrite (omap_broadcast _ pre) by (reflexivity || exact Hpre).
      simpl. now rewrite <- app_assoc.
    + unfold rejected. rewrite Hout, !omap_app.
      rewrite (omap_broadcast _ pre) by (reflexivity || exact Hpre).
      simpl. now rewrite app_nil_r.
    + apply (posts_app t _ (posts t) eq_refl _ Hout).
      now apply filter_broadcast_posts.
    + apply (resume_tasks b (Fulfilled res) c t).
Qed.

(** All handlers waiting for a refresh that failed, or that delivered [null],
    reject, in order. *)
Lemma fold_resume_fail (b : bool) (o : Task) (cs : list Config) (t : Tab) :
  (o = Failed \/ exists res, o = Fulfilled res /\ get_prop res "access_token" = None) ->
  let t' := fold_left (fun t w => Axios.resume b o (snd w) t)
              (List.map (pair 0%nat) cs) t in
  requests t' = requests t
  /\ rejected t' = (rejected t ++ List.map url cs)%list
  /\ posts t' = posts t
  /\ tasks t' = tasks t.
Proof.
  intros Ho. revert t.
  induction cs as [| c cs IH]; intros t; cbn [List.map fold_left snd].
  - now rewrite app_nil_r.
  - destruct (IH (Axios.resume b o c t)) as (Hq & Hj & Hp & Ht).
    assert (Hout : exists pre,
               out (Axios.resume b o c t)
               = (out t ++ pre ++ [Navigate "/login"; Reject (Some c) CaughtError])%list
               /\ forallb is_broadcast pre = true).
    { destruct Ho as [-> | (res & -> & Hn)]; simpl.
      - apply resume_fail_out.
      - now apply resume_ok_null_out. }
    destruct Hout as (pre & Hout & Hpre).
    rewrite Hq, Hj, Hp, Ht. clear Hq Hj Hp Ht IH.
    repeat split.
    + unfold requests. rewrite Hout, !omap_app.
      rewrite (omap_broadcast _ pre) by (reflexivity || exact Hpre).
      simpl. now rewrite app_nil_r.
    + unfold rejected. rewrite Hout, !omap_app.
      rewrite (omap_broadcast _ pre) by (reflexivity || exact Hpre).
      simpl. now rewrite <- app_assoc.
    + apply (posts_app t _ (posts t) eq_refl _ Hout).
      now apply filter_broadcast_posts.
    + apply resume_tasks.
Qed.

(** *** One refresh in a closed tab *)

Lemma on_error_fresh (b : bool) (s : LocalStorage) (c : Config) (now : Z) :
  _retry c = false ->
  Axios.on_error b (unauthorized c) now (fresh s)
  = pending s (Polling now) [mark_retry c].
Proof.
  intros Hc. unfold Axios.on_error, unauthorized. simpl. rewrite Hc.
  reflexivity.
Qed.

Lemma on_error_pending (b : bool) (s : LocalStorage) (st : Task)
    (cs : list Config) (c : Config) (now : Z) :
  unsettled st -> _retry c = false ->
  Axios.on_error b (unauthorized c) now (pending s st cs)
  = pending s st (cs ++ [mark_retry c]).
Proof.
  intros Hst Hc. unfold Axios.on_error, unauthorized. simpl. rewrite Hc.
  unfold Axios.await, pending. simpl.
  destruct st; try contradiction; simpl; now rewrite List.map_app.
Qed.

Lemma wake_pending (b : bool) (s : LocalStorage) (st : Task)
    (cs : list Config) (p : nat) (now : Z) :
  unsettled st ->
  exists st', unsettled st'
    /\ Axios.wake b p now (pending s st cs) = pending s st' cs
    /\ (st = Fetching -> st' = Fetching).
Proof.
  intros Hst. destruct p as [| p].
  - destruct st as [start | | |]; try contradiction.
    + unfold Axios.wake. simpl.
      destruct (now - start <? 5000).
      * exists (Polling start). repeat split. discriminate.
      * exists Fetching. repeat split.
    + exists Fetching. repeat split.
  - exists st. split; [assumption | split; [reflexivity | auto]].
Qed.

Lemma filter_waiting_all (cs : list Config) :
  List.filter (fun w : nat * Config => Nat.eqb (fst w) 0) (List.map (pair 0%nat) cs)
  = List.map (pair 0%nat) cs
  /\ List.filter (fun w : nat * Config => negb (Nat.eqb (fst w) 0))
       (List.map (pair 0%nat) cs) = [].
Proof.
  induction cs as [| c cs [IH1 IH2]]; simpl; [split; reflexivity |].
  now rewrite IH1, IH2.
Qed.

(** The answered refresh: the task holds its outcome and every waiting
    handler has run. *)
Lemma finished_unfold (b : bool) (s : LocalStorage) (cs : list Config)
    (r : Ws.FetchResult) :
  exists (o : Task) (l : LocalStorage),
    (o = match r with
         | Ws.Http true (Some json) => Fulfilled json
         | _ => Failed
         end)
    /\ finished b s cs r
       = fold_left (fun t w => Axios.resume b o (snd w) t)
           (List.map (pair 0%nat) cs)
           (mkTab true (Some 0%nat) [o] [] l None None [PostRefresh]).
Proof.
  destruct (filter_waiting_all cs) as [Hw Hr].
  unfold finished, Axios.response. simpl.
  destruct r as [| [|] [json |]]; eexists; eexists; (split; [reflexivity |]);
    unfold Axios.settle; simpl; rewrite Hw, Hr; reflexivity.
Qed.

Lemma fold_resume_tasks (b : bool) (o : Task) (ws : list (nat * Config)) (t : Tab) :
  tasks (fold_left (fun t w => Axios.resume b o (snd w) t) ws t) = tasks t.
Proof.
  revert t. induction ws as [| w ws IH]; intros t; cbn [fold_left];
    [reflexivity |].
  rewrite IH. apply resume_tasks.
Qed.

Lemma finished_tasks (b : bool) (s : LocalStorage) (cs : list Config)
    (r : Ws.FetchResult) :
  exists o, tasks (finished b s cs r) = [o] /\ ~ unsettled o.
Proof.
  destruct (finished_unfold b s cs r) as (o & l & Ho & ->).
  exists o. split.
  - now rewrite fold_resume_tasks.
  - subst o. destruct r as [| [|] [json |]]; simpl; tauto.
Qed.

Lemma step_finished (b : bool) (s : LocalStorage) (cs : list Config)
    (r : Ws.FetchResult) (ev : Event) :
  internal ev = true ->
  step b (finished b s cs r) ev = finished b s cs r.
Proof.
  intros Hev. destruct (finished_tasks b s cs r) as (o & Ht & Ho).
  destruct ev as [e now | p now | p r' |]; try discriminate Hev; simpl.
  - unfold Axios.wake. rewrite Ht.
    destruct p as [| p]; simpl; [| reflexivity].
    destruct o; simpl in Ho; tauto.
  - unfold Axios.response. rewrite Ht.
    destruct p as [| p]; simpl; [| reflexivity].
    destruct o; simpl in Ho; tauto.
Qed.

Lemma step_pending (b : bool) (s : LocalStorage) (st : Task)
    (cs : list Config) (ev : Event) :
  unsettled st -> internal ev = true ->
  (exists st', unsettled st' /\ step b (pending s st cs) ev = pending s st' cs)
  \/ (exists r, step b (pending s st cs) ev = finished b s cs r).
Proof.
  intros Hst Hev.
  destruct ev as [e now | p now | p r |]; try discriminate Hev; simpl.
  - left. destruct (wake_pending b s st cs p now Hst) as (st' & H1 & H2 & _).
    eauto.
  - destruct st as [start | | |]; try contradiction.
    + left. exists (Polling start). split; [exact I |].
      unfold Axios.response. destruct p; reflexivity.
    + destruct p as [| p].
      * right. exists r. reflexivity.
      * left. exists Fetching. split; [exact I | reflexivity].
Qed.

(** From the start of a refresh, the events of [doRefresh] lead either to
    a state where it is still unsettled, or to the state reached by
    answering its single request. *)
Lemma run_pending (b : bool) (s : LocalStorage) (cs : list Config)
    (evs : list Event) (st : Task) :
  unsettled st ->
  Forall (fun ev => internal ev = true) evs ->
  (exists st', unsettled st' /\ run b evs (pending s st cs) = pending s st' cs)
  \/ (exists r, run b evs (pending s st cs) = finished b s cs r).
Proof.
  intros Hst Hevs. revert st Hst.
  induction Hevs as [| ev evs Hev Hevs IH]; intros st Hst.
  - left. exists st. split; [assumption | reflexivity].
  - unfold run. cbn [fold_left]. fold (run b evs).
    destruct (step_pending b s st cs ev Hst Hev) as [(st' & Hst' & ->) | (r & ->)].
    + apply IH. exact Hst'.
    + right. exists r. clear IH.
      induction Hevs as [| ev' evs Hev' Hevs IH]; [reflexivity |].
      unfold run. cbn [fold_left]. fold (run b evs).
      rewrite (step_finished b s cs r ev' Hev'). exact IH.
Qed.

Lemma finished_spec (b : bool) (s : LocalStorage) (cs : list Config)
    (r : Ws.FetchResult) :
  let o := match r with
           | Ws.Http true (Some json) => Fulfilled json
           | _ => Failed
           end in
  let t := finished b s cs r in
  tasks t = [o] /\ posts t = 1%nat
  /\ match o with
     | Fulfilled res =>
         match get_prop res "access_token" with
         | Some tok =>
             requests t
             = List.map (with_header "Authorization" ("Bearer " ++ js_String tok)) cs
             /\ rejected t = []
         | None => requests t = [] /\ rejected t = List.map url cs
         end
     | _ => requests t = [] /\ rejected t = List.map url cs
     end.
Proof.
  intros o t. subst t.
  destruct (finished_unfold b s cs r) as (o' & l & Ho & ->). fold o in Ho. subst o'.
  set (t0 := mkTab true (Some 0%nat) [o] [] l None None [PostRefresh]).
  split; [now rewrite fold_resume_tasks |].
  destruct o as [start | | res |] eqn:Eo.
  - destruct r as [| [|] [json |]]; discriminate Eo.
  - destruct r as [| [|] [json |]]; discriminate Eo.
  - destruct (get_prop res "access_token") as [tok |] eqn:Htok.
    + destruct (fold_resume_ok b res tok cs t0 Htok) as (Hq & Hj & Hp & _).
      rewrite Hq, Hj, Hp. repeat split.
    + destruct (fold_resume_fail b (Fulfilled res) cs t0) as (Hq & Hj & Hp & _);
        [right; eauto |].
      rewrite Hq, Hj, Hp. repeat split.
  - destruct (fold_resume_fail b Failed cs t0) as (Hq & Hj & Hp & _);
      [now left |].
    rewrite Hq, Hj, Hp. repeat split.
Qed.

Lemma pending_quiet (s : LocalStorage) (st : Task) (cs : list Config) :
  unsettled st ->
  requests (pending s st cs) = [] /\ rejected (pending s st cs) = []
  /\ (posts (pending s st cs) <= 1)%nat.
Proof.
  intros Hst. destruct st; try contradiction; repeat split; simpl;
    unfold posts; simpl; lia.
Qed.

(** C1, the claim as stated fails: AuthProvider sends its refresh (at mount,
    or from its timer) and raises the flag; a request then comes back 401 and
    the interceptor's [doRefresh] waits for the flag; the provider's request
    is still unanswered after fifty sleeps of 100 ms, the wait gives up and
    [doRefresh] sends a refresh of its own.  Two POST /auth/refresh calls are
    in flight in one tab. *)
Lemma provider_and_interceptor_post_twice :
  let t := run true
             ([ProviderPost;
               ResponseError (unauthorized Sample.get_summaries) Sample.T0]
              ++ polls 0 Sample.T0 50)
             (fresh Sample.signed_in) in
  posts t = 2%nat /\ refresh_pending t = true /\ requests t = [].
Proof. vm_compute. repeat split. Qed.

(** C1, amended: in a tab where only the axios interceptor refreshes, let a
    first 401 start the refresh and a second 401 arrive while that refresh is
    unsettled.  However the sleeps and the response of [doRefresh] are
    scheduled, at most one POST /auth/refresh is sent; and once either request
    has been retried or rejected, exactly one was sent and both requests met
    the same end: either both were retried, in order, with the same
    Authorization header, or both were rejected. *)
Theorem interceptor_single_flight (b : bool) (s : LocalStorage) (A B : Config)
    (t0 t1 : Z) (evs1 evs2 : list Event) :
  _retry A = false -> _retry B = false ->
  Forall (fun ev => internal ev = true) evs1 ->
  Forall (fun ev => internal ev = true) evs2 ->
  let ta := run b evs1 (Axios.on_error b (unauthorized A) t0 (fresh s)) in
  refresh_pending ta = true ->
  let tb := run b evs2 (Axios.on_error b (unauthorized B) t1 ta) in
  (posts tb <= 1)%nat
  /\ (retried tb <> [] \/ rejected tb <> [] ->
      posts tb = 1%nat
      /\ ((exists auth, retried tb = [(url A, Some auth); (url B, Some auth)]
                        /\ rejected tb = [])
          \/ (retried tb = [] /\ rejected tb = [url A; url B]))).
Proof.
  intros HA HB He1 He2 ta Hpend tb. subst ta tb.
  rewrite (on_error_fresh b s A t0 HA) in *.
  destruct (run_pending b s [mark_retry A] evs1 (Polling t0) I He1)
    as [(st & Hst & Hrun) | (r & Hrun)]; rewrite Hrun in *; clear Hrun.
  - rewrite (on_error_pending b s st [mark_retry A] B t1 Hst HB).
    cbn [app].
    destruct (run_pending b s [mark_retry A; mark_retry B] evs2 st Hst He2)
      as [(st' & Hst' & ->) | (r & ->)].
    + destruct (pending_quiet s st' [mark_retry A; mark_retry B] Hst')
        as (Hq & Hj & Hp).
      split; [exact Hp |]. unfold retried. rewrite Hq, Hj.
      intros [H | H]; now elim H.
    + destruct (finished_spec b s [mark_retry A; mark_retry B] r)
        as (_ & Hp & Hout).
      split; [lia |]. intros _. split; [exact Hp |].
      destruct (match r with
                | Ws.Http true (Some json) => Fulfilled json
                | _ => Failed
                end) as [start | | res |];
        try (right; destruct Hout as [Hq Hj]; unfold retried;
             now rewrite Hq, Hj).
      destruct (get_prop res "access_token") as [tok |].
      * left. exists ("Bearer " ++ js_String tok). destruct Hout as [Hq Hj].
        unfold retried. rewrite Hq, Hj. simpl. now rewrite !hdr_get_set.
      * right. destruct Hout as [Hq Hj]. unfold retried. now rewrite Hq, Hj.
  - exfalso. destruct (finished_tasks b s [mark_retry A] r) as (o & Ht & Ho).
    unfold refresh_pending in Hpend. rewrite Ht in Hpend.
    destruct (refreshPromise (finished b s [mark_retry A] r)) as [[| p] |];
      simpl in Hpend; try discriminate Hpend.
    destruct o; simpl in Ho; try discriminate Hpend; tauto.
Qed.

Lemma interceptor_single_flight_witness :
  let tb := run true (polls 0 Sample.T0 50 ++ [RefreshResponse 0 Sample.rotated])
              (Axios.on_error true (unauthorized Sample.get_watchlist)
                 (Sample.T0 + 20)
                 (run true []
                    (Axios.on_error true (unauthorized Sample.get_summaries)
                       Sample.T0 (fresh Sample.signed_in)))) in
  (posts tb <= 1)%nat
  /\ retried tb = [("/market/summaries", Some "Bearer new");
                   ("/watchlist", Some "Bearer new")].
Proof.
  intros tb.
  destruct (interceptor_single_flight true Sample.signed_in Sample.get_summaries
              Sample.get_watchlist Sample.T0 (Sample.T0 + 20) []
              (polls 0 Sample.T0 50 ++ [RefreshResponse 0 Sample.rotated]))
    as [Hle _].
  - reflexivity.
  - reflexivity.
  - constructor.
  - vm_compute. repeat constructor.
  - reflexivity.
  - split; [exact Hle | vm_compute; reflexivity].
Defined.

Lemma next_delay_cases (expMs : option Z) (now : Z) :
  match expMs with
  | Some e =>
      (e = 0 -> AuthProvider.next_delay expMs now = 600000)
      /\ (e <> 0 -> 25000 < e - now ->
          now + AuthProvider.next_delay expMs now = e - 25000)
      /\ (e <> 0 -> e - now <= 25000 -> AuthProvider.next_delay expMs now = 50)
  | None => AuthProvider.next_delay expMs now = 600000
  end.
Proof.
  unfold AuthProvider.next_delay. destruct expMs as [e |]; [| reflexivity].
  destruct (Z.eqb_spec e 0) as [-> | He].
  - repeat split; intros; try reflexivity; congruence.
  - split; [congruence |].
    destruct (Z.leb_spec (Z.max 0 (e - now - 25 * 1000)) 0); split; intros; lia.
Qed.

(** C6, evaluated: in a browser that has [BroadcastChannel], the effect that
    contains [scheduleNext] returns right after subscribing to the channel,
    so no refresh timer is armed, whatever the token's expiry and whether or
    not the provider is initialized.  Only without [BroadcastChannel], and
    once initialized, the effect reaches [scheduleNext], which then arms the
    timer as the claim has it: 25 s before a non-zero expiry, after 50 ms when
    that moment is already past, after 600000 ms when no expiry is read. *)
Theorem refreshEffect_with_broadcast_channel
    (atob_parse : string -> option value) (str_to_num : string -> option Z)
    (initialized : bool) (now : Z) (t : Tab) :
  timer (AuthProvider.refreshEffect true atob_parse str_to_num initialized now t)
  = None
  /\ out (AuthProvider.refreshEffect true atob_parse str_to_num initialized now t)
     = out t
  /\ exists d,
       timer (AuthProvider.refreshEffect false atob_parse str_to_num true now t)
       = Some d
       /\ match AuthProvider.getExpiryFromToken atob_parse str_to_num
                  (AuthProvider.current_access t) with
          | Some e =>
              (e = 0 -> d = 600000)
              /\ (e <> 0 -> 25000 < e - now -> now + d = e - 25000)
              /\ (e <> 0 -> e - now <= 25000 -> d = 50)
          | None => d = 600000
          end.
Proof.
  split; [reflexivity |]. split; [reflexivity |].
  eexists. split; [reflexivity |].
  change (AuthProvider.current_access (set_timer None t))
    with (AuthProvider.current_access t).
  apply next_delay_cases.
Qed.

End AuthProps.

(** * Further properties of the subscription manager *)

Module HookExtras.
Import JS Ws.
Import Sample(btc_full, btc_price, summary_frame, batch_frame, summaries_response).

(** *** Objects and maps *)

Lemma obj_lookup_set (k k' : string) (v : value) (o : list (string * value)) :
  obj_lookup k (obj_set k' v o)
  = if String.eqb k k' then Some v else obj_lookup k o.
Proof.
  induction o as [| [k0 v0] o IH]; simpl; [reflexivity |].
  destruct (String.eqb k' k0) eqn:E0; simpl.
  - apply String.eqb_eq in E0. subst k0.
    destruct (String.eqb k k'); reflexivity.
  - destruct (String.eqb k k0) eqn:E1.
    + apply String.eqb_eq in E1. subst k0.
      rewrite String.eqb_sym in E0. now rewrite E0.
    + exact IH.
Qed.

Lemma obj_lookup_app (k : string) (l1 l2 : list (string * value)) :
  obj_lookup k (l1 ++ l2)
  = match obj_lookup k l1 with Some v => Some v | None => obj_lookup k l2 end.
Proof.
  induction l1 as [| [k0 v0] l1 IH]; simpl; [reflexivity |].
  destruct (String.eqb k k0); [reflexivity | exact IH].
Qed.

Lemma obj_lookup_absent (k : string) (l : list (string * value)) :
  ~ In k (List.map fst l) -> obj_lookup k l = None.
Proof.
  induction l as [| [k0 v0] l IH]; simpl; [reflexivity |].
  intros H. destruct (String.eqb k k0) eqn:E.
  - apply String.eqb_eq in E. subst k0. tauto.
  - apply IH. tauto.
Qed.

Lemma obj_lookup_rev (k : string) (l : list (string * value)) :
  List.NoDup (List.map fst l) -> obj_lookup k (rev l) = obj_lookup k l.
Proof.
  induction l as [| [k0 v0] l IH]; simpl; [reflexivity |].
  intros Hnd. inversion Hnd as [| ? ? Hnotin Hnd']; subst.
  rewrite obj_lookup_app, (IH Hnd'). simpl.
  destruct (String.eqb k k0) eqn:E.
  - apply String.eqb_eq in E. subst k0. now rewrite (obj_lookup_absent k l Hnotin).
  - destruct (obj_lookup k l); reflexivity.
Qed.

Lemma obj_lookup_fold (k : string) (props o : list (string * value)) :
  obj_lookup k (fold_left (fun o kv => obj_set (fst kv) (snd kv) o) props o)
  = match obj_lookup k (rev props) with
    | Some v => Some v
    | None => obj_lookup k o
    end.
Proof.
  revert o. induction props as [| [k0 v0] props IH]; intros o; simpl;
    [reflexivity |].
  rewrite IH, obj_lookup_app, obj_lookup_set. simpl.
  destruct (obj_lookup k (rev props)); [reflexivity |].
  destruct (String.eqb k k0); reflexivity.
Qed.

(** [{...a, ...d}] read by key: [d]'s value where [d] has the key, else
    [a]'s. *)
Lemma spread2_lookup (k : string) (a d : list (string * value)) :
  List.NoDup (List.map fst a) -> List.NoDup (List.map fst d) ->
  obj_lookup k (spread2 (VObj a) (VObj d))
  = match obj_lookup k d with Some v => Some v | None => obj_lookup k a end.
Proof.
  intros Ha Hd. unfold spread2. simpl.
  rewrite !obj_lookup_fold, (obj_lookup_rev k d Hd), (obj_lookup_rev k a Ha).
  simpl. destruct (obj_lookup k d); [reflexivity |].
  destruct (obj_lookup k a); reflexivity.
Qed.

Lemma key_eqb_eq (a b : value) : key_eqb a b = true -> a = b.
Proof.
  destruct a, b; simpl; intros H; try discriminate H; try reflexivity.
  - apply Bool.eqb_prop in H. now subst.
  - apply Z.eqb_eq in H. now subst.
  - apply String.eqb_eq in H. now subst.
Qed.

Lemma key_eqb_sym (a b : value) : key_eqb a b = key_eqb b a.
Proof.
  destruct a, b; simpl; try reflexivity.
  - destruct b0, b; reflexivity.
  - apply Z.eqb_sym.
  - apply String.eqb_sym.
Qed.

Lemma Map_get_set_same {V : Type} (k : value) (v : V) (m : Map V) :
  key_eqb k k = true -> Map_get k (Map_set k v m) = Some v.
Proof.
  intros Hk. induction m as [| [k0 v0] m IH]; simpl.
  - now rewrite Hk.
  - destruct (key_eqb k k0) eqn:E; simpl; rewrite E; [reflexivity | exact IH].
Qed.

Lemma Map_get_set_other {V : Type} (k k' : value) (v : V) (m : Map V) :
  key_eqb k k' = false -> Map_get k' (Map_set k v m) = Map_get k' m.
Proof.
  intros Hk. induction m as [| [k0 v0] m IH]; simpl.
  - rewrite key_eqb_sym. now rewrite Hk.
  - destruct (key_eqb k k0) eqn:E; simpl.
    + apply key_eqb_eq in E. subst k0.
      rewrite key_eqb_sym. now rewrite Hk.
    + destruct (key_eqb k' k0); [reflexivity | exact IH].
Qed.

(** *** Incoming frames *)

Lemma merge_entry_object (m : Map value) (sym : string) (d : list (string * value)) :
  obj_lookup "symbol" d = Some (VStr sym) ->
  List.NoDup (List.map fst d) ->
  exists existing merged,
    existing = match Map_get (VStr sym) m with
               | Some e => if truthy e then e else VObj []
               | None => VObj []
               end
    /\ merged = spread2 existing (VObj d)
    /\ AppHooks.merge_entry (VObj d) m = Some (Map_set (VStr sym) (VObj merged) m).
Proof.
  intros Hsym Hd. eexists. eexists. split; [reflexivity |]. split; [reflexivity |].
  unfold AppHooks.merge_entry. simpl. rewrite Hsym. simpl.
  set (existing := match Map_get (VStr sym) m with
                   | Some e => if truthy e then e else VObj []
                   | None => VObj []
                   end).
  assert (Hm : obj_lookup "symbol" (spread2 existing (VObj d)) = Some (VStr sym)).
  { unfold spread2. rewrite obj_lookup_fold. simpl own_props.
    now rewrite (obj_lookup_rev "symbol" d Hd), Hsym. }
  now rewrite Hm.
Qed.

Lemma onmessage_summary (d : value) (m : Map value) :
  truthy d = true ->
  AppHooks.onmessage_parsed (summary_frame d) m
  = default m (AppHooks.merge_entry d m).
Proof.
  intros Hd. unfold AppHooks.onmessage_parsed, summary_frame.
  cbn [get_prop obj_lookup String.eqb Ascii.eqb Bool.eqb default is_str].
  unfold id. simpl. now rewrite Hd.
Qed.

Lemma onmessage_batch (ds : list value) (m : Map value) :
  AppHooks.onmessage_parsed (batch_frame ds) m = AppHooks.merge_batch ds m.
Proof. reflexivity. Qed.

(** X1: a summary or one-entry batch for a symbol that already has an object in
    the cache is merged onto it: afterwards [getLatest] returns an object in
    which every key of the update has the update's value and every other key
    keeps the value it had. *)
Theorem onmessage_merges (m : Map value) (sym : string)
    (a d : list (string * value)) (frame : option value) :
  Map_get (VStr sym) m = Some (VObj a) ->
  obj_lookup "symbol" d = Some (VStr sym) ->
  List.NoDup (List.map fst a) -> List.NoDup (List.map fst d) ->
  frame = summary_frame (VObj d) \/ frame = batch_frame [VObj d] ->
  exists merged,
    Map_get (VStr sym) (AppHooks.onmessage_parsed frame m) = Some (VObj merged)
    /\ forall k, obj_lookup k merged
                 = match obj_lookup k d with
                   | Some v => Some v
                   | None => obj_lookup k a
                   end.
Proof.
  intros Hm Hsym Ha Hd Hframe.
  destruct (merge_entry_object m sym d Hsym Hd) as (ex & merged & Hex & Hmg & Hme).
  rewrite Hm in Hex. simpl in Hex. subst ex.
  exists merged. split.
  - destruct Hframe as [-> | ->].
    + rewrite onmessage_summary by reflexivity. rewrite Hme. simpl.
      apply Map_get_set_same. simpl. apply String.eqb_refl.
    + rewrite onmessage_batch. cbn [AppHooks.merge_batch]. rewrite Hme.
      apply Map_get_set_same. simpl. apply String.eqb_refl.
  - intros k. subst merged. now apply spread2_lookup.
Qed.

Lemma onmessage_merges_witness :
  exists merged,
    Map_get (VStr "BTCUSDT")
      (AppHooks.onmessage_parsed (summary_frame btc_price)
         (AppHooks.onmessage_parsed (summary_frame btc_full) []))
    = Some (VObj merged)
    /\ obj_lookup "last_price" merged = Some (VNum 101)
    /\ obj_lookup "volume" merged = Some (VNum 5).
Proof.
  destruct (onmessage_merges
              (AppHooks.onmessage_parsed (summary_frame btc_full) [])
              "BTCUSDT"
              [("symbol", VStr "BTCUSDT"); ("last_price", VNum 100); ("volume", VNum 5)]
              [("symbol", VStr "BTCUSDT"); ("last_price", VNum 101)]
              (summary_frame btc_price))
    as (merged & Hget & Hk).
  - reflexivity.
  - reflexivity.
  - repeat constructor; simpl; intuition discriminate.
  - repeat constructor; simpl; intuition discriminate.
  - left. reflexivity.
  - exists merged. split; [exact Hget |].
    split; [exact (Hk "last_price") | exact (Hk "volume")].
Defined.

(** X2: a summary for one symbol leaves the cached entry of every other symbol
    as it was. *)
Theorem onmessage_other_symbols (m : Map value) (sym other : string)
    (d : list (string * value)) :
  obj_lookup "symbol" d = Some (VStr sym) ->
  List.NoDup (List.map fst d) ->
  sym <> other ->
  Map_get (VStr other) (AppHooks.onmessage_parsed (summary_frame (VObj d)) m)
  = Map_get (VStr other) m.
Proof.
  intros Hsym Hd Hne.
  destruct (merge_entry_object m sym d Hsym Hd) as (ex & merged & _ & _ & Hme).
  rewrite onmessage_summary by reflexivity. rewrite Hme. simpl.
  apply Map_get_set_other. simpl. now apply String.eqb_neq.
Qed.

Lemma onmessage_other_symbols_witness :
  Map_get (VStr "ETHUSDT")
    (AppHooks.onmessage_parsed (summary_frame btc_price)
       [(VStr "ETHUSDT", VObj [("symbol", VStr "ETHUSDT")])])
  = Some (VObj [("symbol", VStr "ETHUSDT")]).
Proof.
  apply (onmessage_other_symbols
           [(VStr "ETHUSDT", VObj [("symbol", VStr "ETHUSDT")])]
           "BTCUSDT" "ETHUSDT"
           [("symbol", VStr "BTCUSDT"); ("last_price", VNum 101)]).
  - reflexivity.
  - repeat constructor; simpl; intuition discriminate.
  - discriminate.
Defined.

(** X3: a batch is applied entry by entry until the first [null] entry: the
    entries before it are merged, the entries after it are dropped, and the
    handler still returns normally. *)
Theorem batch_stops_at_null (ds1 ds2 : list value) (m : Map value) :
  Forall (fun d => d <> VNull /\ d <> VUndef) ds1 ->
  AppHooks.onmessage_parsed (batch_frame (ds1 ++ VNull :: ds2)) m
  = AppHooks.onmessage_parsed (batch_frame ds1) m.
Proof.
  intros Hds. rewrite !onmessage_batch.
  revert m. induction Hds as [| d ds1 [Hn Hu] Hds IH]; intros m; simpl.
  - reflexivity.
  - destruct (AppHooks.merge_entry d m) as [m' |] eqn:E; [apply IH |].
    unfold AppHooks.merge_entry in E. destruct d; simpl in E; congruence.
Qed.

Lemma batch_stops_at_null_witness :
  AppHooks.onmessage_parsed (batch_frame ([btc_full] ++ VNull :: [btc_price])) []
  = AppHooks.onmessage_parsed (batch_frame [btc_full]) [].
Proof.
  apply (batch_stops_at_null [btc_full] [btc_price] []).
  repeat constructor; discriminate.
Defined.

(** *** The order-independent comparison *)

Lemma ascii_compare_refl (c : ascii) : Ascii.compare c c = Eq.
Proof. unfold Ascii.compare. apply N.compare_refl. Qed.

Lemma str_compare_lt_trans (a b c : string) :
  String.compare a b = Lt -> String.compare b c = Lt -> String.compare a c = Lt.
Proof.
  revert b c. induction a as [| x a IH]; intros [| y b] [| z c]; simpl;
    try discriminate; try reflexivity.
  destruct (Ascii.compare x y) eqn:Exy; destruct (Ascii.compare y z) eqn:Eyz;
    intros H1 H2; try discriminate.
  - apply Ascii.compare_eq_iff in Exy, Eyz. subst y z.
    rewrite ascii_compare_refl. now apply (IH b c).
  - apply Ascii.compare_eq_iff in Exy. subst y. now rewrite Eyz.
  - apply Ascii.compare_eq_iff in Eyz. subst z. now rewrite Exy.
  - unfold Ascii.compare in *. rewrite N.compare_lt_iff in *.
    assert (Hlt : (N_of_ascii x < N_of_ascii z)%N) by lia.
    apply N.compare_lt_iff in Hlt. now rewrite Hlt.
Qed.

Lemma str_le_cases (a b : string) :
  str_le a b <-> String.compare a b = Lt \/ a = b.
Proof.
  unfold str_le, String.leb. split.
  - destruct (String.compare a b) eqn:E; intros H; try discriminate H.
    + right. now apply String.compare_eq_iff.
    + now left.
  - intros [-> | ->]; [reflexivity |].
    assert (H : String.compare b b = Eq).
    { induction b as [| x b IH]; simpl; [reflexivity |].
      now rewrite ascii_compare_refl. }
    now rewrite H.
Qed.

#[local] Instance str_le_trans : Transitive str_le.
Proof.
  intros a b c Hab Hbc. apply str_le_cases in Hab, Hbc. apply str_le_cases.
  destruct Hab as [Hab | ->], Hbc as [Hbc | ->]; auto.
  left. now apply (str_compare_lt_trans a b c).
Qed.

#[local] Instance str_le_antisym : AntiSymm (=) str_le.
Proof. intros a b Hab Hba. now apply String.leb_antisym. Qed.

Lemma insert_sorted_perm (x : string) (l : list string) :
  Permutation (insert_sorted x l) (x :: l).
Proof.
  induction l as [| y l IH]; simpl; [reflexivity |].
  destruct (String.leb x y); [reflexivity |].
  rewrite IH. apply perm_swap.
Qed.

Lemma insert_sorted_sorted (x : string) (l : list string) :
  Sorted str_le l -> Sorted str_le (insert_sorted x l).
Proof.
  induction l as [| y l IH]; simpl; intros Hl.
  - repeat constructor.
  - destruct (String.leb x y) eqn:E.
    + constructor; [exact Hl | constructor; exact E].
    + inversion Hl as [| ? ? Hl' Hhd]; subst.
      constructor; [now apply IH |].
      assert (Hyx : str_le y x).
      { destruct (String.leb_total x y) as [H | H]; [congruence | exact H]. }
      destruct l as [| z l]; simpl.
      * constructor. exact Hyx.
      * destruct (String.leb x z); constructor; [exact Hyx |].
        now inversion Hhd.
Qed.

Lemma sort_perm (l : list string) : Permutation (sort l) l.
Proof.
  induction l as [| x l IH]; simpl; [reflexivity |].
  rewrite insert_sorted_perm. now constructor.
Qed.

Lemma sort_sorted (l : list string) : Sorted str_le (sort l).
Proof.
  induction l as [| x l IH]; simpl; [constructor |].
  now apply insert_sorted_sorted.
Qed.

Lemma filter_perm {A : Type} (f : A -> bool) (l1 l2 : list A) :
  Permutation l1 l2 -> Permutation (List.filter f l1) (List.filter f l2).
Proof.
  induction 1 as [| x l1 l2 Hp IH | x y l | l1 l2 l3 H1 IH1 H2 IH2]; simpl.
  - constructor.
  - destruct (f x); [now constructor | exact IH].
  - destruct (f x), (f y); try reflexivity. apply perm_swap.
  - now transitivity (List.filter f l2).
Qed.

Lemma normalize_perm (l1 l2 : list string) :
  Permutation (List.map toUpperCase l1) (List.map toUpperCase l2) ->
  AppHooks.normalize l1 = AppHooks.normalize l2.
Proof.
  intros Hp. unfold AppHooks.normalize.
  apply (Sorted_unique str_le); try apply sort_sorted.
  rewrite !sort_perm. now apply filter_perm.
Qed.

Lemma Set_of_list_nonempty (x : string) (l : list string) :
  Set_of_list (x :: l) <> [].
Proof.
  intros H. assert (Hin : In x (Set_of_list (x :: l)))
    by (apply HookProps.Set_of_list_In; now left).
  rewrite H in Hin. exact Hin.
Qed.

(** *** Reconciliation *)

(** X4: on an OPEN socket [connectWS] compares the visible symbols with what was
    last sent, ignoring order and letter case: when they agree nothing happens
    at all; when they differ exactly one replace message with the visible
    list goes out on the same socket, [lastSentSymbols] is updated, and no
    socket is opened or closed. *)
Theorem connectWS_open (api : option string) (enc : string -> string)
    (x : string) (symbols l0 : list string) (id : nat) (h : AppHooks.Hook) :
  AppHooks.wsRef h = Some id ->
  AppHooks.lastSentSymbols h = Some (AppHooks.normalize l0) ->
  let h' := AppHooks.connectWS api enc (x :: symbols) OPEN h in
  (Permutation (List.map toUpperCase (x :: symbols)) (List.map toUpperCase l0) ->
   h' = h)
  /\ (AppHooks.normalize (x :: symbols) <> AppHooks.normalize l0 ->
      AppHooks.effects h'
      = (AppHooks.effects h ++ [WsSendReplace id (x :: symbols)])%list
      /\ AppHooks.lastSentSymbols h' = Some (AppHooks.normalize (x :: symbols))
      /\ AppHooks.wsRef h' = Some id
      /\ AppHooks.next_ws h' = AppHooks.next_ws h).
Proof.
  intros Hws Hlast h'. subst h'. unfold AppHooks.connectWS.
  destruct (Set_of_list ((x :: symbols) ++ AppHooks.extraSymbolsRef h)) eqn:Hall.
  { exfalso. revert Hall. apply (Set_of_list_nonempty x). }
  rewrite Hws. unfold AppHooks.sameAsLast. rewrite Hlast. split.
  - intros Hp. rewrite (normalize_perm _ _ Hp).
    now rewrite bool_decide_eq_true_2.
  - intros Hne. rewrite bool_decide_eq_false_2 by exact Hne.
    simpl. repeat split. exact Hws.
Qed.

Lemma connectWS_open_witness :
  AppHooks.connectWS None Sample.encode_unreserved ["ethusdt"; "BTCUSDT"] OPEN
    (AppHooks.set_lastSentSymbols
       (Some (AppHooks.normalize ["BTCUSDT"; "ETHUSDT"]))
       (AppHooks.set_wsRef (Some 0%nat) AppHooks.mount))
  = AppHooks.set_lastSentSymbols
      (Some (AppHooks.normalize ["BTCUSDT"; "ETHUSDT"]))
      (AppHooks.set_wsRef (Some 0%nat) AppHooks.mount).
Proof.
  apply (connectWS_open None Sample.encode_unreserved "ethusdt" ["BTCUSDT"]
           ["BTCUSDT"; "ETHUSDT"] 0%nat
           (AppHooks.set_lastSentSymbols
              (Some (AppHooks.normalize ["BTCUSDT"; "ETHUSDT"]))
              (AppHooks.set_wsRef (Some 0%nat) AppHooks.mount))).
  - reflexivity.
  - reflexivity.
  - apply perm_swap.
Defined.

Lemma Set_add_NoDup (x : string) (l : list string) :
  List.NoDup l -> List.NoDup (Set_add x l).
Proof.
  intros Hl. unfold Set_add. destruct (Set_has x l) eqn:E; [exact Hl |].
  apply List.NoDup_app; [exact Hl | repeat constructor; intros [] |].
  intros y Hy [<- | []]. apply HookProps.Set_has_In in Hy. congruence.
Qed.

Lemma Set_of_list_NoDup (l : list string) : List.NoDup (Set_of_list l).
Proof.
  unfold Set_of_list.
  assert (H : forall acc, List.NoDup acc ->
                List.NoDup (fold_left (fun s x => Set_add x s) l acc)).
  { induction l as [| x l IH]; intros acc Hacc; simpl; [exact Hacc |].
    apply IH. now apply Set_add_NoDup. }
  apply H. constructor.
Qed.

(** X5: with no socket, and at least one visible or pinned symbol, [connectWS]
    opens exactly one socket and points [wsRef] at it; the symbol list in its
    URL holds every visible and every pinned symbol, each once, and nothing
    else. *)
Theorem connectWS_opens_union (api : option string) (enc : string -> string)
    (symbols : list string) (ready : ReadyState) (h : AppHooks.Hook) :
  AppHooks.wsRef h = None ->
  (symbols ++ AppHooks.extraSymbolsRef h)%list <> [] ->
  let h' := AppHooks.connectWS api enc symbols ready h in
  exists all,
    AppHooks.effects h'
    = (AppHooks.effects h
       ++ [WsNew (AppHooks.next_ws h) (AppHooks.ws_url api enc all)])%list
    /\ AppHooks.wsRef h' = Some (AppHooks.next_ws h)
    /\ AppHooks.next_ws h' = S (AppHooks.next_ws h)
    /\ List.NoDup all
    /\ forall s, In s all <-> In s symbols \/ In s (AppHooks.extraSymbolsRef h).
Proof.
  intros Hws Hne h'. subst h'.
  assert (Hall : Set_of_list (symbols ++ AppHooks.extraSymbolsRef h) <> []).
  { destruct (symbols ++ AppHooks.extraSymbolsRef h)%list as [| x l];
      [congruence |].
    apply Set_of_list_nonempty. }
  destruct (Set_of_list (symbols ++ AppHooks.extraSymbolsRef h)) as [| a all]
    eqn:E; [congruence |].
  exists (a :: all). unfold AppHooks.connectWS. rewrite E, Hws.
  split; [reflexivity |]. split; [reflexivity |]. split; [reflexivity |].
  rewrite <- E. split; [apply Set_of_list_NoDup |].
  intros s. rewrite HookProps.Set_of_list_In, in_app_iff. reflexivity.
Qed.

Lemma connectWS_opens_union_witness :
  exists all,
    AppHooks.effects
      (AppHooks.connectWS None Sample.encode_unreserved ["BTCUSDT"] CLOSED
         (AppHooks.set_extraSymbolsRef ["ETHUSDT"; "BTCUSDT"] AppHooks.mount))
    = [WsNew 0 (AppHooks.ws_url None Sample.encode_unreserved all)]
    /\ List.NoDup all.
Proof.
  destruct (connectWS_opens_union None Sample.encode_unreserved ["BTCUSDT"] CLOSED
              (AppHooks.set_extraSymbolsRef ["ETHUSDT"; "BTCUSDT"] AppHooks.mount))
    as (all & He & _ & _ & Hnd & _).
  - reflexivity.
  - discriminate.
  - exists all. split; [exact He | exact Hnd].
Defined.

(** X6: when neither a visible nor a pinned symbol is left, [connectWS] closes
    the socket it holds, if any, forgets it, and opens none. *)
Theorem connectWS_empty_target (api : option string) (enc : string -> string)
    (ready : ReadyState) (h : AppHooks.Hook) :
  AppHooks.extraSymbolsRef h = [] ->
  let h' := AppHooks.connectWS api enc [] ready h in
  AppHooks.wsRef h' = None
  /\ AppHooks.next_ws h' = AppHooks.next_ws h
  /\ AppHooks.effects h'
     = (AppHooks.effects h
        ++ match AppHooks.wsRef h with
           | Some id => [WsClose id]
           | None => []
           end)%list.
Proof.
  intros Hex h'. subst h'. unfold AppHooks.connectWS. rewrite Hex. simpl.
  destruct (AppHooks.wsRef h) eqn:E; simpl; repeat split; auto.
  now rewrite app_nil_r.
Qed.

Lemma connectWS_empty_target_witness :
  AppHooks.effects
    (AppHooks.connectWS None Sample.encode_unreserved [] OPEN
       (AppHooks.set_wsRef (Some 3%nat) AppHooks.mount))
  = [WsClose 3].
Proof.
  apply (connectWS_empty_target None Sample.encode_unreserved OPEN
           (AppHooks.set_wsRef (Some 3%nat) AppHooks.mount)).
  reflexivity.
Defined.

(** *** Visibility *)

Lemma Set_delete_In (x y : string) (l : list string) :
  In x (Set_delete y l) <-> In x l /\ x <> y.
Proof.
  unfold Set_delete. rewrite filter_In, negb_true_iff, String.eqb_neq.
  split; intros [H1 H2]; split; auto.
Qed.

Lemma node_get_delete (n n2 : nat) (m : list (nat * string)) :
  AppHooks.node_get n2 (AppHooks.node_delete n m)
  = if Nat.eqb n n2 then None else AppHooks.node_get n2 m.
Proof.
  unfold AppHooks.node_delete.
  induction m as [| [k v] m IH]; simpl.
  - destruct (Nat.eqb n n2); reflexivity.
  - destruct (Nat.eqb n k) eqn:Enk; simpl.
    + rewrite IH. apply Nat.eqb_eq in Enk. subst k.
      rewrite (Nat.eqb_sym n2 n). destruct (Nat.eqb n n2); reflexivity.
    + rewrite IH. destruct (Nat.eqb n2 k) eqn:E2; [| reflexivity].
      apply Nat.eqb_eq in E2. subst k. now rewrite Enk.
Qed.

Lemma scheduleVisibleUpdate_keeps (batchMs : Z) (h : AppHooks.Hook) :
  AppHooks.visibleSet (AppHooks.scheduleVisibleUpdate batchMs h)
  = AppHooks.visibleSet h
  /\ AppHooks.nodeToSymbol (AppHooks.scheduleVisibleUpdate batchMs h)
     = AppHooks.nodeToSymbol h.
Proof.
  unfold AppHooks.scheduleVisibleUpdate.
  destruct (AppHooks.pendingVisibleChange h); split; reflexivity.
Qed.

(** X7: [unobserve(node)] takes the node's symbol out of VisibleSet even when
    other registered nodes still show that symbol: only the unobserved node
    leaves the node map, every other node keeps its symbol, and the symbol is
    no longer visible. *)
Theorem unobserve_drops_symbol (batchMs : Z) (n : nat) (sym : string)
    (h : AppHooks.Hook) :
  AppHooks.node_get n (AppHooks.nodeToSymbol h) = Some sym ->
  let h' := AppHooks.unobserve batchMs (Some n) h in
  ~ In sym (AppHooks.visibleSet h')
  /\ AppHooks.node_get n (AppHooks.nodeToSymbol h') = None
  /\ forall n2, n2 <> n ->
       AppHooks.node_get n2 (AppHooks.nodeToSymbol h')
       = AppHooks.node_get n2 (AppHooks.nodeToSymbol h).
Proof.
  intros Hn h'. subst h'. unfold AppHooks.unobserve. rewrite Hn.
  destruct (scheduleVisibleUpdate_keeps batchMs
              (AppHooks.set_visibleSet
                 (Set_delete sym
                    (AppHooks.visibleSet
                       (AppHooks.set_nodeToSymbol
                          (AppHooks.node_delete n (AppHooks.nodeToSymbol h)) h)))
                 (AppHooks.set_nodeToSymbol
                    (AppHooks.node_delete n (AppHooks.nodeToSymbol h)) h)))
    as [Hv Hm].
  rewrite Hv, Hm. simpl. split; [| split].
  - intros H. apply Set_delete_In in H. tauto.
  - rewrite node_get_delete. now rewrite Nat.eqb_refl.
  - intros n2 Hne. rewrite node_get_delete.
    destruct (Nat.eqb_spec n n2); [congruence | reflexivity].
Qed.

Lemma unobserve_drops_symbol_witness :
  let h := AppHooks.onIntersect 200 [(1%nat, true); (2%nat, true)]
             (AppHooks.observe (Some 2%nat) "BTCUSDT"
                (AppHooks.observe (Some 1%nat) "BTCUSDT" AppHooks.mount)) in
  AppHooks.visibleSet h = ["BTCUSDT"]
  /\ ~ In "BTCUSDT" (AppHooks.visibleSet (AppHooks.unobserve 200 (Some 1%nat) h))
  /\ AppHooks.node_get 2 (AppHooks.nodeToSymbol (AppHooks.unobserve 200 (Some 1%nat) h))
     = Some "BTCUSDT".
Proof.
  intros h. split; [reflexivity |].
  destruct (unobserve_drops_symbol 200 1%nat "BTCUSDT" h) as (Hv & _ & Hn).
  - reflexivity.
  - split; [exact Hv |]. rewrite (Hn 2%nat) by discriminate. reflexivity.
Defined.

(** X8: a burst of visibility changes arms one timer: each call of
    [scheduleVisibleUpdate] cancels the timer armed by the call before it. *)
Theorem scheduleVisibleUpdate_debounces (batchMs : Z) (h : AppHooks.Hook) :
  let h1 := AppHooks.scheduleVisibleUpdate batchMs h in
  let h2 := AppHooks.scheduleVisibleUpdate batchMs h1 in
  AppHooks.pendingVisibleChange h1 = Some (AppHooks.next_timer h)
  /\ AppHooks.effects h2
     = (AppHooks.effects h1
        ++ [ClearTimeout (AppHooks.next_timer h);
            SetTimeout (S (AppHooks.next_timer h)) batchMs])%list
  /\ AppHooks.pendingVisibleChange h2 = Some (S (AppHooks.next_timer h)).
Proof.
  intros h1 h2. subst h1 h2. unfold AppHooks.scheduleVisibleUpdate.
  destruct (AppHooks.pendingVisibleChange h); simpl;
    rewrite <- ?app_assoc; repeat split.
Qed.

(** X9: ExtraSymbols stays a set of upper-case entries without duplicates:
    pinning a symbol that is already pinned, in any letter case, changes
    nothing, and neither pinning nor unpinning introduces a duplicate. *)
Theorem extra_symbols_stay_a_set (batchMs : Z) (s t : string) (h : AppHooks.Hook) :
  toUpperCase s = toUpperCase t ->
  List.NoDup (AppHooks.extraSymbolsRef h) ->
  AppHooks.extraSymbolsRef
    (AppHooks.addExtraSymbol batchMs t (AppHooks.addExtraSymbol batchMs s h))
  = AppHooks.extraSymbolsRef (AppHooks.addExtraSymbol batchMs s h)
  /\ List.NoDup (AppHooks.extraSymbolsRef (AppHooks.addExtraSymbol batchMs s h))
  /\ List.NoDup (AppHooks.extraSymbolsRef (AppHooks.removeExtraSymbol batchMs s h))
  /\ (s <> "" ->
      In (toUpperCase s)
        (AppHooks.extraSymbolsRef (AppHooks.addExtraSymbol batchMs s h))
      /\ ~ In (toUpperCase s)
           (AppHooks.extraSymbolsRef (AppHooks.removeExtraSymbol batchMs s h))).
Proof.
  intros Hst Hnd.
  assert (Hadd : forall x, AppHooks.extraSymbolsRef (AppHooks.addExtraSymbol batchMs x h)
                = if String.eqb x "" then AppHooks.extraSymbolsRef h
                  else Set_add (toUpperCase x) (AppHooks.extraSymbolsRef h)).
  { intros x. unfold AppHooks.addExtraSymbol. destruct (String.eqb x "");
      [reflexivity |]. now rewrite HookProps.scheduleVisibleUpdate_extras. }
  assert (Hrem : AppHooks.extraSymbolsRef (AppHooks.removeExtraSymbol batchMs s h)
                = if String.eqb s "" then AppHooks.extraSymbolsRef h
                  else Set_delete (toUpperCase s) (AppHooks.extraSymbolsRef h)).
  { unfold AppHooks.removeExtraSymbol. destruct (String.eqb s "");
      [reflexivity |]. now rewrite HookProps.scheduleVisibleUpdate_extras. }
  split; [| split; [| split]].
  - unfold AppHooks.addExtraSymbol at 1.
    destruct (String.eqb t "") eqn:Et; [reflexivity |].
    rewrite HookProps.scheduleVisibleUpdate_extras. simpl. rewrite Hadd.
    destruct (String.eqb s "") eqn:Es.
    + apply String.eqb_eq in Es. subst s. simpl in Hst. symmetry in Hst.
      apply (proj1 (HookProps.toUpperCase_empty t)) in Hst. subst t.
      discriminate Et.
    + rewrite <- Hst. unfold Set_add at 1.
      assert (Hin : Set_has (toUpperCase s)
                      (Set_add (toUpperCase s) (AppHooks.extraSymbolsRef h)) = true).
      { apply HookProps.Set_has_In, HookProps.Set_add_In. now left. }
      now rewrite Hin.
  - rewrite Hadd. destruct (String.eqb s ""); [exact Hnd |].
    now apply Set_add_NoDup.
  - rewrite Hrem. destruct (String.eqb s ""); [exact Hnd |].
    unfold Set_delete. now apply List.NoDup_filter.
  - intros Hne. apply String.eqb_neq in Hne. rewrite Hadd, Hrem, Hne. split.
    + apply HookProps.Set_add_In. now left.
    + intros H. apply Set_delete_In in H. tauto.
Qed.

Lemma extra_symbols_stay_a_set_witness :
  AppHooks.extraSymbolsRef
    (AppHooks.addExtraSymbol 200 "ETHUSDT"
       (AppHooks.addExtraSymbol 200 "ethusdt" AppHooks.mount))
  = ["ETHUSDT"].
Proof.
  destruct (extra_symbols_stay_a_set 200 "ethusdt" "ETHUSDT" AppHooks.mount)
    as (H & _).
  - reflexivity.
  - constructor.
  - rewrite H. reflexivity.
Defined.

(** X26: the reconnect after a close looks at VisibleSet only.  With no
    visible symbol it does nothing, however many symbols are pinned: after the
    close handler and the reconnect timer, the only effect is the timer
    itself, no socket was opened, and [wsRef] still holds the closed socket. *)
Theorem reconnect_ignores_pinned_symbols (api : option string)
    (enc : string -> string) (jitter : Z) (ready : ReadyState) (h : AppHooks.Hook) :
  AppHooks.visibleSet h = [] ->
  let h' := AppHooks.reconnect api enc ready (AppHooks.onclose jitter h) in
  AppHooks.effects h'
  = (AppHooks.effects h ++ [SetTimeout (AppHooks.next_timer h) (1000 + jitter)])%list
  /\ AppHooks.wsRef h' = AppHooks.wsRef h
  /\ AppHooks.extraSymbolsRef h' = AppHooks.extraSymbolsRef h
  /\ AppHooks.lastSentSymbols h' = None.
Proof.
  intros Hv h'. subst h'. unfold AppHooks.reconnect, AppHooks.onclose. simpl.
  rewrite Hv. repeat split.
Qed.

Lemma reconnect_ignores_pinned_symbols_witness :
  AppHooks.wsRef
    (AppHooks.reconnect None Sample.encode_unreserved CLOSED
       (AppHooks.onclose 250
          (AppHooks.set_visibleSet [] Sample.pinned)))
  = Some 0%nat.
Proof.
  destruct (reconnect_ignores_pinned_symbols None Sample.encode_unreserved 250
              CLOSED (AppHooks.set_visibleSet [] Sample.pinned)) as (_ & Hw & _).
  - reflexivity.
  - rewrite Hw. reflexivity.
Defined.

(** *** The snapshot fallback *)

(** X10: a snapshot request that fails in any way (network error, a status that
    is not ok, a body that is not JSON, a body without a [summaries] array)
    changes nothing: no cache entry, no cooldown stamp, no tick. *)
Theorem fetchSnapshot_failure_keeps_state (r : FetchResult) (now : Z)
    (h : AppHooks.Hook) :
  (r = NetworkError
   \/ (exists body, r = Http false body)
   \/ r = Http true None
   \/ (exists json, r = Http true (Some json)
         /\ forall l, get_prop json "summaries" <> Some (VArr l))) ->
  AppHooks.fetchSnapshot_end r now h = h.
Proof.
  intros [-> | [(body & ->) | [-> | (json & -> & Hj)]]]; try reflexivity.
  unfold AppHooks.fetchSnapshot_end.
  destruct (get_prop json "summaries") as [[] |] eqn:E; try reflexivity.
  now elim (Hj l).
Qed.

Lemma fetchSnapshot_failure_keeps_state_witness :
  AppHooks.fetchSnapshot_end (Http false None) Sample.T0 Sample.subscribed
  = Sample.subscribed.
Proof.
  apply (fetchSnapshot_failure_keeps_state (Http false None) Sample.T0
           Sample.subscribed).
  right. left. exists None. reflexivity.
Defined.

Lemma store_summaries_latest (l : list value) (now : Z) (h : AppHooks.Hook) :
  Forall (fun e => exists name, get_prop e "symbol" = Some (VStr name)) l ->
  AppHooks.latest (fst (AppHooks.store_summaries l now h))
  = fold_left (fun m e => Map_set (default VUndef (get_prop e "symbol")) e m) l
      (AppHooks.latest h)
  /\ AppHooks.tick (fst (AppHooks.store_summaries l now h)) = AppHooks.tick h.
Proof.
  intros Hl. revert h. induction Hl as [| e l (name & He) Hl IH]; intros h.
  - split; reflexivity.
  - simpl. rewrite He. simpl.
    set (h1 := AppHooks.set_lastSnapshotFetch _ _).
    destruct (IH h1) as [IH1 IH2]. rewrite IH1, IH2. split; reflexivity.
Qed.

Lemma fold_set_other (l : list value) (name : string) (m : Map value) :
  Forall (fun e => exists n, get_prop e "symbol" = Some (VStr n) /\ n <> name) l ->
  Map_get (VStr name)
    (fold_left (fun m e => Map_set (default VUndef (get_prop e "symbol")) e m) l m)
  = Map_get (VStr name) m.
Proof.
  intros Hl. revert m. induction Hl as [| e l (n & He & Hne) Hl IH]; intros m.
  - reflexivity.
  - simpl. rewrite IH, He. simpl. apply Map_get_set_other. simpl.
    now apply String.eqb_neq.
Qed.

(** X11: a stored snapshot replaces cache entries: after a 200 response whose
    entries all carry a string symbol, [getLatest(name)] is exactly the last
    entry listed for [name], whatever the cache held before, the tick has
    advanced by one and the cooldown stamp of the symbol is the time of
    arrival. *)
Theorem fetchSnapshot_overwrites (l1 l2 : list value) (e : value) (name : string)
    (now : Z) (h : AppHooks.Hook) :
  Forall (fun e => exists n, get_prop e "symbol" = Some (VStr n)) l1 ->
  get_prop e "symbol" = Some (VStr name) ->
  Forall (fun e => exists n, get_prop e "symbol" = Some (VStr n) /\ n <> name) l2 ->
  let h' := AppHooks.fetchSnapshot_end (summaries_response (l1 ++ e :: l2)) now h in
  AppHooks.getLatest name h' = Some e
  /\ AppHooks.tick h' = S (AppHooks.tick h)
  /\ AppHooks.lastSnapshotFetch h' !! toUpperCase name = Some now.
Proof.
  intros H1 He H2 h'.
  assert (Hall : Forall (fun e => exists n, get_prop e "symbol" = Some (VStr n))
                   (l1 ++ e :: l2)).
  { apply Forall_app. split; [exact H1 |]. constructor; [eauto |].
    eapply Forall_impl; [exact H2 |]. intros x (n & Hx & _). eauto. }
  destruct (HookProps.store_summaries_spec (l1 ++ e :: l2) now h Hall)
    as (hs & Hrun & _ & _ & _ & Hnew).
  destruct (store_summaries_latest (l1 ++ e :: l2) now h Hall) as [Hlat Htick].
  rewrite Hrun in Hlat, Htick. simpl in Hlat, Htick.
  assert (Hh' : h' = AppHooks.set_tick (S (AppHooks.tick hs)) hs).
  { subst h'. unfold AppHooks.fetchSnapshot_end, summaries_response. simpl.
    now rewrite Hrun. }
  rewrite Hh'. unfold AppHooks.getLatest. simpl. split; [| split].
  - rewrite Hlat, fold_left_app. simpl. rewrite (fold_set_other l2 name _ H2).
    rewrite He. simpl. apply Map_get_set_same. simpl. apply String.eqb_refl.
  - now rewrite Htick.
  - apply (Hnew e name); [| exact He]. apply in_app_iff. right. now left.
Qed.

Lemma fetchSnapshot_overwrites_witness :
  AppHooks.getLatest "BTCUSDT"
    (AppHooks.fetchSnapshot_end (summaries_response ([] ++ btc_price :: []))
       Sample.T0
       (AppHooks.set_latest [(VStr "BTCUSDT", btc_full)] AppHooks.mount))
  = Some btc_price.
Proof.
  apply (fetchSnapshot_overwrites [] [] btc_price "BTCUSDT" Sample.T0
           (AppHooks.set_latest [(VStr "BTCUSDT", btc_full)] AppHooks.mount)).
  - constructor.
  - reflexivity.
  - constructor.
Defined.

(** *** The older copy *)

(** X12: the older copy of [connectWS] never reuses a socket: with a socket in
    [wsRef] and at least one symbol, every reconciliation closes that socket
    and opens a new one. *)
Theorem legacy_connectWS_reconnects (api : option string) (enc : string -> string)
    (x : string) (symbols : list string) (id : nat) (h : AppHooks.Hook) :
  AppHooks.wsRef h = Some id ->
  exists all,
    AppHooks.effects (LegacyHooks.connectWS api enc (x :: symbols) h)
    = (AppHooks.effects h
       ++ [WsClose id; WsNew (AppHooks.next_ws h) (AppHooks.ws_url api enc all)])%list
    /\ AppHooks.wsRef (LegacyHooks.connectWS api enc (x :: symbols) h)
       = Some (AppHooks.next_ws h).
Proof.
  intros Hws. unfold LegacyHooks.connectWS. rewrite Hws. simpl.
  destruct (Set_of_list (x :: symbols ++ AppHooks.extraSymbolsRef h)) as [| a all]
    eqn:E.
  - exfalso. revert E. apply (Set_of_list_nonempty x).
  - exists (a :: all). simpl. rewrite <- app_assoc. split; reflexivity.
Qed.

Lemma legacy_connectWS_reconnects_witness :
  exists all,
    AppHooks.effects
      (LegacyHooks.connectWS None Sample.encode_unreserved ["BTCUSDT"]
         Sample.subscribed)
    = (AppHooks.effects Sample.subscribed
       ++ [WsClose 0; WsNew 1 (AppHooks.ws_url None Sample.encode_unreserved all)])%list.
Proof.
  destruct (legacy_connectWS_reconnects None Sample.encode_unreserved "BTCUSDT" []
              0%nat Sample.subscribed) as (all & He & _).
  - reflexivity.
  - exists all. exact He.
Defined.

End HookExtras.

(** * Frames of unexpected shape *)

Module FrameProps.
Import JS Ws.
Import Sample(btc_full, btc_price, summary_frame, batch_frame, parse_to).

Lemma obj_set_keys (k k' : string) (v : value) (o : list (string * value)) :
  In k' (List.map fst (obj_set k v o)) <-> k' = k \/ In k' (List.map fst o).
Proof.
  induction o as [| [k0 v0] o IH]; simpl.
  - intuition.
  - destruct (String.eqb k k0) eqn:E; simpl.
    + apply String.eqb_eq in E. subst k0. intuition.
    + rewrite IH. intuition.
Qed.

Lemma obj_set_NoDup (k : string) (v : value) (o : list (string * value)) :
  List.NoDup (List.map fst o) -> List.NoDup (List.map fst (obj_set k v o)).
Proof.
  induction o as [| [k0 v0] o IH]; simpl; intros Hnd.
  - constructor; [intros [] | constructor].
  - inversion Hnd as [| ? ? Hnotin Hnd']; subst.
    destruct (String.eqb k k0) eqn:E; simpl.
    + apply String.eqb_eq in E. subst k0. constructor; assumption.
    + constructor; [| now apply IH].
      rewrite obj_set_keys. intros [-> | Hin]; [| contradiction].
      now rewrite String.eqb_refl in E.
Qed.

Lemma spread2_NoDup (a d : value) : List.NoDup (List.map fst (spread2 a d)).
Proof.
  assert (H : forall props o, List.NoDup (List.map fst o) ->
            List.NoDup (List.map fst
              (fold_left (fun o kv => obj_set (fst kv) (snd kv) o) props o))).
  { induction props as [| [k v] props IH]; intros o Ho; simpl; [exact Ho |].
    apply IH, obj_set_NoDup, Ho. }
  unfold spread2. apply H, H. constructor.
Qed.

(** [{...a, ...d}.symbol]: the one of [d] when [d] has one, else the one of
    [a]. *)
Lemma spread2_symbol (a d : value) :
  obj_lookup "symbol" (spread2 a d)
  = match AppHooks.own_symbol d with
    | Some v => Some v
    | None => AppHooks.own_symbol a
    end.
Proof.
  unfold spread2, AppHooks.own_symbol. rewrite !HookExtras.obj_lookup_fold.
  destruct (obj_lookup "symbol" (rev (own_props d))); [reflexivity |].
  destruct (obj_lookup "symbol" (rev (own_props a))); reflexivity.
Qed.

Lemma obj_lookup_present (k : string) (l : list (string * value)) :
  obj_lookup k l = None -> ~ In k (List.map fst l).
Proof.
  induction l as [| [k0 v0] l IH]; simpl; [tauto |].
  destruct (String.eqb k k0) eqn:E; [discriminate |].
  intros H [-> | Hin]; [now rewrite String.eqb_refl in E | now apply IH].
Qed.

(** An entry without an own [symbol] is looked up under [undefined]. *)
Lemma own_symbol_absent (d sym : value) :
  AppHooks.own_symbol d = None -> get_prop d "symbol" = Some sym -> sym = VUndef.
Proof.
  unfold AppHooks.own_symbol. intros Hown Hget.
  destruct d; simpl in Hget; try congruence.
  simpl in Hown. apply obj_lookup_present in Hown.
  rewrite HookExtras.obj_lookup_absent in Hget.
  - simpl in Hget. congruence.
  - intros Hin. apply Hown. rewrite map_rev. apply in_rev.
    now rewrite rev_involutive.
Qed.

Lemma In_Map_set {V : Type} (k k' : value) (v v' : V) (m : Map V) :
  In (k', v') (Map_set k v m) -> In (k', v') m \/ (k' = k /\ v' = v).
Proof.
  induction m as [| [k0 v0] m IH]; simpl.
  - intros [H | []]. right. now inversion H.
  - destruct (key_eqb k k0) eqn:E; simpl.
    + apply HookExtras.key_eqb_eq in E. subst k0.
      intros [H | H]; [right; now inversion H | left; now right].
    + intros [H | H]; [left; now left |].
      destruct (IH H) as [Hin | Heq]; [left; now right | now right].
Qed.

Lemma Map_get_In {V : Type} (k : value) (v : V) (m : Map V) :
  Map_get k m = Some v -> In (k, v) m.
Proof.
  induction m as [| [k0 v0] m IH]; simpl; [discriminate |].
  destruct (key_eqb k k0) eqn:E.
  - apply HookExtras.key_eqb_eq in E. subst k0. intros H. left. congruence.
  - intros H. right. now apply IH.
Qed.

(** One merged entry keeps the cache keyed, and changes what is stored for
    a string symbol only when the entry carries that symbol. *)
Lemma merge_entry_frame (d : value) (m m' : Map value) :
  AppHooks.keyed m ->
  AppHooks.merge_entry d m = Some m' ->
  AppHooks.keyed m'
  /\ forall name, AppHooks.own_symbol d <> Some (VStr name) ->
       Map_get (VStr name) m' = Map_get (VStr name) m.
Proof.
  intros Hk. unfold AppHooks.merge_entry.
  destruct (get_prop d "symbol") as [sym |] eqn:Hsym; [| discriminate].
  set (existing := match Map_get sym m with
                   | Some e => if truthy e then e else VObj []
                   | None => VObj []
                   end).
  intros H. injection H as <-.
  pose proof (spread2_symbol existing d) as Hlook.
  pose proof (spread2_NoDup existing d) as Hnd.
  set (merged := spread2 existing d) in *.
  split.
  - intros k v Hin. apply In_Map_set in Hin.
    destruct Hin as [Hin | [-> ->]]; [now apply Hk |].
    unfold AppHooks.own_symbol. simpl own_props.
    now rewrite (HookExtras.obj_lookup_rev "symbol" merged Hnd).
  - intros name Hname. apply HookExtras.Map_get_set_other.
    destruct (key_eqb (default VUndef (obj_lookup "symbol" merged)) (VStr name))
      eqn:E; [| reflexivity].
    exfalso. apply HookExtras.key_eqb_eq in E. rewrite Hlook in E.
    destruct (AppHooks.own_symbol d) as [v |] eqn:Hown.
    + simpl in E. apply Hname. now rewrite E.
    + pose proof (own_symbol_absent d sym Hown Hsym) as ->.
      subst existing.
      destruct (Map_get VUndef m) as [e |] eqn:Hget; [| discriminate E].
      destruct (truthy e); [| discriminate E].
      apply Map_get_In, Hk in Hget. rewrite E in Hget. discriminate Hget.
Qed.

Lemma merge_batch_frame (ds : list value) (m : Map value) :
  AppHooks.keyed m ->
  AppHooks.keyed (AppHooks.merge_batch ds m)
  /\ forall name,
       (forall d, In d ds -> AppHooks.own_symbol d <> Some (VStr name)) ->
       Map_get (VStr name) (AppHooks.merge_batch ds m) = Map_get (VStr name) m.
Proof.
  revert m. induction ds as [| d ds IH]; intros m Hk; simpl.
  - split; [exact Hk | reflexivity].
  - destruct (AppHooks.merge_entry d m) as [m' |] eqn:Hm.
    + destruct (merge_entry_frame d m m' Hk Hm) as [Hk' Hsame].
      destruct (IH m' Hk') as [Hk'' Hrest].
      split; [exact Hk'' |]. intros name Hno.
      rewrite Hrest by (intros d' Hd'; apply Hno; now right).
      apply Hsame, Hno. now left.
    + split; [exact Hk | reflexivity].
Qed.

Lemma onmessage_parsed_frame (parsed : option value) (m : Map value) :
  AppHooks.keyed m ->
  AppHooks.keyed (AppHooks.onmessage_parsed parsed m)
  /\ forall name,
       (forall d, In d (AppHooks.frame_entries parsed) ->
                  AppHooks.own_symbol d <> Some (VStr name)) ->
       Map_get (VStr name) (AppHooks.onmessage_parsed parsed m)
       = Map_get (VStr name) m.
Proof.
  intros Hk. unfold AppHooks.onmessage_parsed, AppHooks.frame_entries.
  destruct parsed as [msg |]; [| now split].
  destruct (get_prop msg "type") as [ty |]; [| now split].
  destruct (get_prop msg "data") as [data |]; [| now split].
  destruct (is_str ty "summary" && truthy data)%bool.
  - destruct (AppHooks.merge_entry data m) as [m' |] eqn:Hm; [| now split].
    destruct (merge_entry_frame data m m' Hk Hm) as [Hk' Hsame].
    split; [exact Hk' |]. intros name Hno. apply Hsame, Hno. now left.
  - destruct (is_str ty "batch"); [| now split].
    destruct data; try now split.
    apply merge_batch_frame, Hk.
Qed.

(** The snapshot fallback files its entries the same way: objects are stored
    under their [symbol]. *)
Lemma store_summaries_keyed (l : list value) (now : Z) (h : AppHooks.Hook) :
  Forall (fun e => exists fields,
                     e = VObj fields /\ List.NoDup (List.map fst fields)) l ->
  AppHooks.keyed (AppHooks.latest h) ->
  AppHooks.keyed (AppHooks.latest (fst (AppHooks.store_summaries l now h))).
Proof.
  intros Hl. revert h.
  induction Hl as [| e l (fields & -> & Hnd) Hl IH]; intros h Hk; [exact Hk |].
  cbn [AppHooks.store_summaries get_prop].
  set (sym := default VUndef (obj_lookup "symbol" fields)).
  assert (Hk1 : AppHooks.keyed (Map_set sym (VObj fields) (AppHooks.latest h))).
  { intros k v Hin. apply In_Map_set in Hin.
    destruct Hin as [Hin | [-> ->]]; [now apply Hk |].
    unfold AppHooks.own_symbol. simpl own_props.
    now rewrite (HookExtras.obj_lookup_rev "symbol" fields Hnd). }
  destruct sym; try exact Hk1.
  apply IH. exact Hk1.
Qed.

(** C7, the claim as stated fails: the frame [{type:"summary", data:42}] is
    no recognised summary, yet it is not dropped: the cache gains an entry under the key
    [undefined].  The batch [[{symbol:"BTCUSDT", ...}, null]] is applied up to
    its [null]. *)
Lemma unexpected_shape_changes_cache :
  let h := AppHooks.onmessage (parse_to (summary_frame (VNum 42))) "frame"
             AppHooks.mount in
  let h' := AppHooks.onmessage (parse_to (batch_frame [btc_full; VNull])) "frame"
              AppHooks.mount in
  AppHooks.latest AppHooks.mount = []
  /\ AppHooks.latest h = [(VUndef, VObj [])]
  /\ AppHooks.latest h' = [(VStr "BTCUSDT", btc_full)].
Proof. vm_compute. repeat split. Qed.

(** C7: the handler is a total function of the hook state, so no frame makes
    it throw.  A frame that [JSON.parse] rejects, or whose parsed value is
    neither of type "summary" with truthy data nor of type "batch" with an
    array as data, leaves the hook state and its cache exactly as they were.
    A frame that passes one of the two tests is merged whatever the shape of
    its data, so the cache can change; in a cache filled by the hook (every
    entry under the key its [symbol] evaluates to) it stays so filled, and
    what [getLatest] returns for a symbol changes only when an entry of the
    frame carries that symbol. *)
Theorem onmessage_frame (JSON_parse : string -> option value) (ev_data : string)
    (h : AppHooks.Hook) :
  ((JSON_parse ev_data = None
    \/ exists msg, JSON_parse ev_data = Some msg
         /\ ~ (get_prop msg "type" = Some (VStr "summary")
               /\ exists d, get_prop msg "data" = Some d /\ truthy d = true)
         /\ ~ (get_prop msg "type" = Some (VStr "batch")
               /\ exists ds, get_prop msg "data" = Some (VArr ds))) ->
   AppHooks.onmessage JSON_parse ev_data h = h)
  /\ (AppHooks.keyed (AppHooks.latest h) ->
      AppHooks.keyed (AppHooks.latest (AppHooks.onmessage JSON_parse ev_data h))
      /\ forall name,
           (forall d, In d (AppHooks.frame_entries (JSON_parse ev_data)) ->
                      AppHooks.own_symbol d <> Some (VStr name)) ->
           AppHooks.getLatest name (AppHooks.onmessage JSON_parse ev_data h)
           = AppHooks.getLatest name h)
  /\ AppHooks.onmessage JSON_parse ev_data h
     = AppHooks.set_latest
         (AppHooks.latest (AppHooks.onmessage JSON_parse ev_data h)) h.
Proof.
  split; [| split].
  - intros Hbad. apply (HookProps.onmessage_unrecognised JSON_parse ev_data h Hbad).
  - intros Hk. unfold AppHooks.getLatest, AppHooks.onmessage.
    destruct h; simpl in *. apply onmessage_parsed_frame, Hk.
  - destruct h; reflexivity.
Qed.

Lemma onmessage_frame_witness :
  let cached := AppHooks.set_latest [(VStr "BTCUSDT", btc_full)] AppHooks.mount in
  AppHooks.onmessage Sample.parse "{not json" cached = cached
  /\ AppHooks.getLatest "BTCUSDT"
       (AppHooks.onmessage (parse_to (summary_frame (VNum 42))) "frame" cached)
     = Some btc_full.
Proof.
  intros cached. split.
  - destruct (onmessage_frame Sample.parse "{not json" cached) as (H & _).
    apply H. left. reflexivity.
  - destruct (onmessage_frame (parse_to (summary_frame (VNum 42))) "frame" cached)
      as (_ & H & _).
    destruct H as (_ & H).
    + intros k v [Hin | []]. inversion Hin. reflexivity.
    + rewrite (H "BTCUSDT"); [reflexivity |].
      intros d [<- | []]. discriminate.
Defined.

End FrameProps.

(** * Further properties of the web auth session *)

Module AuthExtras.
Import JS Browser EventLoop.

(** *** The interceptor *)

Lemma finished_single (b : bool) (s : LocalStorage) (c : Config)
    (r : Ws.FetchResult) :
  finished b s [c] r
  = Axios.resume b
      (match r with
       | Ws.Http true (Some json) => Fulfilled json
       | _ => Failed
       end) c
      (mkTab true (Some 0%nat)
         [match r with
          | Ws.Http true (Some json) => Fulfilled json
          | _ => Failed
          end] []
         (match r with
          | Ws.NetworkError => set_flag (Some "1") s
          | _ => set_flag None (set_flag (Some "1") s)
          end) None None [PostRefresh]).
Proof. destruct r as [| [|] [json |]]; reflexivity. Qed.

(** X13: the wait loop of [doRefresh] in a tab where nobody else touches the
    flag: [doRefresh] raised the flag itself, so as long as the clock readings
    at its wake-ups are less than 5000 ms after its start, no refresh request
    is sent and the failed request keeps waiting; the first wake-up at or
    after 5000 ms sends the request. *)
Theorem doRefresh_waits_five_seconds (b : bool) (s : LocalStorage) (c : Config)
    (t0 : Z) (evs : list Event) (late : Z) :
  _retry c = false ->
  Forall (fun ev => exists p now, ev = Wake p now /\ now - t0 < 5000) evs ->
  5000 <= late - t0 ->
  let t := run b evs (Axios.on_error b (unauthorized c) t0 (fresh s)) in
  t = pending s (Polling t0) [mark_retry c]
  /\ posts t = 0%nat
  /\ step b t (Wake 0 late) = pending s Fetching [mark_retry c]
  /\ posts (step b t (Wake 0 late)) = 1%nat.
Proof.
  intros Hc Hevs Hlate t.
  assert (Ht : t = pending s (Polling t0) [mark_retry c]).
  { subst t. rewrite (AuthProps.on_error_fresh b s c t0 Hc).
    induction Hevs as [| ev evs (q & now & -> & Hnow) Hevs IH]; [reflexivity |].
    unfold run. cbn [fold_left]. fold (run b evs).
    assert (Hstep : step b (pending s (Polling t0) [mark_retry c]) (Wake q now)
                    = pending s (Polling t0) [mark_retry c]).
    { destruct q as [| q]; [| reflexivity].
      unfold step, Axios.wake. simpl.
      destruct (Z.ltb_spec (now - t0) 5000); [reflexivity | lia]. }
    rewrite Hstep. exact IH. }
  rewrite Ht. split; [reflexivity |]. split; [reflexivity |].
  assert (Hw : step b (pending s (Polling t0) [mark_retry c]) (Wake 0 late)
               = pending s Fetching [mark_retry c]).
  { unfold step, Axios.wake. simpl.
    destruct (Z.ltb_spec (late - t0) 5000); [lia | reflexivity]. }
  rewrite Hw. split; reflexivity.
Qed.

Lemma doRefresh_waits_five_seconds_witness :
  posts (run true (polls 0 Sample.T0 49)
           (Axios.on_error true (unauthorized Sample.get_summaries) Sample.T0
              (fresh Sample.signed_in))) = 0%nat.
Proof.
  apply (doRefresh_waits_five_seconds true Sample.signed_in Sample.get_summaries
           Sample.T0 (polls 0 Sample.T0 49) (Sample.T0 + 5000)).
  - reflexivity.
  - unfold polls. apply List.Forall_forall. intros ev Hev.
    apply in_map_iff in Hev as (i & <- & Hi). apply in_seq in Hi.
    exists 0%nat, (Sample.T0 + 100 * Z.of_nat i). split; [reflexivity | lia].
  - lia.
Defined.

Lemma run_settled (b : bool) (s : LocalStorage) (c : Config) (t0 : Z)
    (evs : list Event) (o : Task) :
  _retry c = false ->
  Forall (fun ev => internal ev = true) evs ->
  tasks (run b evs (Axios.on_error b (unauthorized c) t0 (fresh s))) = [o] ->
  ~ unsettled o ->
  exists r,
    run b evs (Axios.on_error b (unauthorized c) t0 (fresh s))
    = finished b s [mark_retry c] r
    /\ o = match r with
           | Ws.Http true (Some json) => Fulfilled json
           | _ => Failed
           end.
Proof.
  intros Hc Hevs Htask Ho.
  rewrite (AuthProps.on_error_fresh b s c t0 Hc) in *.
  destruct (AuthProps.run_pending b s [mark_retry c] evs (Polling t0) I Hevs)
    as [(st & Hst & Hrun) | (r & Hrun)]; rewrite Hrun in *.
  - exfalso. simpl in Htask. injection Htask as ->. tauto.
  - exists r. split; [reflexivity |].
    destruct (AuthProps.finished_spec b s [mark_retry c] r) as (Ht & _).
    rewrite Ht in Htask. now injection Htask as <-.
Qed.

(** X15: when the refresh fails, the request that triggered it is not retried:
    its handler rejects, the stored token and session are removed and the tab
    is sent to the login page.  [isRefreshing] is not reset on this path, so a
    request that comes back 401 afterwards is rejected on the failed promise
    without another refresh call. *)
Theorem refresh_failure_rejects (b : bool) (s : LocalStorage) (c : Config)
    (t0 : Z) (evs : list Event) :
  _retry c = false ->
  Forall (fun ev => internal ev = true) evs ->
  let t := run b evs (Axios.on_error b (unauthorized c) t0 (fresh s)) in
  tasks t = [Failed] ->
  requests t = [] /\ rejected t = [url c] /\ posts t = 1%nat
  /\ cryptics_auth (ls t) = None /\ access_token (ls t) = None
  /\ In (Navigate "/login") (out t)
  /\ forall c2 now, _retry c2 = false ->
       let t2 := Axios.on_error b (unauthorized c2) now t in
       posts t2 = 1%nat /\ requests t2 = [] /\ rejected t2 = [url c; url c2].
Proof.
  intros Hc Hevs t Htask.
  destruct (run_settled b s c t0 evs Failed Hc Hevs Htask) as (r & Hrun & Ho);
    [simpl; tauto |].
  subst t. rewrite Hrun. rewrite finished_single. rewrite <- Ho.
  clear Hrun Htask Hevs.
  unfold Axios.resume, Axios.resume_fail, Axios.broadcast.
  destruct b; simpl;
    (split; [reflexivity |]; split; [reflexivity |]; split; [reflexivity |];
     split; [reflexivity |]; split; [reflexivity |]; split; [tauto |];
     intros c2 now Hc2; unfold Axios.on_error, unauthorized; simpl;
     rewrite Hc2; repeat split).
Qed.

Lemma refresh_failure_rejects_witness :
  rejected
    (run true (polls 0 Sample.T0 50 ++ [RefreshResponse 0 (Ws.Http false None)])
       (Axios.on_error true (unauthorized Sample.get_summaries) Sample.T0
          (fresh Sample.signed_in)))
  = ["/market/summaries"].
Proof.
  destruct (refresh_failure_rejects true Sample.signed_in Sample.get_summaries
              Sample.T0
              (polls 0 Sample.T0 50 ++ [RefreshResponse 0 (Ws.Http false None)]))
    as (_ & Hrej & _).
  - reflexivity.
  - vm_compute. repeat constructor.
  - vm_compute. reflexivity.
  - exact Hrej.
Defined.

(** X16: after a refresh that delivered [res], for a request that was the only
    one waiting: the flag is gone, the new token is stored under
    [access_token] and inside [cryptics_auth] next to the user that was
    stored before, the interceptor is idle again, and the request interceptor
    sends the retry with the new token. *)
Theorem refresh_success_persists (b : bool) (s : LocalStorage) (c : Config)
    (t0 : Z) (evs : list Event) (res tok u : value) :
  _retry c = false ->
  Forall (fun ev => internal ev = true) evs ->
  let t := run b evs (Axios.on_error b (unauthorized c) t0 (fresh s)) in
  tasks t = [Fulfilled res] ->
  get_prop res "access_token" = Some tok ->
  match cryptics_auth s with
  | Some parsed => get_prop parsed "user" = Some u
  | None => u = VNull
  end ->
  ls t = mkLS None
           (Some (json_clean (VObj [("access_token", tok); ("user", u)])))
           (Some (js_String tok))
  /\ isRefreshing t = false /\ refreshPromise t = None
  /\ hdr_get "Authorization"
       (headers
          (Axios.request_interceptor
             (with_header "Authorization" ("Bearer " ++ js_String tok) (mark_retry c))
             (ls t)))
     = Some ("Bearer " ++ js_String tok).
Proof.
  intros Hc Hevs t Htask Htok Hu.
  destruct (run_settled b s c t0 evs (Fulfilled res) Hc Hevs Htask)
    as (r & Hrun & Ho); [simpl; tauto |].
  subst t. rewrite Hrun. rewrite finished_single. rewrite <- Ho.
  clear Hrun Htask Hevs.
  assert (Hls : (match r with
                 | Ws.NetworkError => set_flag (Some "1") s
                 | _ => set_flag None (set_flag (Some "1") s)
                 end) = set_flag None (set_flag (Some "1") s)).
  { destruct r as [| [|] [json |]]; try discriminate Ho; reflexivity. }
  rewrite Hls. clear Hls Ho.
  assert (Hper : ls (Axios.resume b (Fulfilled res) (mark_retry c)
                       (mkTab true (Some 0%nat) [Fulfilled res] []
                          (set_flag None (set_flag (Some "1") s)) None None
                          [PostRefresh]))
                 = mkLS None
                     (Some (json_clean (VObj [("access_token", tok); ("user", u)])))
                     (Some (js_String tok))).
  { unfold Axios.resume, Axios.resume_ok, Axios.persist, Axios.api, Axios.broadcast.
    rewrite Htok. simpl. destruct (cryptics_auth s) as [parsed |].
    - rewrite Hu. destruct b; reflexivity.
    - subst u. destruct b; reflexivity. }
  split; [exact Hper |]. split; [| split].
  - unfold Axios.resume, Axios.resume_ok, Axios.persist, Axios.api, Axios.broadcast.
    rewrite Htok. simpl.
    destruct (match cryptics_auth s with
              | Some parsed => get_prop parsed "user"
              | None => Some VNull
              end); destruct b; reflexivity.
  - unfold Axios.resume, Axios.resume_ok, Axios.persist, Axios.api, Axios.broadcast.
    rewrite Htok. simpl.
    destruct (match cryptics_auth s with
              | Some parsed => get_prop parsed "user"
              | None => Some VNull
              end); destruct b; reflexivity.
  - rewrite Hper. unfold Axios.request_interceptor. simpl.
    destruct (String.eqb (js_String tok) "") eqn:E; simpl.
    + apply AuthProps.hdr_get_set.
    + rewrite AuthProps.hdr_get_set. reflexivity.
Qed.

Lemma refresh_success_persists_witness :
  access_token
    (ls (run true (polls 0 Sample.T0 50 ++ [RefreshResponse 0 Sample.rotated])
           (Axios.on_error true (unauthorized Sample.get_summaries) Sample.T0
              (fresh Sample.signed_in))))
  = Some "new".
Proof.
  destruct (refresh_success_persists true Sample.signed_in Sample.get_summaries
              Sample.T0
              (polls 0 Sample.T0 50 ++ [RefreshResponse 0 Sample.rotated])
              (VObj [("access_token", VStr "new")]) (VStr "new")
              (VObj [("id", VNum 7)])) as (Hls & _).
  - reflexivity.
  - vm_compute. repeat constructor.
  - vm_compute. reflexivity.
  - reflexivity.
  - reflexivity.
  - rewrite Hls. reflexivity.
Defined.

(** X17: while [doRefresh] sleeps, somebody else (AuthProvider, another tab) may
    clear the flag.  If storage then holds a truthy access token, the next
    wake-up takes that token without sending a refresh request, and the
    waiting request is retried with it. *)
Theorem doRefresh_adopts_stored_token (b : bool) (s : LocalStorage) (c : Config)
    (t0 now : Z) (parsed tok : value) :
  cryptics_auth s = Some parsed ->
  get_prop parsed "access_token" = Some tok ->
  truthy tok = true ->
  let sleeping := pending s (Polling t0) [c] in
  let cleared := set_ls (set_flag None (ls sleeping)) sleeping in
  let t := Axios.wake b 0%nat now cleared in
  posts t = 0%nat
  /\ tasks t = [Fulfilled (VObj [("access_token", tok)])]
  /\ requests t = [with_header "Authorization" ("Bearer " ++ js_String tok) c]
  /\ rejected t = [].
Proof.
  intros Hs Hp Htok sleeping cleared t. subst t cleared sleeping.
  assert (Hparsed : truthy parsed = true).
  { destruct parsed; simpl in Hp; try discriminate Hp; try reflexivity;
      injection Hp as <-; discriminate Htok. }
  unfold Axios.wake. simpl.
  unfold Axios.reusable, Axios.flag_clear. simpl. rewrite Hs, Hp, Hparsed, Htok.
  simpl. unfold Axios.settle. simpl.
  unfold Axios.resume_ok, Axios.persist, Axios.api, Axios.broadcast. simpl.
  rewrite Hs.
  destruct (get_prop parsed "user"); destruct b; repeat split.
Qed.

Lemma doRefresh_adopts_stored_token_witness :
  requests
    (Axios.wake true 0%nat (Sample.T0 + 100)
       (set_ls (set_flag None (ls (pending Sample.signed_in (Polling Sample.T0)
                                     [Sample.get_summaries])))
          (pending Sample.signed_in (Polling Sample.T0) [Sample.get_summaries])))
  = [mkConfig "/market/summaries" false [("Authorization", "Bearer old")]].
Proof.
  apply (doRefresh_adopts_stored_token true Sample.signed_in Sample.get_summaries
           Sample.T0 (Sample.T0 + 100)
           (VObj [("access_token", VStr "old"); ("user", VObj [("id", VNum 7)])])
           (VStr "old")); reflexivity.
Defined.

Lemma fold_on_error_pending (b : bool) (s : LocalStorage) (st : Task)
    (cs0 cs : list Config) (now : Z) :
  unsettled st ->
  Forall (fun c => _retry c = false) cs ->
  fold_left (fun t c => Axios.on_error b (unauthorized c) now t) cs
    (pending s st cs0)
  = pending s st (cs0 ++ List.map mark_retry cs).
Proof.
  intros Hst Hcs. revert cs0.
  induction Hcs as [| c cs Hc Hcs IH]; intros cs0; simpl.
  - now rewrite app_nil_r.
  - rewrite (AuthProps.on_error_pending b s st cs0 c now Hst Hc), IH.
    now rewrite <- app_assoc.
Qed.

(** X14: any number of requests that come back 401 one after the other before
    the refresh settles share it: at most one POST /auth/refresh is sent, and
    once the refresh has settled either every request was retried, in arrival
    order, with one and the same Authorization header, or every request was
    rejected. *)
Theorem all_waiters_share_one_refresh (b : bool) (s : LocalStorage) (c : Config)
    (cs : list Config) (now : Z) (evs : list Event) :
  Forall (fun c => _retry c = false) (c :: cs) ->
  Forall (fun ev => internal ev = true) evs ->
  let t := run b evs
             (fold_left (fun t c => Axios.on_error b (unauthorized c) now t)
                (c :: cs) (fresh s)) in
  (posts t <= 1)%nat
  /\ ((retried t = [] /\ rejected t = [])
      \/ (posts t = 1%nat
          /\ exists auth,
               retried t = List.map (fun c => (url c, Some auth)) (c :: cs)
               /\ rejected t = [])
      \/ (posts t = 1%nat
          /\ retried t = [] /\ rejected t = List.map url (c :: cs))).
Proof.
  intros Hcs Hevs t. subst t. inversion Hcs as [| ? ? Hc Hcs']; subst.
  cbn [fold_left]. rewrite (AuthProps.on_error_fresh b s c now Hc).
  rewrite (fold_on_error_pending b s (Polling now) [mark_retry c] cs now I Hcs').
  change ([mark_retry c] ++ List.map mark_retry cs)%list
    with (List.map mark_retry (c :: cs)).
  destruct (AuthProps.run_pending b s (List.map mark_retry (c :: cs)) evs
              (Polling now) I Hevs) as [(st' & Hst' & ->) | (r & ->)].
  - destruct (AuthProps.pending_quiet s st' (List.map mark_retry (c :: cs)) Hst')
      as (Hq & Hj & Hp).
    split; [exact Hp |]. left. unfold retried. now rewrite Hq, Hj.
  - destruct (AuthProps.finished_spec b s (List.map mark_retry (c :: cs)) r)
      as (_ & Hp & Hout).
    split; [lia |]. right.
    assert (Hurl : List.map url (List.map mark_retry (c :: cs))
                   = List.map url (c :: cs))
      by (rewrite List.map_map; reflexivity).
    destruct (match r with
              | Ws.Http true (Some json) => Fulfilled json
              | _ => Failed
              end) as [start | | res |];
      try (right; destruct Hout as [Hq Hj]; unfold retried;
           rewrite Hq, Hj, Hurl; repeat split; exact Hp).
    destruct (get_prop res "access_token") as [tok |];
      destruct Hout as [Hq Hj].
    + left. split; [exact Hp |]. exists ("Bearer " ++ js_String tok).
      unfold retried. rewrite Hq, Hj. split; [| reflexivity].
      rewrite !List.map_map. apply List.map_ext. intros a. simpl.
      now rewrite AuthProps.hdr_get_set.
    + right. unfold retried. rewrite Hq, Hj, Hurl. repeat split. exact Hp.
Qed.

Lemma all_waiters_share_one_refresh_witness :
  (posts
     (run true (polls 0 Sample.T0 50 ++ [RefreshResponse 0 Sample.rotated])
        (fold_left (fun t c => Axios.on_error true (unauthorized c) Sample.T0 t)
           [Sample.get_summaries; Sample.get_watchlist; Sample.get_summaries]
           (fresh Sample.signed_in))) <= 1)%nat.
Proof.
  destruct (all_waiters_share_one_refresh true Sample.signed_in
              Sample.get_summaries [Sample.get_watchlist; Sample.get_summaries]
              Sample.T0
              (polls 0 Sample.T0 50 ++ [RefreshResponse 0 Sample.rotated]))
    as [Hle _].
  - repeat constructor.
  - vm_compute. repeat constructor.
  - exact Hle.
Defined.

(** X18: an error without a config, or with any status other than 401 (a network
    error included), is rejected as it is: no refresh, no retry, no change of
    the tab. *)
Theorem other_errors_pass_through (b : bool) (e : AxiosError) (now : Z) (t : Tab) :
  config e = None \/ status e <> Some 401 ->
  Axios.on_error b e now t = emit (Reject (config e) OriginalError) t.
Proof.
  intros H. unfold Axios.on_error. destruct (config e) as [c |]; [| reflexivity].
  destruct (_retry c); [reflexivity |].
  destruct H as [H | H]; [discriminate H |].
  now rewrite bool_decide_eq_false_2.
Qed.

Lemma other_errors_pass_through_witness :
  Axios.on_error true (mkError (Some Sample.get_summaries) (Some 500)) Sample.T0
    (fresh Sample.signed_in)
  = emit (Reject (Some Sample.get_summaries) OriginalError) (fresh Sample.signed_in).
Proof.
  apply (other_errors_pass_through true
           (mkError (Some Sample.get_summaries) (Some 500)) Sample.T0
           (fresh Sample.signed_in)).
  right. discriminate.
Defined.

End AuthExtras.

(** * The retry after a 401 *)

Module RetryProps.
Import JS Browser EventLoop.

(** Storage once the refresh that delivered [res] was handled: written by
    [persist] when the stored session can be read, left alone (but for the
    flag) when reading it throws. *)
Lemma finished_ls (b : bool) (s : LocalStorage) (c : Config) (res tok : value) :
  get_prop res "access_token" = Some tok ->
  ls (finished b s [c] (Ws.Http true (Some res)))
  = match match cryptics_auth s with
          | Some parsed => get_prop parsed "user"
          | None => Some VNull
          end with
    | Some u =>
        mkLS None
          (Some (json_clean (VObj [("access_token", tok); ("user", u)])))
          (Some (js_String tok))
    | None => set_flag None (set_flag (Some "1") s)
    end.
Proof.
  intros Htok. rewrite AuthExtras.finished_single.
  unfold Axios.resume, Axios.resume_ok, Axios.persist, Axios.api, Axios.broadcast.
  rewrite Htok. simpl.
  destruct (cryptics_auth s) as [parsed |].
  - destruct (get_prop parsed "user"); destruct b; reflexivity.
  - destruct b; reflexivity.
Qed.

(** The request interceptor reads nothing but the stored access token. *)
Lemma request_interceptor_token (c : Config) (s s' : LocalStorage) :
  access_token s = access_token s' ->
  Axios.request_interceptor c s = Axios.request_interceptor c s'.
Proof. unfold Axios.request_interceptor. now intros ->. Qed.

(** C2, the claim as stated fails: a 401 whose refresh is answered with an
    error status is not retried at all, its handler rejects; and when the stored session
    reads [null], so that the tokens are not persisted, the one retry that is
    made leaves the tab with the old token in its Authorization header, put
    there by the request interceptor. *)
Lemma retry_needs_refresh_and_storage :
  let t := run true
             (polls 0 Sample.T0 50 ++ [RefreshResponse 0 (Ws.Http false None)])
             (Axios.on_error true (unauthorized Sample.get_summaries) Sample.T0
                (fresh Sample.signed_in)) in
  let t' := run true
              (polls 0 Sample.T0 50 ++ [RefreshResponse 0 Sample.rotated])
              (Axios.on_error true (unauthorized Sample.get_summaries) Sample.T0
                 (fresh Sample.unreadable_session)) in
  (requests t = [] /\ rejected t = ["/market/summaries"])
  /\ requests t'
     = [mkConfig "/market/summaries" true [("Authorization", "Bearer new")]]
  /\ List.map (fun c => headers (Axios.request_interceptor c (ls t'))) (requests t')
     = [[("Authorization", "Bearer old")]].
Proof. vm_compute. repeat split. Qed.

(** C2: a 401 on a request not yet marked [_retry], in a tab whose
    interceptor is idle, starts one refresh, and whatever [doRefresh] then
    meets, at most one retry of the request is ever made.  Once the refresh
    has delivered [res], exactly one retry is made, of the same request and
    marked [_retry], with no rejection; the handler sets its Authorization to
    "Bearer " followed by [res.access_token], and that is the header sent when
    the stored session is absent or can be read, for then the token is
    persisted before the request interceptor runs; when reading the stored
    session throws, nothing is persisted and the request interceptor sends
    what the old stored token gives.  When the refresh fails, or delivers
    [null], no retry is made and the handler rejects.  Any error on a request
    already marked [_retry] (a second 401 included) is rejected with that
    error and nothing else happens: no refresh, no retry, no state change. *)
Theorem retry_once (b : bool) (s : LocalStorage) (c : Config) (t0 : Z)
    (evs : list Event) :
  _retry c = false ->
  Forall (fun ev => internal ev = true) evs ->
  let t := run b evs (Axios.on_error b (unauthorized c) t0 (fresh s)) in
  (exists o, tasks t = [o])
  /\ (length (requests t) <= 1)%nat
  /\ (posts t <= 1)%nat
  /\ (forall res tok,
        tasks t = [Fulfilled res] ->
        get_prop res "access_token" = Some tok ->
        let c' := with_header "Authorization" ("Bearer " ++ js_String tok)
                    (mark_retry c) in
        requests t = [c'] /\ rejected t = [] /\ posts t = 1%nat
        /\ url c' = url c /\ _retry c' = true
        /\ ((forall parsed, cryptics_auth s = Some parsed ->
                            get_prop parsed "user" <> None) ->
            access_token (ls t) = Some (js_String tok)
            /\ hdr_get "Authorization"
                 (headers (Axios.request_interceptor c' (ls t)))
               = Some ("Bearer " ++ js_String tok))
        /\ ((exists parsed, cryptics_auth s = Some parsed
                            /\ get_prop parsed "user" = None) ->
            access_token (ls t) = access_token s
            /\ Axios.request_interceptor c' (ls t) = Axios.request_interceptor c' s))
  /\ (forall o,
        tasks t = [o] ->
        o = Failed \/ (exists res, o = Fulfilled res
                                   /\ get_prop res "access_token" = None) ->
        requests t = [] /\ rejected t = [url c] /\ posts t = 1%nat)
  /\ (forall o,
        tasks t = [o] -> unsettled o -> requests t = [] /\ rejected t = [])
  /\ (forall (c2 : Config) (st : option Z) (now : Z) (t' : Tab),
        _retry c2 = true ->
        Axios.on_error b (mkError (Some c2) st) now t'
        = emit (Reject (Some c2) OriginalError) t').
Proof.
  intros Hc Hevs t. subst t.
  rewrite (AuthProps.on_error_fresh b s c t0 Hc).
  assert (Hretry : forall (c2 : Config) (st : option Z) (now : Z) (t' : Tab),
             _retry c2 = true ->
             Axios.on_error b (mkError (Some c2) st) now t'
             = emit (Reject (Some c2) OriginalError) t').
  { intros c2 st now t' H2. unfold Axios.on_error. simpl. now rewrite H2. }
  destruct (AuthProps.run_pending b s [mark_retry c] evs (Polling t0) I Hevs)
    as [(st & Hst & Hrun) | (r & Hrun)]; rewrite Hrun; clear Hrun.
  - (* the refresh is still under way *)
    destruct (AuthProps.pending_quiet s st [mark_retry c] Hst) as (Hq & Hj & Hp).
    split; [exists st; reflexivity |]. rewrite Hq, Hj.
    split; [simpl; lia |]. split; [exact Hp |]. split.
    { intros res tok Htask. exfalso. simpl in Htask. injection Htask as ->.
      exact Hst. }
    split.
    { intros o Htask Ho. exfalso. simpl in Htask. injection Htask as ->.
      destruct Ho as [-> | (res & -> & _)]; exact Hst. }
    split; [intros o _ _; now split | exact Hretry].
  - (* the refresh was answered by [r] *)
    destruct (AuthProps.finished_spec b s [mark_retry c] r) as (Ht & Hp & Hout).
    cbv zeta in Ht, Hp, Hout. rewrite Ht, Hp.
    split; [eauto |]. split.
    { destruct r as [| [|] [json |]]; try (destruct Hout as [-> _]; simpl; lia).
      destruct (get_prop json "access_token"); destruct Hout as [-> _]; simpl; lia. }
    split; [lia |]. split.
    { intros res tok Htask Htok c'. injection Htask as Ho.
      destruct r as [| [|] [json |]]; try discriminate Ho.
      injection Ho as ->. rewrite Htok in Hout. destruct Hout as [Hq Hj].
      split; [exact Hq |]. split; [exact Hj |]. split; [reflexivity |].
      split; [reflexivity |]. split; [reflexivity |].
      rewrite (finished_ls b s (mark_retry c) res tok Htok). split.
      - intros Hread.
        destruct (match cryptics_auth s with
                  | Some parsed => get_prop parsed "user"
                  | None => Some VNull
                  end) as [u |] eqn:Hu.
        + split; [reflexivity |]. unfold Axios.request_interceptor. simpl.
          destruct (String.eqb (js_String tok) ""); apply AuthProps.hdr_get_set.
        + exfalso. destruct (cryptics_auth s) as [parsed |] eqn:Hs;
            [| discriminate Hu].
          now apply (Hread parsed).
      - intros (parsed & Hs & Hu). rewrite Hs, Hu.
        split; [reflexivity |]. now apply request_interceptor_token. }
    split.
    { intros o Htask Ho. injection Htask as Hor. rewrite Hor in Hout.
      destruct Ho as [-> | (res & -> & Hnone)].
      - destruct Hout as [Hq Hj]. now repeat split.
      - rewrite Hnone in Hout. destruct Hout as [Hq Hj]. now repeat split. }
    split; [| exact Hretry].
    intros o Htask Ho. exfalso. injection Htask as Hor. rewrite <- Hor in Ho.
    destruct r as [| [|] [json |]]; exact Ho.
Qed.

Lemma retry_once_witness :
  let t := run true (polls 0 Sample.T0 50 ++ [RefreshResponse 0 Sample.rotated])
             (Axios.on_error true (unauthorized Sample.get_summaries) Sample.T0
                (fresh Sample.signed_in)) in
  requests t
  = [mkConfig "/market/summaries" true [("Authorization", "Bearer new")]]
  /\ hdr_get "Authorization"
       (headers
          (Axios.request_interceptor
             (mkConfig "/market/summaries" true [("Authorization", "Bearer new")])
             (ls t)))
     = Some "Bearer new".
Proof.
  intros t.
  destruct (retry_once true Sample.signed_in Sample.get_summaries Sample.T0
              (polls 0 Sample.T0 50 ++ [RefreshResponse 0 Sample.rotated]))
    as (_ & _ & _ & H & _).
  - reflexivity.
  - vm_compute. repeat constructor.
  - destruct (H (VObj [("access_token", VStr "new")]) (VStr "new"))
      as (Hq & _ & _ & _ & _ & Hsent & _).
    + vm_compute. reflexivity.
    + reflexivity.
    + destruct Hsent as [_ Hh].
      * intros parsed Hp. injection Hp as <-. discriminate.
      * split; [exact Hq | exact Hh].
Defined.

End RetryProps.

(** * Further properties of AuthProvider and of the mobile session *)

Module ProviderExtras.
Import JS Browser.

Lemma split_dot_two (acc s hd part : string) (rest : list string) :
  AuthProvider.split_dot acc s = hd :: part :: rest -> s <> "".
Proof. intros H ->. discriminate H. Qed.

(** X19: a token whose second dot-separated part decodes to an object with a
    non-zero numeric [exp] expires, for [getExpiryFromToken], at [exp * 1000]
    milliseconds. *)
Theorem getExpiryFromToken_numeric_exp
    (atob_parse : string -> option value) (str_to_num : string -> option Z)
    (s hd part : string) (rest : list string) (payload : value) (e : Z) :
  AuthProvider.split_dot "" s = hd :: part :: rest ->
  atob_parse (AuthProvider.b64url_to_b64 part) = Some payload ->
  get_prop payload "exp" = Some (VNum e) ->
  e <> 0 ->
  AuthProvider.getExpiryFromToken atob_parse str_to_num (VStr s) = Some (e * 1000).
Proof.
  intros Hsplit Hdec Hexp He.
  assert (Hs : s <> "") by (eapply split_dot_two; exact Hsplit).
  unfold AuthProvider.getExpiryFromToken. simpl.
  apply String.eqb_neq in Hs. rewrite Hs. simpl.
  rewrite Hsplit, Hdec, Hexp.
  assert (Hp : truthy payload = true).
  { destruct payload; simpl in Hexp; try discriminate Hexp; reflexivity. }
  rewrite Hp. simpl. apply Z.eqb_neq in He. now rewrite He.
Qed.

Lemma getExpiryFromToken_numeric_exp_witness :
  AuthProvider.getExpiryFromToken Sample.atob_parse Sample.str_to_num
    (VStr "hdr.payload-1.sig")
  = Some (1700000000 * 1000).
Proof.
  apply (getExpiryFromToken_numeric_exp Sample.atob_parse Sample.str_to_num
           "hdr.payload-1.sig" "hdr" "payload-1" ["sig"]
           (VObj [("exp", VNum 1700000000)]) 1700000000).
  - reflexivity.
  - reflexivity.
  - reflexivity.
  - discriminate.
Defined.

(** X20: a token that is empty, is not a string, has no dot, or whose payload does
    not decode or has no truthy [exp] has no expiry for [getExpiryFromToken]:
    the exception is swallowed and the result is [null]. *)
Theorem getExpiryFromToken_malformed
    (atob_parse : string -> option value) (str_to_num : string -> option Z)
    (token : value) :
  (truthy token = false
   \/ (forall s, token <> VStr s)
   \/ (exists s, token = VStr s
         /\ (length (AuthProvider.split_dot "" s) < 2)%nat)
   \/ (exists s hd part rest, token = VStr s
         /\ AuthProvider.split_dot "" s = hd :: part :: rest
         /\ (atob_parse (AuthProvider.b64url_to_b64 part) = None
             \/ exists payload,
                  atob_parse (AuthProvider.b64url_to_b64 part) = Some payload
                  /\ forall exp, get_prop payload "exp" = Some exp ->
                                 truthy exp = false))) ->
  AuthProvider.getExpiryFromToken atob_parse str_to_num token = None.
Proof.
  unfold AuthProvider.getExpiryFromToken.
  intros [H | [H | [(s & -> & H) | (s & hd & part & rest & -> & Hs & H)]]].
  - now rewrite H.
  - destruct (truthy token); [| reflexivity]. simpl.
    destruct token; try reflexivity. now elim (H s).
  - destruct (truthy (VStr s)); [| reflexivity]. simpl.
    destruct (AuthProvider.split_dot "" s) as [| a [| b l]]; try reflexivity.
    simpl in H. lia.
  - destruct (truthy (VStr s)); [| reflexivity]. simpl. rewrite Hs.
    destruct H as [-> | (payload & -> & H)]; [reflexivity |].
    destruct (get_prop payload "exp") as [exp |] eqn:E; [| reflexivity].
    rewrite (H exp eq_refl). now rewrite andb_false_r.
Qed.

Lemma getExpiryFromToken_malformed_witness :
  AuthProvider.getExpiryFromToken Sample.atob_parse Sample.str_to_num
    (VStr "opaque-token")
  = None.
Proof.
  apply (getExpiryFromToken_malformed Sample.atob_parse Sample.str_to_num
           (VStr "opaque-token")).
  right. right. left. exists "opaque-token". split; [reflexivity |].
  vm_compute. lia.
Defined.

(** X21: [scheduleNext] always arms a timer.  The delay it hands to
    [setTimeout] is the time left until 25 s before expiry when the current
    token has a non-zero expiry more than 25 s away, 50 ms when the expiry is
    25 s away or less (or already past), and 10 minutes when there is no
    expiry.  As [setTimeout] takes a signed 32-bit delay, the timer fires
    exactly 25 s before expiry when that moment is at most 2147483647 ms away,
    and at once when it is between 2147483648 and 4294967295 ms away. *)
Theorem scheduleNext_delay
    (atob_parse : string -> option value) (str_to_num : string -> option Z)
    (now : Z) (t : Tab) :
  exists d,
    timer (AuthProvider.scheduleNext atob_parse str_to_num now t) = Some d
    /\ match AuthProvider.getExpiryFromToken atob_parse str_to_num
               (AuthProvider.current_access t) with
       | Some e =>
           (e = 0 -> d = 600000 /\ setTimeout_delay d = 600000)
           /\ (e <> 0 -> 25000 < e - now ->
               d = e - now - 25000
               /\ (d <= 2147483647 -> now + setTimeout_delay d = e - 25000)
               /\ (2147483647 < d < 4294967296 -> setTimeout_delay d = 0))
           /\ (e <> 0 -> e - now <= 25000 -> d = 50 /\ setTimeout_delay d = 50)
       | None => d = 600000 /\ setTimeout_delay d = 600000
       end.
Proof.
  unfold AuthProvider.scheduleNext. simpl. eexists. split; [reflexivity |].
  pose proof (AuthProps.next_delay_cases
                (AuthProvider.getExpiryFromToken atob_parse str_to_num
                   (AuthProvider.current_access t)) now) as H.
  assert (Hsmall : forall d, 0 <= d <= 2147483647 -> setTimeout_delay d = d).
  { intros d Hd. unfold setTimeout_delay, ToInt32.
    rewrite Z.mod_small by lia.
    destruct (Z.ltb_spec d 2147483648); lia. }
  assert (Hbig : forall d, 2147483647 < d < 4294967296 -> setTimeout_delay d = 0).
  { intros d Hd. unfold setTimeout_delay, ToInt32.
    rewrite Z.mod_small by lia.
    destruct (Z.ltb_spec d 2147483648); lia. }
  destruct (AuthProvider.getExpiryFromToken atob_parse str_to_num
              (AuthProvider.current_access t)) as [e |].
  - destruct H as (H0 & Hfar & Hnear). split; [| split].
    + intros He. rewrite (H0 He). split; [reflexivity | apply Hsmall; lia].
    + intros He Hlt. specialize (Hfar He Hlt).
      split; [lia |]. split.
      * intros Hd. rewrite Hsmall by lia. exact Hfar.
      * apply Hbig.
    + intros He Hle. rewrite (Hnear He Hle). split; [reflexivity | apply Hsmall; lia].
  - rewrite H. split; [reflexivity | apply Hsmall; lia].
Qed.

(** X22: on mount with a stored session: when the stored token has no usable
    expiry or expires within 30 s, the provider raises the flag and sends a
    refresh before anything else; otherwise it goes straight to the profile
    request.  Either way the stored token becomes the [access_token] entry. *)
Theorem mount_effect_refreshes_stale_token
    (atob_parse : string -> option value) (str_to_num : string -> option Z)
    (now : Z) (t : Tab) (parsed tok : value) :
  cryptics_auth (ls t) = Some parsed ->
  get_prop parsed "access_token" = Some tok ->
  exists t',
    AuthProvider.mount_effect atob_parse str_to_num now t = Some t'
    /\ access_token (ls t') = Some (js_String tok)
    /\ match AuthProvider.getExpiryFromToken atob_parse str_to_num tok with
       | Some e =>
           (e = 0 \/ e - now < 30000 ->
            out t' = (out t ++ [PostRefresh])%list
            /\ refresh_in_progress (ls t') = Some "1")
           /\ (e <> 0 -> 30000 <= e - now ->
               out t' = (out t ++ [GetUserMe])%list
               /\ refresh_in_progress (ls t') = refresh_in_progress (ls t))
       | None =>
           out t' = (out t ++ [PostRefresh])%list
           /\ refresh_in_progress (ls t') = Some "1"
       end.
Proof.
  intros Hs Htok. unfold AuthProvider.mount_effect. rewrite Hs, Htok.
  destruct (AuthProvider.getExpiryFromToken atob_parse str_to_num tok) as [e |].
  - destruct (Z.eqb_spec e 0) as [-> | He]; simpl.
    + eexists. split; [reflexivity |]. split; [reflexivity |].
      split; [intros _; split; reflexivity | congruence].
    + destruct (Z.ltb_spec (e - now) (30 * 1000)); eexists;
        (split; [reflexivity |]); (split; [reflexivity |]); split;
        try (intros; split; reflexivity); intros; lia.
  - eexists. split; [reflexivity |]. split; [reflexivity |]. split; reflexivity.
Qed.

Lemma mount_effect_refreshes_stale_token_witness :
  exists t',
    AuthProvider.mount_effect Sample.atob_parse Sample.str_to_num Sample.T0
      (fresh Sample.signed_in) = Some t'
    /\ access_token (ls t') = Some "old".
Proof.
  destruct (mount_effect_refreshes_stale_token Sample.atob_parse Sample.str_to_num
              Sample.T0 (fresh Sample.signed_in)
              (VObj [("access_token", VStr "old"); ("user", VObj [("id", VNum 7)])])
              (VStr "old")) as (t' & Hm & Ha & _).
  - reflexivity.
  - reflexivity.
  - exists t'. split; [exact Hm | exact Ha].
Defined.

(** X23: when the refresh of [doRefreshAndReschedule] fails (network error,
    status not ok, body not JSON) the provider starts [logout()] without
    removing the [refresh_in_progress] flag it raised, and the logout does not
    remove it either: the flag stays ['1'] in storage.  A successful response
    removes it. *)
Theorem provider_failure_leaves_flag (b : bool) (r : Ws.FetchResult) (t : Tab) :
  let t1 := AuthProvider.doRefreshAndReschedule_response r
              (AuthProvider.provider_post t) in
  (r = Ws.NetworkError \/ (exists body, r = Ws.Http false body) \/ r = Ws.Http true None ->
   out t1 = (out t ++ [PostRefresh; PostLogout])%list
   /\ refresh_in_progress (ls (AuthProvider.logout_end b t1)) = Some "1"
   /\ cryptics_auth (ls (AuthProvider.logout_end b t1)) = None)
  /\ (forall res, r = Ws.Http true (Some res) ->
      refresh_in_progress (ls t1) = None).
Proof.
  intros t1. subst t1. split.
  - intros [-> | [(body & ->) | ->]]; unfold AuthProvider.logout_end,
      AuthProvider.broadcast; destruct b; simpl; rewrite <- ?app_assoc;
      repeat split.
  - intros res ->. simpl. destruct (get_prop res "access_token"); reflexivity.
Qed.

Lemma provider_failure_leaves_flag_witness :
  refresh_in_progress
    (ls (AuthProvider.logout_end true
           (AuthProvider.doRefreshAndReschedule_response (Ws.Http false None)
              (AuthProvider.provider_post (fresh Sample.signed_in)))))
  = Some "1".
Proof.
  destruct (provider_failure_leaves_flag true (Ws.Http false None)
              (fresh Sample.signed_in)) as [H _].
  destruct H as (_ & Hflag & _).
  - right. left. exists None. reflexivity.
  - exact Hflag.
Defined.

(** X27: the tokens one tab's interceptor broadcasts after a refresh put
    another tab's storage in the same state: the receiving provider ends with
    the [cryptics_auth] and [access_token] entries the sending tab wrote, and
    adopts the message as its auth data. *)
Theorem tokens_broadcast_round_trip (res tok u : value) (tA tB : Tab) :
  get_prop res "access_token" = Some tok ->
  match cryptics_auth (ls tA) with
  | Some parsed => get_prop parsed "user" = Some u
  | None => u = VNull
  end ->
  let tA' := Axios.persist true res tA in
  exists m,
    out tA' = (out tA ++ [Post (BcTokens m)])%list
    /\ cryptics_auth (ls (AuthProvider.bc_onmessage (BcTokens m) tB))
       = cryptics_auth (ls tA')
    /\ access_token (ls (AuthProvider.bc_onmessage (BcTokens m) tB))
       = access_token (ls tA')
    /\ authData (AuthProvider.bc_onmessage (BcTokens m) tB) = Some m.
Proof.
  intros Htok Hu tA'. subst tA'. unfold Axios.persist. rewrite Htok.
  exists (VObj [("access_token", tok); ("user", u)]).
  destruct (cryptics_auth (ls tA)) as [parsed |].
  - rewrite Hu. repeat split.
  - subst u. repeat split.
Qed.

Lemma tokens_broadcast_round_trip_witness :
  exists m,
    out (Axios.persist true (VObj [("access_token", VStr "new")])
           (fresh Sample.signed_in))
    = [Post (BcTokens m)]
    /\ access_token
         (ls (AuthProvider.bc_onmessage (BcTokens m) (fresh Sample.signed_in)))
       = Some "new".
Proof.
  destruct (tokens_broadcast_round_trip (VObj [("access_token", VStr "new")])
              (VStr "new") (VObj [("id", VNum 7)]) (fresh Sample.signed_in)
              (fresh Sample.signed_in)) as (m & Hout & _ & Ha & _).
  - reflexivity.
  - reflexivity.
  - exists m. split; [exact Hout | rewrite Ha; reflexivity].
Defined.

End ProviderExtras.

Module MobileExtras.
Import JS MobileAuth.

(** X24: a tick whose refresh call returns but whose profile request fails
    counts as a success: the failure counter is reset, the timer stays and
    the user is set to null at once.  The tokens the refresh saved stay
    stored when the request was rejected by the network, or answered with a
    status other than 401 that is not ok or with an unreadable body; both
    tokens are cleared when it was answered 401 and the refresh made by
    [fetchWithAuth] failed. *)
Theorem tick_profile_failure (x : TickIn) (s : Session) :
  snd (refresh (reply x) s) = None ->
  let s1 := fst (refresh (reply x) s) in
  let s' := tick x s in
  (profile x = FetchThrows
   \/ (exists st j, profile x = Res st j /\ st <> 401
                    /\ (ok st = false \/ j = None)) ->
   user s' = None
   /\ stored_access s' = stored_access s1
   /\ stored_refresh s' = stored_refresh s1)
  /\ ((exists j, profile x = Res 401 j) /\ snd (refresh (inner x) s1) <> None ->
      user s' = None /\ stored_access s' = None /\ stored_refresh s' = None)
  /\ consecutiveFailures s' = 0%nat
  /\ refreshTimer s' = refreshTimer s
  /\ lastRefreshAt s' = Some (stamp x)
  /\ lastRefreshError s' = None.
Proof.
  intros Hs s1 s'. subst s'. rewrite (MobileProps.tick_returns x s Hs).
  cbv zeta. fold s1. simpl. split; [| split].
  - intros [Hp | (st & j & Hp & H401 & Hbad)]; rewrite Hp; unfold refreshUser.
    + simpl. repeat split.
    + rewrite MobileProps.fetchWithAuth_plain by exact H401.
      destruct Hbad as [Hok | ->].
      * rewrite Hok. destruct j; repeat split.
      * repeat split.
  - intros ((j & Hp) & Hi). rewrite Hp. unfold refreshUser.
    rewrite MobileProps.fetchWithAuth_clears by exact Hi. repeat split.
  - repeat split. rewrite MobileProps.refreshUser_rest.
    apply (MobileProps.refresh_rest (reply x) s).
Qed.

Lemma tick_profile_failure_witness :
  user (tick rejected_profile_tick signed_in_session) = None
  /\ stored_refresh (tick rejected_profile_tick signed_in_session) = None.
Proof.
  destruct (tick_profile_failure rejected_profile_tick signed_in_session)
    as (_ & H & _).
  - reflexivity.
  - destruct H as (Hu & _ & Hr).
    + split; [exists None; reflexivity | vm_compute; discriminate].
    + split; [exact Hu | exact Hr].
Defined.

(** X25: failures need not be in a row over the whole session, only since the
    last success: fewer than three failed ticks, a tick whose refresh returns
    and whose profile request is answered ok, and fewer than three more
    failed ticks leave the user signed in with the tokens that refresh saved,
    the timer running and the counter at the number of failures since. *)
Theorem success_resets_failure_budget (l1 l2 : list TickIn) (x : TickIn)
    (st : Z) (json : value) (s : Session) :
  refreshTimer s = true ->
  consecutiveFailures s = 0%nat ->
  Forall failed l1 -> Forall failed l2 ->
  (length l1 < 3)%nat -> (length l2 < 3)%nat ->
  snd (refresh (reply x) s) = None ->
  profile x = Res st (Some json) -> ok st = true -> json <> VNull ->
  let s' := ticks (l1 ++ x :: l2) s in
  user s' = Some json
  /\ stored_access s' = stored_access (fst (refresh (reply x) s))
  /\ stored_refresh s' = stored_refresh (fst (refresh (reply x) s))
  /\ refreshTimer s' = true
  /\ consecutiveFailures s' = length l2.
Proof.
  intros Ht Hc H1 H2 Hl1 Hl2 Hs Hp Hok Hjson s'. subst s'.
  rewrite (MobileProps.ticks_app_failures l1 _ s H1 Ht) by lia.
  destruct (MobileProps.ticks_failures l1 s Ht H1) as (Hu1 & Ha1 & Hr1 & Ht1 & Hc1);
    [lia |].
  cbn [ticks]. rewrite Ht1.
  destruct (MobileProps.refresh_store (reply x) (ticks l1 s) s Ha1 Hr1)
    as (Hsnd & Hacc & Href).
  rewrite Hs in Hsnd.
  assert (H401 : st <> 401).
  { intros ->. discriminate Hok. }
  assert (Hs1 : tick x (ticks l1 s)
                = let s1 := fst (refresh (reply x) (ticks l1 s)) in
                  mkSession (Some json) (refreshTimer s1) 0%nat (stored_access s1)
                    (stored_refresh s1) (Some (stamp x)) None).
  { rewrite (MobileProps.tick_returns x _ Hsnd). cbv zeta. rewrite Hp.
    unfold refreshUser. rewrite MobileProps.fetchWithAuth_plain by exact H401.
    rewrite Hok. destruct json; try reflexivity. contradiction. }
  cbv zeta in Hs1.
  destruct (MobileProps.ticks_failures l2 (tick x (ticks l1 s)))
    as (Hu2 & Ha2 & Hr2 & Ht2 & Hc2).
  - rewrite Hs1. simpl.
    rewrite (proj1 (proj2 (MobileProps.refresh_rest (reply x) (ticks l1 s)))).
    exact Ht1.
  - exact H2.
  - rewrite Hs1. simpl. lia.
  - rewrite Hu2, Ha2, Hr2, Ht2, Hc2, Hs1. simpl. rewrite Hacc, Href.
    repeat split.
Qed.

Lemma success_resets_failure_budget_witness :
  let f := timeout_tick in
  refreshTimer (ticks ([f; f] ++ good_tick :: [f; f]) signed_in_session) = true
  /\ stored_access (ticks ([f; f] ++ good_tick :: [f; f]) signed_in_session)
     = Some "a2".
Proof.
  intros f.
  destruct (success_resets_failure_budget [f; f] [f; f] good_tick 200
              (VObj [("id", VNum 7)]) signed_in_session)
    as (_ & Ha & _ & Ht & _).
  - reflexivity.
  - reflexivity.
  - repeat constructor.
  - repeat constructor.
  - simpl. lia.
  - simpl. lia.
  - reflexivity.
  - reflexivity.
  - reflexivity.
  - discriminate.
  - split; [exact Ht | exact Ha].
Defined.

(** [startAutoRefresh] always starts from a stopped timer and a zero
    counter, and arms the timer only when a refresh token is stored;
    [logout] signs out, clears both tokens and stops the timer. *)
Theorem startAutoRefresh_and_logout (s : Session) :
  refreshTimer (startAutoRefresh s) = has_token (stored_refresh s)
  /\ consecutiveFailures (startAutoRefresh s) = 0%nat
  /\ user (startAutoRefresh s) = user s
  /\ user (logout s) = None
  /\ stored_access (logout s) = None
  /\ stored_refresh (logout s) = None
  /\ refreshTimer (logout s) = false.
Proof.
  unfold startAutoRefresh. simpl.
  destruct (has_token (stored_refresh s)); repeat split.
Qed.

End MobileExtras.
